(** * ai-code-review: the diff-to-context extraction pipeline

    A shallow embedding of the services [DiffService], [AstService] (the
    revision of ast.service.ts with timeout and depth protection) and
    [TokenService], of the file filter of file.util.ts, the line counts
    of [GitService], the duplicate check of [WebhookService] and the
    retry loop of [AiAgentService], followed by the properties of the
    pipeline stated in the specification and by further properties of
    the code.

    Conventions of the embedding:
    - a JavaScript string is the list of its UTF-16 code units, so that
      [length] is [String.prototype.length];
    - a JavaScript number that holds a line number, a count or a
      configured ceiling is an integer of [Z];
    - an optional field ([oldLineNumber?]) is an [option];
    - a thrown exception is the [Throw] outcome of the [M] monad, which
      also carries what [Logger] was given;
    - the Babel parser, the scope building of the Babel traversal and
      the tokenizer are external libraries: they are parameters of the
      functions that call them. *)

From Stdlib Require Import ZArith NArith Ascii String DecimalString Lia Sorted.
From stdpp Require Import base option list gmap.

Local Open Scope Z_scope.

(** ** The JavaScript string primitives the services use *)

Module JS.

(** A string is its sequence of UTF-16 code units. *)
Abbreviation str := (list N).

Definition bytes_of (s : string) : list N :=
  map (fun a => N_of_ascii a) (list_ascii_of_string s).

(** Source literals are written in this file as UTF-8 text; [utf16]
    turns the UTF-8 bytes into UTF-16 code units (a code point above
    U+FFFF becomes a surrogate pair). *)
Fixpoint utf16 (bs : list N) : str :=
  match bs with
  | [] => []
  | b0 :: r =>
    if (b0 <? 128)%N then b0 :: utf16 r
    else if (b0 <? 224)%N then
      match r with
      | b1 :: r1 =>
        N.lor (N.shiftl (N.land b0 31) 6) (N.land b1 63) :: utf16 r1
      | _ => []
      end
    else if (b0 <? 240)%N then
      match r with
      | b1 :: b2 :: r2 =>
        N.lor (N.shiftl (N.land b0 15) 12)
              (N.lor (N.shiftl (N.land b1 63) 6) (N.land b2 63)) :: utf16 r2
      | _ => []
      end
    else
      match r with
      | b1 :: b2 :: b3 :: r3 =>
        let cp := N.lor (N.shiftl (N.land b0 7) 18)
                 (N.lor (N.shiftl (N.land b1 63) 12)
                 (N.lor (N.shiftl (N.land b2 63) 6) (N.land b3 63))) in
        let v := (cp - 65536)%N in
        (55296 + N.shiftr v 10)%N :: (56320 + N.land v 1023)%N :: utf16 r3
      | _ => []
      end
  end.

(** [lit "text"] is the JavaScript string literal ['text']. *)
Definition lit (s : string) : str := utf16 (bytes_of s).

Definition LF : N := 10.

Definition len (s : str) : Z := Z.of_nat (length s).

Definition eqb (s t : str) : bool := bool_decide (s = t).

(** [s.startsWith(p)] *)
Fixpoint startsWith (p s : str) : bool :=
  match p, s with
  | [], _ => true
  | _ :: _, [] => false
  | a :: p', b :: s' => (a =? b)%N && startsWith p' s'
  end.

(** [s.includes(p)] *)
Fixpoint includes (p s : str) : bool :=
  startsWith p s ||
  match s with
  | [] => false
  | _ :: s' => includes p s'
  end.

(** [s.split('\n')]: never empty, [''.split('\n')] is [['']]. *)
Fixpoint split_lines (s : str) : list str :=
  match s with
  | [] => [[]]
  | c :: s' =>
    if (c =? LF)%N then [] :: split_lines s'
    else match split_lines s' with
         | [] => [[c]]
         | l :: ls => (c :: l) :: ls
         end
  end.

(** [a.join('\n')] *)
Fixpoint join_lines (a : list str) : str :=
  match a with
  | [] => []
  | [l] => l
  | l :: a' => l ++ LF :: join_lines a'
  end.

(** ECMAScript WhiteSpace and LineTerminator code units, the ones
    [trim] removes. *)
Definition isWhiteSpace (c : N) : bool :=
  ((9 <=? c) && (c <=? 13) || (c =? 32) || (c =? 160) || (c =? 5760)
   || (8192 <=? c) && (c <=? 8202) || (c =? 8232) || (c =? 8233)
   || (c =? 8239) || (c =? 8287) || (c =? 12288) || (c =? 65279))%N.

Fixpoint trimStart (s : str) : str :=
  match s with
  | [] => []
  | c :: s' => if isWhiteSpace c then trimStart s' else s
  end.

Definition trimEnd (s : str) : str := reverse (trimStart (reverse s)).

(** [s.trim()] *)
Definition trim (s : str) : str := trimEnd (trimStart s).

(** [s.replace(/^[cs]/, '')] for a character class [cs]: the first code
    unit is dropped when it is in the class. *)
Definition stripLeading (cs : list N) (s : str) : str :=
  match s with
  | c :: s' => if bool_decide (c ∈ cs) then s' else s
  | [] => []
  end.

(** [s.substring(0, n)]: a negative [n] counts as 0, one past the end
    as the length. *)
Definition substring0 (n : Z) (s : str) : str := take (Z.to_nat n) s.

(** [a.slice(b, e)] with JavaScript's treatment of negative and
    out-of-range indices. *)
Definition slice {A} (b e : Z) (a : list A) : list A :=
  let n := Z.of_nat (length a) in
  let k := if b <? 0 then Z.max (n + b) 0 else Z.min b n in
  let f := if e <? 0 then Z.max (n + e) 0 else Z.min e n in
  take (Z.to_nat (Z.max (f - k) 0)) (drop (Z.to_nat k) a).

(** [String(n)] and the interpolation of an integer in a template
    literal (decimal digits; JavaScript switches to an exponent from
    10^21 on, which no length or line number reaches). *)
Definition ofZ (n : Z) : str :=
  bytes_of (NilZero.string_of_int (Z.to_int n)).

Definition isDigit (c : N) : bool := ((48 <=? c) && (c <=? 57))%N.

(** [Number.MAX_SAFE_INTEGER]: up to it a JavaScript number holds every
    integer, and [n + 1] is the next integer. *)
Definition MAX_SAFE_INTEGER : Z := 2 ^ 53 - 1.

(** [parseInt(ds, 10)] on a string of decimal digits (exact below 2^53,
    where a JavaScript number still holds every integer). *)
Definition parseDigits (ds : str) : Z :=
  fold_left (fun acc c => 10 * acc + (Z.of_N c - 48)) ds 0.

(** ASCII part of [s.toLowerCase()]; code units outside [A-Z] are kept
    (no code unit outside ASCII lower-cases to one of the letters of the
    extensions this code compares with). *)
Definition toLowerCase (s : str) : str :=
  map (fun c => if ((65 <=? c) && (c <=? 90))%N then (c + 32)%N else c) s.

(** [s.split('.')] *)
Fixpoint split_dot (s : str) : list str :=
  match s with
  | [] => [[]]
  | c :: s' =>
    if (c =? 46)%N then [] :: split_dot s'
    else match split_dot s' with
         | [] => [[c]]
         | l :: ls => (c :: l) :: ls
         end
  end.

(** [x || d] on a number: 0 is falsy. *)
Definition orElse (x d : Z) : Z := if x =? 0 then d else x.

(** [x || d] on an optional number: [undefined] and 0 are falsy. *)
Definition optOrElse (x : option Z) (d : Z) : Z :=
  match x with
  | Some v => orElse v d
  | None => d
  end.

End JS.

(** ** types/index.ts *)

Inductive LineType := added | removed | context.

#[global] Instance LineType_eq_dec : EqDecision LineType.
Proof. solve_decision. Defined.

Record DiffLine := mkDiffLine {
  lineNumber : Z;
  content : JS.str;
  type : LineType;
  oldLineNumber : option Z;
  newLineNumber : option Z
}.

Record ExtendedDiff := mkExtendedDiff {
  filePath : JS.str;
  oldPath : option JS.str;
  diffLines : list DiffLine
}.

Inductive BlockType := function | class | method | unknown.

Record CodeBlock := mkCodeBlock {
  code : JS.str;
  startLine : Z;
  endLine : Z;
  blockType : BlockType;
  name : option JS.str
}.

(** The [ai], [token] and [ast] groups of [AppConfig]. *)
Record AppConfig := mkAppConfig {
  ai_maxTokens : Z;
  token_maxInputTokens : Z;
  token_reservedOutputTokens : Z;
  ast_maxChars : Z;
  ast_maxLines : Z;
  ast_timeoutMs : Z;
  ast_maxDepth : Z
}.

(** ** diff.service.ts *)

Module DiffService.

(** The groups captured by
    [/@@ -(\d+)(?:,(\d+))? \+(\d+)(?:,(\d+))? @@/]. *)
Record HunkMatch := mkHunkMatch {
  g1 : JS.str;
  g2 : option JS.str;
  g3 : JS.str;
  g4 : option JS.str
}.

(** [\d+]: the longest run of digits, which must not be empty.  Every
    [\d+] of the pattern is followed by a character that is not a
    digit, so the longest run is the only one that can match. *)
Fixpoint digits (s : JS.str) : JS.str * JS.str :=
  match s with
  | c :: s' =>
    if JS.isDigit c then let '(d, r) := digits s' in (c :: d, r)
    else ([], s)
  | [] => ([], [])
  end.

Definition digits1 (s : JS.str) : option (JS.str * JS.str) :=
  match digits s with
  | ([], _) => None
  | (d, r) => Some (d, r)
  end.

(** A literal piece of the pattern. *)
Definition expect (p s : JS.str) : option JS.str :=
  if JS.startsWith p s then Some (drop (length p) s) else None.

(** [(?:,(\d+))?]: taken when a comma and digits are there, skipped
    otherwise. *)
Definition optCount (s : JS.str) : option JS.str * JS.str :=
  match s with
  | 44%N :: s' =>
    match digits1 s' with
    | Some (d, r) => (Some d, r)
    | None => (None, s)
    end
  | _ => (None, s)
  end.

(** The pattern matched at the head of [s]. *)
Definition matchHere (s : JS.str) : option HunkMatch :=
  r ← expect (JS.lit "@@ -") s;
  '(d1, r) ← digits1 r;
  let '(d2, r) := optCount r in
  r ← expect (JS.lit " +") r;
  '(d3, r) ← digits1 r;
  let '(d4, r) := optCount r in
  _ ← expect (JS.lit " @@") r;
  Some (mkHunkMatch d1 d2 d3 d4).

(** [line.match(/.../)]: the pattern is not anchored, the leftmost
    position where it matches wins. *)
Fixpoint hunkMatch (s : JS.str) : option HunkMatch :=
  match matchHere s with
  | Some m => Some m
  | None =>
    match s with
    | [] => None
    | _ :: s' => hunkMatch s'
    end
  end.

(** The local variables of [parseDiff]'s loop, and the array it fills. *)
Record State := mkState {
  out : list DiffLine;
  currentOldLine : Z;
  currentNewLine : Z;
  hunkOldStart : Z;
  hunkOldCount : Z;
  hunkNewStart : Z;
  hunkNewCount : Z
}.

Definition init : State := mkState [] 0 0 0 0 0 0.

Definition push (d : DiffLine) (st : State) : State :=
  mkState (out st ++ [d]) (currentOldLine st) (currentNewLine st)
          (hunkOldStart st) (hunkOldCount st)
          (hunkNewStart st) (hunkNewCount st).

(** [currentOldLine++] and [currentNewLine++], exact while the counters
    stay within [JS.MAX_SAFE_INTEGER]. *)
Definition bump (dOld dNew : Z) (st : State) : State :=
  mkState (out st) (currentOldLine st + dOld) (currentNewLine st + dNew)
          (hunkOldStart st) (hunkOldCount st)
          (hunkNewStart st) (hunkNewCount st).

(** The part of the loop body below the hunk-header test. *)
Definition plainLine (st : State) (line : JS.str) : State :=
  if JS.startsWith (JS.lit "+") line && negb (JS.startsWith (JS.lit "+++") line) then
    bump 0 1
      (push (mkDiffLine (currentNewLine st) line added
                        None (Some (currentNewLine st))) st)
  else if JS.startsWith (JS.lit "-") line && negb (JS.startsWith (JS.lit "---") line) then
    bump 1 0
      (push (mkDiffLine (currentOldLine st) line removed
                        (Some (currentOldLine st)) None) st)
  else if JS.startsWith (JS.lit " ") line || JS.eqb line [] then
    bump 1 1
      (push (mkDiffLine (currentNewLine st) line context
                        (Some (currentOldLine st)) (Some (currentNewLine st))) st)
  else
    push (mkDiffLine (JS.orElse (currentNewLine st) 1) line context None None) st.

(** One iteration of the loop. *)
Definition step (st : State) (line : JS.str) : State :=
  if JS.startsWith (JS.lit "@@") line then
    match hunkMatch line with
    | Some m =>
      let os := JS.parseDigits (g1 m) in
      let oc := JS.parseDigits (default (JS.lit "0") (g2 m)) in
      let ns := JS.parseDigits (g3 m) in
      let nc := JS.parseDigits (default (JS.lit "0") (g4 m)) in
      mkState (out st ++ [mkDiffLine ns line context (Some os) (Some ns)])
              os ns os oc ns nc
    | None => plainLine st line
    end
  else plainLine st line.

Definition parseDiff (diff filePath : JS.str) (oldPath : option JS.str)
  : ExtendedDiff :=
  let lines := JS.split_lines diff in
  mkExtendedDiff filePath oldPath (out (fold_left step lines init)).

Definition extractAddedLines (dl : list DiffLine) : list DiffLine :=
  filter (fun l => type l = added) dl.

(** [getLinePrefix] *)
Definition getLinePrefix (diffLine : DiffLine) : JS.str :=
  match type diffLine with
  | added => JS.lit "+"
  | removed => JS.lit "-"
  | context => JS.lit " "
  end.

(** A line number used as a condition: [undefined] and 0 are falsy. *)
Definition truthyNumber (x : option Z) : option Z :=
  match x with
  | Some n => if n =? 0 then None else Some n
  | None => None
  end.

(** [getLineInfo] *)
Definition getLineInfo (diffLine : DiffLine) : JS.str :=
  let new := truthyNumber (newLineNumber diffLine) in
  let old := truthyNumber (oldLineNumber diffLine) in
  match type diffLine, new, old with
  | added, Some n, _ => JS.lit "[" ++ JS.ofZ n ++ JS.lit "] "
  | removed, _, Some o => JS.lit "[" ++ JS.ofZ o ++ JS.lit "] "
  | context, Some n, Some o =>
    JS.lit "[" ++ JS.ofZ o ++ JS.lit "->" ++ JS.ofZ n ++ JS.lit "] "
  | context, Some n, None => JS.lit "[" ++ JS.ofZ n ++ JS.lit "] "
  | _, _, _ => []
  end.

Definition buildNumberedDiff (extendedDiff : ExtendedDiff) : JS.str :=
  JS.join_lines
    (map (fun diffLine =>
            getLinePrefix diffLine ++ getLineInfo diffLine ++ content diffLine)
         (diffLines extendedDiff)).



End DiffService.

(** ** The effects of ast.service.ts

    [M] is the monad of the service's methods.  Its state is what
    outlives a method call: the lines given to [Logger], the wall clock
    and the timers registered with [setTimeout].  An exception is the
    [Throw] outcome and carries the [message] of the [Error]; the state
    reached before the throw is kept. *)

Inductive LogEntry :=
| LogWarn (msg : JS.str)
| LogDebug (msg : JS.str).

Inductive Outcome (A : Type) :=
| Ok (a : A)
| Throw (message : JS.str).
Arguments Ok {A} a.
Arguments Throw {A} message.

Record Timer := mkTimer {
  timerId : nat;
  due : Z;
  rejectMessage : JS.str
}.

Record World := mkWorld {
  clock : Z;
  timers : list Timer;
  nextTimer : nat;
  logged : list LogEntry
}.

Definition M (A : Type) : Type := World -> World * Outcome A.

Definition ret {A} (a : A) : M A := fun w => (w, Ok a).

Definition throw {A} (message : JS.str) : M A := fun w => (w, Throw message).

Definition bind {A B} (m : M A) (f : A -> M B) : M B := fun w =>
  match m w with
  | (w', Ok a) => f a w'
  | (w', Throw e) => (w', Throw e)
  end.

(** [try { m } catch (error) { h error }] *)
Definition tryCatch {A} (m : M A) (h : JS.str -> M A) : M A := fun w =>
  match m w with
  | (w', Throw e) => h e w'
  | r => r
  end.

Definition logger (e : LogEntry) : M unit := fun w =>
  (mkWorld (clock w) (timers w) (nextTimer w) (logged w ++ [e]), Ok tt).

(** Synchronous work that takes [ms] milliseconds: the clock moves on and
    nothing else runs meanwhile (a JavaScript job runs to completion,
    timer callbacks are only started by the event loop between jobs). *)
Definition elapse (ms : Z) : M unit := fun w =>
  (mkWorld (clock w + ms) (timers w) (nextTimer w) (logged w), Ok tt).

(** [setTimeout(() => reject(new Error(message)), ms)] *)
Definition setTimeout (message : JS.str) (ms : Z) : M nat := fun w =>
  (mkWorld (clock w)
           (timers w ++ [mkTimer (nextTimer w) (clock w + Z.max ms 0) message])
           (S (nextTimer w)) (logged w),
   Ok (nextTimer w)).

(** [clearTimeout(timer)] *)
Definition clearTimeout (timer : nat) : M unit := fun w =>
  (mkWorld (clock w)
           (filter (fun t => timerId t ≠ timer) (timers w))
           (nextTimer w) (logged w),
   Ok tt).

Declare Scope m_scope.
Delimit Scope m_scope with M.
Notation "'let*' x ':=' m 'in' k" := (bind m (fun x => k))
  (at level 10, x name, m at level 100, k at level 200) : m_scope.
Notation "'run' m 'in' k" := (bind m (fun _ => k))
  (at level 10, m at level 100, k at level 200) : m_scope.

(** ** ast.service.ts *)

Module AstService.

Local Open Scope m_scope.

(** *** What the service gets from its libraries and its process *)

(** A node of the Babel AST, with the fields the service reads:
    [type], [loc.start.line] and [loc.end.line], [id.name], [key.name]
    and [key.value]. *)
Record Key := mkKey {
  key_name : option JS.str;
  key_value : option JS.str
}.

Record NodeData := mkNodeData {
  nodeType : JS.str;
  loc : option (Z * Z);
  id_name : option JS.str;
  key : option Key
}.

#[local] Unset Elimination Schemes.
Inductive Ast := Node (d : NodeData) (children : list Ast).
#[local] Set Elimination Schemes.

Inductive SourceType := module | unambiguous.

(** The options [parser.parse] is called with. *)
Record ParserOptions := mkParserOptions {
  sourceType : SourceType;
  plugins : list JS.str;
  allowReturnOutsideFunction : bool;
  allowAwaitOutsideFunction : bool;
  errorRecovery : bool;
  tokens : bool
}.

(** One block of a Vue single-file component: [content] and
    [loc.start.line]. *)
Record SfcBlock := mkSfcBlock {
  sfc_content : JS.str;
  sfc_startLine : option Z
}.

Record SfcResult := mkSfcResult {
  sfc_errors : nat;
  sfc_script : option SfcBlock;
  sfc_scriptSetup : option SfcBlock
}.

Record Env := mkEnv {
  (** [@babel/parser]'s [parse]: a tree, or a thrown [SyntaxError]. *)
  babel_parse : ParserOptions -> JS.str -> Outcome Ast;
  (** the milliseconds that call takes *)
  babel_millis : ParserOptions -> JS.str -> Z;
  (** what [@babel/traverse]'s [traverse] throws while it builds the
      scopes of a tree, before it calls a visitor: the message of the
      [TypeError] ([Duplicate declaration]) for a tree that declares a
      [let] or a [const] twice in a scope, nothing for a tree whose
      scopes build *)
  babel_scopes : Ast -> option JS.str;
  (** [@vue/compiler-sfc]'s [parse], when the package can be loaded *)
  vue_parseSFC : option (JS.str -> JS.str -> Outcome SfcResult);
  (** [process.env.NODE_ENV === 'development'] *)
  development : bool
}.

(** A collected section.  [oid] is the identity of the object (the
    source compares sections with [!==]). *)
Record Sect := mkSect {
  oid : nat;
  start : Z;
  end_ : Z;
  stype : BlockType;
  sname : option JS.str;
  addedLines : list Z
}.

(** [new Set(xs)]: the distinct elements in the order of their first
    insertion, which is the order [for ... of] visits them in. *)
Definition setAdd (s : list Z) (x : Z) : list Z :=
  if bool_decide (x ∈ s) then s else s ++ [x].

Definition newSet (xs : list Z) : list Z := fold_left setAdd xs [].

(** [addedLines.map(line => line.newLineNumber).filter(Boolean)] *)
Definition truthyLineNumbers (addedLines : list DiffLine) : list Z :=
  omap (fun l => match newLineNumber l with
                 | Some n => if n =? 0 then None else Some n
                 | None => None
                 end) addedLines.

Definition getFileExtension (filePath : JS.str) : JS.str :=
  let parts := JS.split_dot filePath in
  if 1 <? Z.of_nat (length parts)
  then JS.toLowerCase (default [] (last parts))
  else [].

Definition isSupportedLanguage (extension : JS.str) : bool :=
  bool_decide (extension ∈ map JS.lit ["js"; "jsx"; "ts"; "tsx"; "vue"]%string).

(** The loop body of [buildFullCode], on the array [lines]. *)
Definition buildStep (lines : list JS.str) (diffLine : DiffLine) : list JS.str :=
  let content := content diffLine in
  if JS.startsWith (JS.lit "@@") content
     || JS.startsWith (JS.lit "---") content
     || JS.startsWith (JS.lit "+++") content
  then lines
  else
    let content := JS.stripLeading (JS.lit "+- ") content in
    if JS.eqb (JS.trim content) [] then lines
    else lines ++ [content].

(** [null] is [None]. *)
Definition buildFullCode (diffLines : list DiffLine) : option JS.str :=
  let lines := fold_left buildStep diffLines [] in
  let code := JS.trim (JS.join_lines lines) in
  if JS.eqb code [] then None else Some code.

(** *** Parsing *)

(** A call of [parser.parse]: it takes its time and returns or throws. *)
Definition parse (env : Env) (options : ParserOptions) (code : JS.str) : M Ast :=
  run elapse (babel_millis env options code) in
  fun w => (w, babel_parse env options code).

Definition isJsx (extension : JS.str) : bool :=
  JS.eqb extension (JS.lit "tsx") || JS.eqb extension (JS.lit "jsx").

Definition parseCode (env : Env) (code extension : JS.str) : M (option Ast) :=
  let plugins :=
    map JS.lit ["typescript"; "decorators-legacy"; "classProperties";
                "objectRestSpread"; "optionalChaining";
                "nullishCoalescingOperator"; "topLevelAwait";
                "dynamicImport"]%string
    ++ (if isJsx extension then [JS.lit "jsx"] else []) in
  tryCatch
    (if JS.eqb code [] || JS.eqb (JS.trim code) [] then ret None
     else
       let* ast := parse env (mkParserOptions module plugins true true true false) code in
       ret (Some ast))
    (fun error =>
       tryCatch
         (let fallbackPlugins :=
            if isJsx extension
            then map JS.lit ["typescript"; "jsx"]%string
            else map JS.lit ["typescript"]%string in
          let* ast := parse env (mkParserOptions unambiguous fallbackPlugins
                                                 true true true false) code in
          ret (Some ast))
         (fun fallbackError =>
            run (if development env then
                   logger (LogDebug
                     (JS.lit "AST parse error for " ++ extension
                      ++ JS.lit " file: " ++ error
                      ++ (if negb (JS.eqb fallbackError error)
                          then JS.lit " (fallback also failed: "
                               ++ fallbackError ++ JS.lit ")"
                          else [])))
                 else ret tt) in
            ret None)).

(** The promise made by [withTimeout] is pending ([None]) or settled;
    only the first [resolve] or [reject] counts. *)
Definition settle {T} (promise : option (Outcome T)) (r : Outcome T)
  : option (Outcome T) :=
  match promise with
  | None => Some r
  | Some _ => promise
  end.

(** A turn of the event loop for the promise whose timer is [timer]:
    when that timer is still registered and due, its callback rejects
    the promise. *)
Definition fireDue {T} (timer : nat) (promise : option (Outcome T))
  : M (option (Outcome T)) := fun w =>
  match filter (fun t => timerId t = timer ∧ due t ≤ clock w) (timers w) with
  | t :: _ =>
    (mkWorld (clock w) (filter (fun t => timerId t ≠ timer) (timers w))
             (nextTimer w) (logged w),
     Ok (settle promise (Throw (rejectMessage t))))
  | [] => (w, Ok promise)
  end.

(** [await promise]: a settled promise gives its outcome; a pending one
    can only be settled by its timer, at the time the timer is due.  A
    pending promise without timer would never be settled; [withTimeout]
    does not make one, and the case is given the empty message. *)
Definition await {T} (timer : nat) (promise : option (Outcome T)) : M T :=
  let* promise := fireDue timer promise in
  match promise with
  | Some r => fun w => (w, r)
  | None => fun w =>
    match filter (fun t => timerId t = timer) (timers w) with
    | t :: _ =>
      (mkWorld (Z.max (clock w) (due t))
               (filter (fun t => timerId t ≠ timer) (timers w))
               (nextTimer w) (logged w),
       Throw (rejectMessage t))
    | [] => (w, Throw [])
    end
  end.

(** The executor of [withTimeout] runs at once and to its end: the timer
    is registered, [fn] is called, the timer is cleared in both branches
    of the [try], and the promise is settled with what [fn] did. *)
Definition withTimeout {T} (fn : M T) (timeoutMs : Z) (errorMessage : JS.str)
  : M T :=
  let* timer := setTimeout errorMessage timeoutMs in
  let* promise :=
    tryCatch
      (let* result := fn in
       run clearTimeout timer in
       ret (settle None (Ok result)))
      (fun error =>
         run clearTimeout timer in
         ret (settle None (Throw error))) in
  await timer promise.

Definition parseCodeWithTimeout (env : Env) (code extension : JS.str)
                                (config : AppConfig) : M (option Ast) :=
  withTimeout (parseCode env code extension)
              (ast_timeoutMs config)
              (JS.lit "AST解析超时 (>" ++ JS.ofZ (ast_timeoutMs config)
               ++ JS.lit "ms)").

(** *** Collecting the sections that contain added lines *)

(** What the visitor of [collectImpactedSections] shares with its
    caller: the counter of [createDepthLimiter] and the [sections]
    array.  Both are updated in place, so what was pushed before an
    exception is still there when the exception is caught. *)
Record Trav := mkTrav {
  currentDepth : Z;
  sections : list Sect
}.

(** [depthLimiter.enter()] *)
Definition limiterEnter (maxDepth : Z) (st : Trav) : Trav * option JS.str :=
  let st := mkTrav (currentDepth st + 1) (sections st) in
  if maxDepth <? currentDepth st
  then (st, Some (JS.lit "AST 遍历深度超限 (" ++ JS.ofZ (currentDepth st)
                  ++ JS.lit " > " ++ JS.ofZ maxDepth ++ JS.lit ")"))
  else (st, None).

(** [depthLimiter.exit()] *)
Definition limiterExit (st : Trav) : Trav :=
  mkTrav (currentDepth st - 1) (sections st).

Definition containsAddedLines (addedLineNumbers : list Z) (start end_ : Z)
  : list Z :=
  filter (fun lineNum => start ≤ lineNum ∧ lineNum ≤ end_) addedLineNumbers.

Definition isTargetNode (d : NodeData) : bool :=
  bool_decide (nodeType d ∈
    map JS.lit ["FunctionDeclaration"; "FunctionExpression";
                "ArrowFunctionExpression"; "ClassDeclaration";
                "ClassMethod"; "ClassProperty"]%string).

(** A string used as a condition: [undefined] and [''] are falsy. *)
Definition truthy (s : option JS.str) : option JS.str :=
  match s with
  | Some [] => None
  | _ => s
  end.

Definition getNodeName (node : NodeData) (parent : option NodeData)
  : option JS.str :=
  match truthy (id_name node) with
  | Some n => Some n
  | None =>
    let declaratorName :=
      match parent with
      | Some p =>
        if JS.eqb (nodeType p) (JS.lit "VariableDeclarator")
        then truthy (id_name p) else None
      | None => None
      end in
    match declaratorName with
    | Some n => Some n
    | None =>
      match key node with
      | Some k =>
        match truthy (key_name k) with
        | Some n => Some n
        | None =>
          match truthy (key_value k) with
          | Some v => Some v
          | None => Some (JS.lit "anonymous")
          end
        end
      | None => Some (JS.lit "anonymous")
      end
    end
  end.

Definition getNodeType (nodeType : JS.str) : BlockType :=
  if JS.eqb nodeType (JS.lit "ClassDeclaration") then class
  else if JS.eqb nodeType (JS.lit "ClassMethod")
          || JS.eqb nodeType (JS.lit "ClassProperty") then method
  else function.

(** The [enter] callback. *)
Definition enter (maxDepth : Z) (addedLineNumbers : list Z)
                 (parent : option NodeData) (node : NodeData) (st : Trav)
  : Trav * option JS.str :=
  match limiterEnter maxDepth st with
  | (st, Some e) => (st, Some e)
  | (st, None) =>
    if negb (isTargetNode node) then (st, None)
    else
      match loc node with
      | None => (st, None)
      | Some (startLine, endLine) =>
        let relevantLines := containsAddedLines addedLineNumbers startLine endLine in
        if bool_decide (length relevantLines = 0%nat) then (st, None)
        else
          (mkTrav (currentDepth st)
                  (sections st ++
                   [mkSect (length (sections st)) startLine endLine
                           (getNodeType (nodeType node))
                           (getNodeName node parent) relevantLines]),
           None)
      end
  end.

(** [traverse] visits a node by calling [enter], then visiting the
    node's children in order, then calling [exit]; an exception thrown
    by a callback ends the traversal at once, no [exit] is called for the
    nodes that are open. *)
Fixpoint visit (maxDepth : Z) (addedLineNumbers : list Z)
               (parent : option NodeData) (n : Ast) (st : Trav)
  : Trav * option JS.str :=
  match n with
  | Node d children =>
    match enter maxDepth addedLineNumbers parent d st with
    | (st, Some e) => (st, Some e)
    | (st, None) =>
      let fix visitAll (cs : list Ast) (st : Trav) : Trav * option JS.str :=
        match cs with
        | [] => (st, None)
        | c :: cs' =>
          match visit maxDepth addedLineNumbers (Some d) c st with
          | (st, Some e) => (st, Some e)
          | (st, None) => visitAll cs' st
          end
        end in
      match visitAll children st with
      | (st, Some e) => (st, Some e)
      | (st, None) => (limiterExit st, None)
      end
    end
  end.

(** The children of a node, visited in order. *)
Fixpoint visitAll (maxDepth : Z) (addedLineNumbers : list Z)
                  (parent : option NodeData) (cs : list Ast) (st : Trav)
  : Trav * option JS.str :=
  match cs with
  | [] => (st, None)
  | c :: cs' =>
    match visit maxDepth addedLineNumbers parent c st with
    | (st, Some e) => (st, Some e)
    | (st, None) => visitAll maxDepth addedLineNumbers parent cs' st
    end
  end.

(** The visit of [traverse(ast, visitor)]: the root passed to
    [traverse] is not itself visited, its children are. *)
Definition visitBelow (maxDepth : Z) (addedLineNumbers : list Z) (ast : Ast)
  : Trav * option JS.str :=
  match ast with
  | Node d children =>
    visitAll maxDepth addedLineNumbers (Some d) children (mkTrav 0 [])
  end.

(** [traverse(ast, visitor)]: the scopes of the tree are built first,
    and an error there is thrown before the visitor is called, so that
    the counter is 0 and no section is collected; then the tree is
    visited. *)
Definition traverse (env : Env) (maxDepth : Z) (addedLineNumbers : list Z)
                    (ast : Ast) : Trav * option JS.str :=
  match babel_scopes env ast with
  | Some error => (mkTrav 0 [], Some error)
  | None => visitBelow maxDepth addedLineNumbers ast
  end.

Definition collectImpactedSections (env : Env) (ast : Ast) (fullCode : JS.str)
                                   (addedLineNumbers : list Z)
                                   (config : AppConfig)
  : M (list Sect) :=
  match traverse env (ast_maxDepth config) addedLineNumbers ast with
  | (st, None) => ret (sections st)
  | (st, Some message) =>
    if negb (JS.eqb message []) && JS.includes (JS.lit "深度超限") message
    then
      run logger (LogWarn (JS.lit "⚠️  " ++ message ++ JS.lit ", 已收集 "
                           ++ JS.ofZ (Z.of_nat (length (sections st)))
                           ++ JS.lit " 个代码块")) in
      ret (sections st)
    else throw message
  end.

(** *** Selecting the smallest sections *)

Definition size (s : Sect) : Z := end_ s - start s.

(** [[...sections].sort((a, b) => sizeA - sizeB)]: the sort is stable,
    sections of equal size keep their order. *)
Fixpoint insertBySize (s : Sect) (sorted : list Sect) : list Sect :=
  match sorted with
  | [] => [s]
  | x :: sorted' =>
    if size s - size x <=? 0 then s :: sorted
    else x :: insertBySize s sorted'
  end.

Definition sortBySize (sections : list Sect) : list Sect :=
  foldr insertBySize [] sections.

(** The loop variables [selected] and [coveredLines]. *)
Record Selection := mkSelection {
  selected : list Sect;
  coveredLines : gset Z
}.

Definition selectStep (sel : Selection) (section : Sect) : Selection :=
  let hasNewLines :=
    existsb (fun line => negb (bool_decide (line ∈ coveredLines sel)))
            (addedLines section) in
  if hasNewLines then
    let isContained :=
      existsb (fun selectedSection =>
                 (start selectedSection <=? start section)
                 && (end_ section <=? end_ selectedSection)
                 && negb (Nat.eqb (oid selectedSection) (oid section)))
              (selected sel) in
    if negb isContained then
      mkSelection (selected sel ++ [section])
                  (fold_left (fun covered line => {[line]} ∪ covered)
                             (addedLines section) (coveredLines sel))
    else sel
  else sel.

Definition selectSmallestSections (sections : list Sect)
                                  (addedLineNumbers : list Z) : list Sect :=
  if bool_decide (length sections = 0%nat) then []
  else selected (fold_left selectStep (sortBySize sections) (mkSelection [] ∅)).

(** *** Limiting the size of a block *)

Definition CONTEXT_RADIUS : Z := 8.

(** [Math.min(...xs)] and [Math.max(...xs)] of a list that is not empty. *)
Definition minOf (x : Z) (xs : list Z) : Z := fold_left Z.min xs x.
Definition maxOf (x : Z) (xs : list Z) : Z := fold_left Z.max xs x.

Definition extractContextAroundLines (codeLines : list JS.str)
                                     (addedLines : list Z)
                                     (startLine endLine contextRadius : Z)
  : JS.str :=
  match addedLines with
  | [] => JS.join_lines (JS.slice (startLine - 1) endLine codeLines)
  | a :: rest =>
    let minAddedLine := minOf a rest in
    let maxAddedLine := maxOf a rest in
    let contextStart := Z.max startLine (minAddedLine - contextRadius) in
    let contextEnd := Z.min endLine (maxAddedLine + contextRadius) in
    let context := JS.slice (contextStart - 1) contextEnd codeLines in
    let context :=
      if startLine <? contextStart
      then JS.lit "/* ... 前面的代码 ... */" :: context else context in
    let context :=
      if contextEnd <? endLine
      then context ++ [JS.lit "/* ... 后面的代码 ... */"] else context in
    JS.join_lines context
  end.

(** The marker appended to a block cut at [maxChars]. *)
Definition truncationMarker (snippetLength : Z) : JS.str :=
  [JS.LF; JS.LF] ++ JS.lit "/* ... 代码过长已截断 (总长" ++ JS.ofZ snippetLength
  ++ JS.lit "字符) */".

(** The marker appended to a block reduced to a window of lines. *)
Definition windowMarker (size : Z) : JS.str :=
  [JS.LF; JS.LF] ++ JS.lit "/* ... 函数较大(" ++ JS.ofZ size
  ++ JS.lit "行)，只显示新增行周围" ++ JS.ofZ CONTEXT_RADIUS
  ++ JS.lit "行上下文 */".

Definition limitSectionSize (section : Sect) (fullCode : JS.str)
                            (config : AppConfig) : option CodeBlock :=
  let codeLines := JS.split_lines fullCode in
  let snippet := JS.join_lines (JS.slice (start section - 1) (end_ section) codeLines) in
  let size := end_ section - start section + 1 in
  if ast_maxChars config <? JS.len snippet then
    let truncated := JS.substring0 (ast_maxChars config) snippet in
    Some (mkCodeBlock (truncated ++ truncationMarker (JS.len snippet))
                      (start section) (end_ section)
                      (stype section) (sname section))
  else if ast_maxLines config <? size then
    let contextSnippet :=
      extractContextAroundLines codeLines (addedLines section)
                                (start section) (end_ section) CONTEXT_RADIUS in
    Some (mkCodeBlock (contextSnippet ++ windowMarker size)
                      (start section) (end_ section)
                      (stype section) (sname section))
  else
    Some (mkCodeBlock snippet (start section) (end_ section)
                      (stype section) (sname section)).

Definition extractMinimalBlocks (env : Env) (ast : Ast)
                                (addedLines : list DiffLine)
                                (fullCode : JS.str) (config : AppConfig)
  : M (list CodeBlock) :=
  let addedLineNumbers := newSet (truthyLineNumbers addedLines) in
  let* allSections :=
    collectImpactedSections env ast fullCode addedLineNumbers config in
  let selectedSections := selectSmallestSections allSections addedLineNumbers in
  ret (omap (fun section => limitSectionSize section fullCode config)
            selectedSections).

(** *** The fallback *)

Definition fallbackExtractBlocks (addedLines : list DiffLine)
                                 (config : AppConfig) : list CodeBlock :=
  match addedLines with
  | [] => []
  | first :: _ =>
    let firstLine := JS.optOrElse (newLineNumber first) 1 in
    let lastLine :=
      JS.optOrElse (newLineNumber (default first (last addedLines))) 1 in
    let code :=
      JS.join_lines (map (fun line => JS.stripLeading (JS.lit "+") (content line))
                         addedLines) in
    if ast_maxChars config <? JS.len code then []
    else if ast_maxLines config <? lastLine - firstLine + 1 then []
    else [mkCodeBlock code firstLine lastLine unknown None]
  end.

(** *** Vue single-file components *)

(** The nodes [traverse] visits below a node, in the order it enters
    them. *)
Fixpoint nodes (n : Ast) : list NodeData :=
  match n with
  | Node d children => d :: flat_map nodes children
  end.

Definition visited (ast : Ast) : list NodeData :=
  match ast with
  | Node _ children => flat_map nodes children
  end.

(** A range collected by [extractScriptBlocks]. *)
Record BlockRange := mkBlockRange {
  r_start : Z;
  r_end : Z;
  r_type : BlockType;
  r_name : option JS.str
}.

(** The five visitors of [extractScriptBlocks], as one function of the
    node. *)
Definition scriptVisitor (scriptAddedLines : list Z) (scriptStartLine : Z)
                         (node : NodeData) : option BlockRange :=
  let named (t : BlockType) (n : option JS.str) :=
    match loc node with
    | Some (startL, endL) =>
      if existsb (fun lineNum => (startL <=? lineNum) && (lineNum <=? endL))
                 scriptAddedLines
      then Some (mkBlockRange (startL + scriptStartLine - 1)
                              (endL + scriptStartLine - 1) t n)
      else None
    | None => None
    end in
  let ty := nodeType node in
  if JS.eqb ty (JS.lit "FunctionDeclaration") then
    named function (id_name node)
  else if JS.eqb ty (JS.lit "FunctionExpression") then
    named function (Some (default (JS.lit "anonymous") (truthy (id_name node))))
  else if JS.eqb ty (JS.lit "ArrowFunctionExpression") then
    named function (Some (JS.lit "arrow"))
  else if JS.eqb ty (JS.lit "ClassDeclaration") then
    named class (id_name node)
  else if JS.eqb ty (JS.lit "ClassMethod") then
    named method
          (Some (default (JS.lit "anonymous")
                         (truthy (k ← key node; key_name k))))
  else None.

(** The loop that turns the ranges into blocks and skips the ones over
    a ceiling. *)
Definition scriptBlock (codeLines : list JS.str) (scriptStartLine : Z)
                       (config : AppConfig) (range : BlockRange)
  : option CodeBlock :=
  let scriptStart := r_start range - scriptStartLine + 1 in
  let scriptEnd := r_end range - scriptStartLine + 1 in
  let code := JS.join_lines (JS.slice (scriptStart - 1) scriptEnd codeLines) in
  if ast_maxChars config <? JS.len code then None
  else if ast_maxLines config <? r_end range - r_start range + 1 then None
  else Some (mkCodeBlock code (r_start range) (r_end range)
                         (r_type range) (r_name range)).

Definition extractScriptBlocks (env : Env) (scriptContent : JS.str)
                               (addedLineNumbers : list Z)
                               (scriptStartLine : Z) (config : AppConfig)
  : M (list CodeBlock) :=
  let scriptAddedLines :=
    newSet (map (fun lineNum => lineNum - scriptStartLine + 1)
                (filter (fun lineNum => scriptStartLine ≤ lineNum)
                        addedLineNumbers)) in
  if bool_decide (length scriptAddedLines = 0%nat) then ret []
  else
    tryCatch
      (let* ast :=
         parse env
           (mkParserOptions module
              (map JS.lit ["typescript"; "jsx"; "decorators-legacy";
                           "classProperties"; "optionalChaining";
                           "nullishCoalescingOperator"]%string)
              false false true false)
           scriptContent in
       match babel_scopes env ast with
       | Some error => throw error
       | None =>
         let blockRanges :=
           omap (scriptVisitor scriptAddedLines scriptStartLine)
                (visited ast) in
         let codeLines := JS.split_lines scriptContent in
         ret (omap (scriptBlock codeLines scriptStartLine config) blockRanges)
       end)
      (fun error =>
         run logger (LogDebug (JS.lit "Script AST parsing failed: " ++ error)) in
         ret []).

(** [descriptor.script && descriptor.script.content], then the blocks
    of that script. *)
Definition sfcBlocks (env : Env) (block : option SfcBlock)
                     (addedLineNumbers : list Z) (config : AppConfig)
  : M (list CodeBlock) :=
  match block with
  | Some b =>
    if JS.eqb (sfc_content b) [] then ret []
    else
      let scriptStartLine := JS.optOrElse (sfc_startLine b) 1 in
      extractScriptBlocks env (sfc_content b) addedLineNumbers
                          scriptStartLine config
  | None => ret []
  end.

Definition extractVueCodeBlocks (env : Env) (diffLines : list DiffLine)
                                (filePath : JS.str)
                                (addedLines : list DiffLine)
                                (config : AppConfig) : M (list CodeBlock) :=
  match vue_parseSFC env with
  | None =>
    run logger (LogDebug (JS.lit
          "@vue/compiler-sfc not available, using fallback for Vue file")) in
    ret (fallbackExtractBlocks addedLines config)
  | Some parseSFC =>
    tryCatch
      (match buildFullCode diffLines with
       | None => ret (fallbackExtractBlocks addedLines config)
       | Some fullCode =>
         let* sfc := (fun w => (w, parseSFC fullCode filePath)) in
         run (if bool_decide (0 < sfc_errors sfc)%nat then
                logger (LogDebug (JS.lit "Vue SFC parse errors: "
                                  ++ JS.ofZ (Z.of_nat (sfc_errors sfc))))
              else ret tt) in
         let addedLineNumbers := newSet (truthyLineNumbers addedLines) in
         let* scriptBlocks :=
           sfcBlocks env (sfc_script sfc) addedLineNumbers config in
         let* setupBlocks :=
           sfcBlocks env (sfc_scriptSetup sfc) addedLineNumbers config in
         let codeBlocks := scriptBlocks ++ setupBlocks in
         ret (if bool_decide (0 < length codeBlocks)%nat then codeBlocks
              else fallbackExtractBlocks addedLines config)
       end)
      (fun error =>
         run logger (LogDebug (JS.lit "Vue file parsing failed: " ++ error)) in
         ret (fallbackExtractBlocks addedLines config))
  end.

(** *** The entry point *)

Definition extractCodeBlocks (env : Env) (diffLines : list DiffLine)
                             (filePath : JS.str) (config : AppConfig)
  : M (list CodeBlock) :=
  let addedLines := filter (fun line => type line = added) diffLines in
  if bool_decide (length addedLines = 0%nat) then ret []
  else
    let fileExtension := getFileExtension filePath in
    if negb (isSupportedLanguage fileExtension) then ret []
    else
      tryCatch
        (if JS.eqb fileExtension (JS.lit "vue") then
           extractVueCodeBlocks env diffLines filePath addedLines config
         else
           match buildFullCode diffLines with
           | None => ret []
           | Some fullCode =>
             let* ast := parseCodeWithTimeout env fullCode fileExtension config in
             match ast with
             | None => ret []
             | Some ast =>
               extractMinimalBlocks env ast addedLines fullCode config
             end
           end)
        (fun error =>
           run (if development env then
                  logger (LogDebug (JS.lit "AST parsing failed for " ++ filePath
                                    ++ JS.lit ", using fallback: " ++ error))
                else ret tt) in
           ret (fallbackExtractBlocks addedLines config)).

End AstService.

(** ** The token service *)

Module TokenService.

(** [@dqbd/tiktoken]: [encoding_for_model(model)] gives an encoder or
    throws for a model it does not know; [encoder.encode(text)] gives
    the tokens. *)
Record Tiktoken := mkTiktoken {
  encoder : Type;
  encoding_for_model : JS.str -> option encoder;
  encode : encoder -> JS.str -> list N
}.

Section WithTiktoken.

Variable tk : Tiktoken.

(** The [encoders] map of the service. *)
Abbreviation Encoders := (gmap JS.str (encoder tk)).

(** [getEncoder]: the cached encoder, or a new one that is cached.
    [None] is the exception of [encoding_for_model('gpt-4')], thrown
    from the [catch] block. *)
Definition getEncoder (model : JS.str) (encoders : Encoders)
  : option (encoder tk * Encoders) :=
  match encoders !! model with
  | Some e => Some (e, encoders)
  | None =>
    match encoding_for_model tk model with
    | Some e => Some (e, <[model := e]> encoders)
    | None =>
      e ← encoding_for_model tk (JS.lit "gpt-4");
      Some (e, <[model := e]> encoders)
    end
  end.

Definition countTokens (text model : JS.str) (encoders : Encoders)
  : option (Z * Encoders) :=
  '(e, encoders) ← getEncoder model encoders;
  let tokens := encode tk e text in
  Some (Z.of_nat (length tokens), encoders).

Definition calculateAvailableTokens (config : AppConfig) (inputTokens : Z) : Z :=
  let totalLimit := ai_maxTokens config in
  let reserved := token_reservedOutputTokens config in
  Z.max 0 (totalLimit - inputTokens - reserved).

Definition exceedsTokenLimit (text : JS.str) (config : AppConfig)
                             (model : JS.str) (encoders : Encoders)
  : option (bool * Encoders) :=
  '(tokens, encoders) ← countTokens text model encoders;
  let available := calculateAvailableTokens config tokens in
  Some (available <? 0, encoders).

End WithTiktoken.

End TokenService.

(** ** utils/file.util.ts *)

Module FileUtil.

(** [filePath.split('.').pop()?.toLowerCase()], then the test of the
    extension: the empty string is falsy.  [JS.toLowerCase] is
    [toLowerCase] on ASCII paths, which the statements about these
    functions assume. *)
Definition isSupportedFile (filePath : JS.str) (supportedExtensions : list JS.str)
  : bool :=
  let extension := JS.toLowerCase (default [] (last (JS.split_dot filePath))) in
  if JS.eqb extension [] then false
  else bool_decide (extension ∈ supportedExtensions).

Definition getFileExtension (filePath : JS.str) : JS.str :=
  let parts := JS.split_dot filePath in
  if 1 <? Z.of_nat (length parts)
  then JS.toLowerCase (default [] (last parts))
  else [].

Definition isCodeFile (filePath : JS.str) (supportedExtensions : list JS.str)
  : bool :=
  isSupportedFile filePath supportedExtensions.

End FileUtil.

(** ** The line counts of the Git service *)

Module GitService.

(** The code units after which [^] matches under the [m] flag. *)
Definition isLineTerminator (c : N) : bool :=
  ((c =? 10) || (c =? 13) || (c =? 8232) || (c =? 8233))%N.

(** [(s.match(/^c/gm) || []).length] for a character [c]: the number of
    lines that start with [c]; [atStart] tells whether the scan is at the
    start of a line. *)
Fixpoint countAtLineStart (c : N) (atStart : bool) (s : JS.str) : nat :=
  match s with
  | [] => 0
  | x :: s' =>
    ((if atStart && (x =? c)%N then 1 else 0)
     + countAtLineStart c (isLineTerminator x) s')%nat
  end.

Definition countAdditions (diff : JS.str) : Z :=
  Z.of_nat (countAtLineStart 43 true diff).

Definition countDeletions (diff : JS.str) : Z :=
  Z.of_nat (countAtLineStart 45 true diff).

End GitService.

(** ** The duplicate check of the webhook service *)

Module WebhookService.

Record MergeRequestInfo := mkMergeRequestInfo {
  username : JS.str;
  projectName : JS.str;
  sourceBranch : JS.str;
  targetBranch : JS.str;
  mrId : JS.str;
  projectId : JS.str;
  mrUrl : JS.str;
  commitMessage : option JS.str
}.

(** [`${mrInfo.projectId}-${mrInfo.mrId}`] *)
Definition mrKey (mrInfo : MergeRequestInfo) : JS.str :=
  projectId mrInfo ++ JS.lit "-" ++ mrId mrInfo.

(** [isDuplicate], with [now] for [Date.now()] and [rateLimitMs] for what
    [parseInt] makes of the environment's value, [None] when that is NaN;
    [processedMRs] is the map of the service.  A time stamp of 0 is
    falsy. *)
Definition isDuplicate (now : Z) (rateLimitMs : option Z)
                       (processedMRs : gmap JS.str Z)
                       (mrInfo : MergeRequestInfo) : bool :=
  match processedMRs !! mrKey mrInfo, rateLimitMs with
  | Some lastProcessed, Some rateLimitMs =>
    negb (lastProcessed =? 0) && (now - lastProcessed <? rateLimitMs)
  | _, _ => false
  end.

(** [recordProcessed]; [setAt] and [pruneAt] are its two readings of
    [Date.now()].  The loop deletes the entries older than one hour. *)
Definition recordProcessed (setAt pruneAt : Z) (processedMRs : gmap JS.str Z)
                           (mrInfo : MergeRequestInfo) : gmap JS.str Z :=
  let processedMRs := <[mrKey mrInfo := setAt]> processedMRs in
  let oneHourAgo := pruneAt - 3600000 in
  filter (fun entry => ¬ (entry.2 < oneHourAgo)) processedMRs.

End WebhookService.

(** ** The retries of the AI agent service *)

Module AiAgentService.

(** What [reviewCode] does, in order: a call of [callAiApi] followed by
    [parseResponse] at an attempt, a warning of the logger, a [sleep]. *)
Inductive Event :=
| Call (attempt : Z)
| Warn (message : JS.str)
| Sleep (ms : Z).

(** The loop of [reviewCode] from [attempt] on, with [fuel] iterations
    left.  [call attempt] is what [callAiApi] followed by [parseResponse]
    gives at that attempt: a result, or the message of the error thrown.
    The events are returned with the outcome. *)
Fixpoint attempts {R} (call : Z -> Outcome R) (maxRetries : Z) (fuel : nat)
                  (attempt : Z) (lastError : option JS.str)
  : list Event * Outcome R :=
  match fuel with
  | O =>
    ([], Throw (JS.lit "AI API call failed after " ++ JS.ofZ maxRetries
                ++ JS.lit " attempts: "
                ++ default (JS.lit "undefined") lastError))
  | S fuel' =>
    match call attempt with
    | Ok reviewResult => ([Call attempt], Ok reviewResult)
    | Throw error =>
      let warning :=
        Warn (JS.lit "AI API call failed (attempt " ++ JS.ofZ attempt
              ++ JS.lit "/" ++ JS.ofZ maxRetries ++ JS.lit "): " ++ error) in
      let delay := 2 ^ (attempt - 1) * 1000 in
      let rest := attempts call maxRetries fuel' (attempt + 1) (Some error) in
      (Call attempt :: warning
         :: (if attempt <? maxRetries then [Sleep delay] else []) ++ rest.1,
       rest.2)
    end
  end.

(** [reviewCode]; [maxRetries] is 3 when it is not given.  The loop runs
    for [attempt] from 1 to [maxRetries]. *)
Definition reviewCode {R} (call : Z -> Outcome R) (maxRetries : option Z)
  : list Event * Outcome R :=
  let maxRetries := default 3 maxRetries in
  attempts call maxRetries (Z.to_nat maxRetries) 1 None.

End AiAgentService.

(** * Statements

    The inputs the examples use and the properties of the specification
    as predicates on the embedded code. *)

Import AstService.

(** The defaults of the application configuration. *)
Definition defaults : AppConfig := mkAppConfig 4096 8000 2000 10000 150 8000 60.

Definition emptyWorld : World := mkWorld 0 [] 0 [].

(** The diff of the test in diff.service.spec.ts, as the specification
    quotes it. *)
Definition test_diff : JS.str :=
  JS.lit "@@ -1,3 +1,4 @@
 line1
+new line
 line2
-line3
+line3 updated".

Definition test_parsed : list DiffLine :=
  diffLines (DiffService.parseDiff test_diff (JS.lit "test.ts") None).

(** ** The shape of a diff line *)

(** The shape the specification states: a context record carries both
    line numbers. *)
Definition claimedShape (d : DiffLine) : Prop :=
  match type d with
  | added => is_Some (newLineNumber d) ∧ oldLineNumber d = None
  | removed => is_Some (oldLineNumber d) ∧ newLineNumber d = None
  | context => is_Some (oldLineNumber d) ∧ is_Some (newLineNumber d)
  end.

(** A line that is a hunk header for [parseDiff]. *)
Definition isHunkHeader (line : JS.str) : bool :=
  JS.startsWith (JS.lit "@@") line
  && bool_decide (is_Some (DiffService.hunkMatch line)).

(** A line that is neither added, nor removed, nor a context line: a
    file header ([---], [+++], [diff --git], [index]) or any other text. *)
Definition isOtherLine (line : JS.str) : bool :=
  negb (JS.startsWith (JS.lit "+") line && negb (JS.startsWith (JS.lit "+++") line))
  && negb (JS.startsWith (JS.lit "-") line && negb (JS.startsWith (JS.lit "---") line))
  && negb (JS.startsWith (JS.lit " ") line || JS.eqb line []).

(** The shape the records have. *)
Definition shape (d : DiffLine) : Prop :=
  match type d with
  | added => is_Some (newLineNumber d) ∧ oldLineNumber d = None
  | removed => is_Some (oldLineNumber d) ∧ newLineNumber d = None
  | context =>
    if isOtherLine (content d) && negb (isHunkHeader (content d))
    then oldLineNumber d = None ∧ newLineNumber d = None
    else is_Some (oldLineNumber d) ∧ is_Some (newLineNumber d)
  end.

(** ** The reconstructed source *)

Definition isHeaderContent (c : JS.str) : bool :=
  JS.startsWith (JS.lit "@@") c
  || JS.startsWith (JS.lit "---") c
  || JS.startsWith (JS.lit "+++") c.

(** The content without its [+], [-] or space prefix. *)
Definition stripPrefix (c : JS.str) : JS.str := JS.stripLeading (JS.lit "+- ") c.

Definition isBlank (c : JS.str) : bool := JS.eqb (JS.trim c) [].

(** The lines the reconstruction keeps, whatever the type of their
    record: not a header, and not blank once the prefix is gone. *)
Definition keptLines (dl : list DiffLine) : list JS.str :=
  filter (fun c => isBlank c = false)
         (map stripPrefix
              (filter (fun c => isHeaderContent c = false) (map content dl))).

(** The reconstruction in the words of the specification, over all the
    records: the kept lines joined by newlines and trimmed, [None] when no
    line is kept. *)
Definition reconstruction (dl : list DiffLine) : option JS.str :=
  match keptLines dl with
  | [] => None
  | ls => Some (JS.trim (JS.join_lines ls))
  end.

(** The reconstruction the specification states: the same, with the
    removed lines left out. *)
Definition claimedReconstruction (dl : list DiffLine) : option JS.str :=
  reconstruction (filter (fun d => type d ≠ removed) dl).

(** ** Minimality *)

(** [outer] contains [inner]: an ancestor/descendant pair of blocks. *)
Definition contains (outer inner : CodeBlock) : Prop :=
  startLine outer ≤ startLine inner ∧ endLine inner ≤ endLine outer.

Definition Minimal (blocks : list CodeBlock) : Prop :=
  ∀ i j a b, i ≠ j → blocks !! i = Some a → blocks !! j = Some b →
             ¬ contains a b.

(** A function with a changed statement and a changed closure in it. *)
Definition nested_diff : JS.str :=
  JS.lit "@@ -1,5 +1,7 @@
 function outer() {
+  const a = 1;
   const f = () => {
+    return a;
   };
   return f;
 }".

Definition leaf (ty : string) (l1 l2 : Z) : Ast :=
  Node (mkNodeData (JS.lit ty) (Some (l1, l2)) None None) [].

Definition node (ty : string) (l1 l2 : Z) (id : option string)
                (children : list Ast) : Ast :=
  Node (mkNodeData (JS.lit ty) (Some (l1, l2)) (JS.lit <$> id) None) children.

(** The tree [@babel/parser] builds for the text of [nested_diff]. *)
Definition nested_ast : Ast :=
  node "File" 1 7 None
    [node "Program" 1 7 None
      [node "FunctionDeclaration" 1 7 (Some "outer")
        [leaf "Identifier" 1 1;
         node "BlockStatement" 1 7 None
           [node "VariableDeclaration" 2 2 None
              [node "VariableDeclarator" 2 2 (Some "a")
                 [leaf "Identifier" 2 2; leaf "NumericLiteral" 2 2]];
            node "VariableDeclaration" 3 5 None
              [node "VariableDeclarator" 3 5 (Some "f")
                 [leaf "Identifier" 3 3;
                  node "ArrowFunctionExpression" 3 5 None
                    [node "BlockStatement" 3 5 None
                       [node "ReturnStatement" 4 4 None
                          [leaf "Identifier" 4 4]]]]];
            node "ReturnStatement" 6 6 None [leaf "Identifier" 6 6]]]]]%string.

(** A process whose parser answers every call with [ast] after [millis]
    milliseconds, and in which the scopes of every tree build. *)
Definition parserGiving (ast : Ast) (millis : Z) : Env :=
  mkEnv (fun _ _ => Ok ast) (fun _ _ => millis) (fun _ => None) None false.

(** A process whose parser rejects every text. *)
Definition parserFailing : Env :=
  mkEnv (fun _ _ => Throw (JS.lit "Unexpected token (1:0)")) (fun _ _ => 1)
        (fun _ => None) None false.

(** [inner] lies within [outer]. *)
Definition inside (inner outer : Sect) : Prop :=
  start outer ≤ start inner ∧ end_ inner ≤ end_ outer.

(** No section of the list lies within a section that comes before it. *)
Definition NeverInsideEarlier (l : list Sect) : Prop :=
  ∀ i j a b, (i < j)%nat → l !! i = Some a → l !! j = Some b → ¬ inside b a.

(** ** Parse failure and timeout *)

(** A one-line change that is not a program: [}]. *)
Definition unparsable_diff : JS.str :=
  JS.lit "@@ -0,0 +1 @@
+}".

Definition unparsable_parsed : list DiffLine :=
  diffLines (DiffService.parseDiff unparsable_diff (JS.lit "a.ts") None).

Definition nested_parsed : list DiffLine :=
  diffLines (DiffService.parseDiff nested_diff (JS.lit "outer.ts") None).

(** The world in which the callback of [withTimeout] runs [fn]: the
    timer is registered. *)
Definition withTimer (timeoutMs : Z) (errorMessage : JS.str) (w : World) : World :=
  (setTimeout errorMessage timeoutMs w).1.

(** The world after [clearTimeout(timer)]. *)
Definition cleared (timer : nat) (w : World) : World :=
  (clearTimeout timer w).1.

(** ** The depth ceiling *)

(** The nodes of a tree in the order [traverse] enters them, each with
    its depth and its parent. *)
Fixpoint entered (depth : Z) (parent : option NodeData) (n : Ast)
  : list (Z * option NodeData * NodeData) :=
  match n with
  | Node d children =>
    (depth, parent, d) :: flat_map (entered (depth + 1) (Some d)) children
  end.

(** The nodes [traverse(ast, ...)] enters: the ones below the root, the
    children of the root at depth 1. *)
Definition enteredBelow (ast : Ast) : list (Z * option NodeData * NodeData) :=
  match ast with
  | Node d children => flat_map (entered 1 (Some d)) children
  end.

(** What entering a node adds to the sections: a section when the node
    is a function, a class or a method that spans an added line. *)
Definition pushSection (addedLineNumbers : list Z) (secs : list Sect)
                       (e : Z * option NodeData * NodeData) : list Sect :=
  let '(_, parent, node) := e in
  if isTargetNode node then
    match loc node with
    | Some (startLine, endLine) =>
      match containsAddedLines addedLineNumbers startLine endLine with
      | [] => secs
      | relevantLines =>
        secs ++ [mkSect (length secs) startLine endLine
                        (getNodeType (nodeType node))
                        (getNodeName node parent) relevantLines]
      end
    | None => secs
    end
  else secs.

(** The sections of a sequence of entered nodes. *)
Definition collected (addedLineNumbers : list Z)
                     (es : list (Z * option NodeData * NodeData)) : list Sect :=
  fold_left (pushSection addedLineNumbers) es [].

(** The nodes entered before the first one that is deeper than the
    ceiling. *)
Fixpoint withinDepth (maxDepth : Z) (es : list (Z * option NodeData * NodeData))
  : list (Z * option NodeData * NodeData) :=
  match es with
  | [] => []
  | e :: es' =>
    if maxDepth <? e.1.1 then [] else e :: withinDepth maxDepth es'
  end.

(** The tree has a node deeper than the ceiling. *)
Definition depthExceeded (maxDepth : Z) (ast : Ast) : Prop :=
  Exists (fun e => maxDepth < e.1.1) (enteredBelow ast).

(** The nodes entered one after the other from the sections [secs], up
    to the first one deeper than the ceiling, whose depth is returned. *)
Fixpoint replay (maxDepth : Z) (addedLineNumbers : list Z)
                (es : list (Z * option NodeData * NodeData)) (secs : list Sect)
  : list Sect * option Z :=
  match es with
  | [] => (secs, None)
  | e :: es' =>
    if maxDepth <? e.1.1 then (secs, Some e.1.1)
    else replay maxDepth addedLineNumbers es' (pushSection addedLineNumbers secs e)
  end.

(** The message of the error the depth limiter throws. *)
Definition depthMessage (depth maxDepth : Z) : JS.str :=
  JS.lit "AST 遍历深度超限 (" ++ JS.ofZ depth ++ JS.lit " > "
  ++ JS.ofZ maxDepth ++ JS.lit ")".

(** The warning of [collectImpactedSections]. *)
Definition depthWarning (message : JS.str) (count : nat) : LogEntry :=
  LogWarn (JS.lit "⚠️  " ++ message ++ JS.lit ", 已收集 "
           ++ JS.ofZ (Z.of_nat count) ++ JS.lit " 个代码块").

(** The state of the traversal after [replay]. *)
Definition afterReplay (depth maxDepth : Z) (r : list Sect * option Z)
  : Trav * option JS.str :=
  match r with
  | (secs, None) => (mkTrav depth secs, None)
  | (secs, Some d) => (mkTrav d secs, Some (depthMessage d maxDepth))
  end.

(** The defaults with a depth ceiling of 5. *)
Definition shallow : AppConfig := mkAppConfig 4096 8000 2000 10000 150 8000 5.

(** ** The size of a block *)

(** The number of lines of a text. *)
Definition lineCount (code : JS.str) : Z :=
  Z.of_nat (length (JS.split_lines code)).

(** The source text of a section: the lines [start] to [end] of the
    reconstructed source. *)
Definition snippetOf (section : Sect) (fullCode : JS.str) : JS.str :=
  JS.join_lines
    (JS.slice (start section - 1) (end_ section) (JS.split_lines fullCode)).

(** The ceilings the specification states for a block that is not cut at
    the character ceiling. *)
Definition withinCeilings (config : AppConfig) (b : CodeBlock) : Prop :=
  JS.len (code b) ≤ ast_maxChars config
  ∧ lineCount (code b) ≤ ast_maxLines config.

(** A one-line section of six characters under a ceiling of three. *)
Definition long_line : Sect := mkSect 0 1 1 function None [1].
Definition three_chars : AppConfig := mkAppConfig 4096 8000 2000 3 150 8000 60.

(** A five-line section of 37 characters changed on its first and last
    line, under ceilings of 40 characters and two lines. *)
Definition five_lines : Sect := mkSect 0 1 5 function None [1; 5].
Definition five_lines_code : JS.str :=
  JS.lit "function f() {
  a();
  b();
  c();
}".
Definition two_lines : AppConfig := mkAppConfig 4096 8000 2000 40 2 8000 60.

(** ** The fallback *)

(** The content of the added lines, each without its leading [+]. *)
Definition addedText (addedLines : list DiffLine) : JS.str :=
  JS.join_lines (map (fun l => JS.stripLeading (JS.lit "+") (content l)) addedLines).

(** [x || 1] for a line number [x]. *)
Definition lineOr1 (d : DiffLine) : Z := JS.optOrElse (newLineNumber d) 1.

(** A diff without a hunk header: its added line gets the number 0. *)
Definition headerless : list DiffLine :=
  DiffService.extractAddedLines
    (diffLines (DiffService.parseDiff (JS.lit "+a") (JS.lit "test.ts") None)).

(** ** The records of a diff *)

(** The three kinds of line [parseDiff] tells apart below a hunk header. *)
Definition isAddedLine (line : JS.str) : bool :=
  JS.startsWith (JS.lit "+") line && negb (JS.startsWith (JS.lit "+++") line).

Definition isRemovedLine (line : JS.str) : bool :=
  JS.startsWith (JS.lit "-") line && negb (JS.startsWith (JS.lit "---") line).

Definition isContextLine (line : JS.str) : bool :=
  JS.startsWith (JS.lit " ") line || JS.eqb line [].

(** The type of the record of a line, read off the line alone. *)
Definition kindOf (line : JS.str) : LineType :=
  if isAddedLine line then added
  else if isRemovedLine line then removed
  else context.

(** The lines that consume a new-file line number, and those that
    consume an old-file one. *)
Definition onNewSide (line : JS.str) : bool :=
  isAddedLine line || negb (isRemovedLine line) && isContextLine line.

Definition onOldSide (line : JS.str) : bool :=
  negb (isAddedLine line) && (isRemovedLine line || isContextLine line).

(** A record as [buildNumberedDiff] renders it. *)
Definition rendered (d : DiffLine) : JS.str :=
  DiffService.getLinePrefix d ++ DiffService.getLineInfo d ++ content d.

(** The hunk header of the diff of the test, matched. *)
Definition test_header : DiffService.HunkMatch :=
  DiffService.mkHunkMatch (JS.lit "1") (Some (JS.lit "3"))
                          (JS.lit "1") (Some (JS.lit "4")).

(** ** The tokenizer of the examples *)

(** A tokenizer that knows [gpt-4] only and makes one token of every
    code unit. *)
Definition toyTiktoken : TokenService.Tiktoken :=
  TokenService.mkTiktoken unit
    (fun model => if JS.eqb model (JS.lit "gpt-4") then Some tt else None)
    (fun _ text => text).

(** ** Extraction as a whole *)

(** A process in development mode whose parser rejects every text. *)
Definition parserFailingLoudly : Env :=
  mkEnv (fun _ _ => Throw (JS.lit "Unexpected token (1:0)")) (fun _ _ => 1)
        (fun _ => None) None true.

(** The value of a [const] is edited: the reconstructed text holds the
    removed and the added line, and declares [a] twice. *)
Definition edited_diff : JS.str :=
  JS.lit "@@ -1,4 +1,4 @@
 function f() {
-  const a = 1;
+  const a = 2;
   return a;
 }".

Definition edited_parsed : list DiffLine :=
  diffLines (DiffService.parseDiff edited_diff (JS.lit "a.ts") None).

(** The tree [@babel/parser] builds for the reconstructed text of
    [edited_diff]. *)
Definition edited_ast : Ast :=
  node "File" 1 5 None
    [node "Program" 1 5 None
      [node "FunctionDeclaration" 1 5 (Some "f")
        [leaf "Identifier" 1 1;
         node "BlockStatement" 1 5 None
           [node "VariableDeclaration" 2 2 None
              [node "VariableDeclarator" 2 2 (Some "a")
                 [leaf "Identifier" 2 2; leaf "NumericLiteral" 2 2]];
            node "VariableDeclaration" 3 3 None
              [node "VariableDeclarator" 3 3 (Some "a")
                 [leaf "Identifier" 3 3; leaf "NumericLiteral" 3 3]];
            node "ReturnStatement" 4 4 None [leaf "Identifier" 4 4]]]]]%string.

(** A process whose parser answers with [edited_ast], and whose
    [traverse] throws the [TypeError] of the second declaration of
    [a]. *)
Definition redeclaring : Env :=
  mkEnv (fun _ _ => Ok edited_ast) (fun _ _ => 1)
        (fun _ => Some (JS.lit "Duplicate declaration " ++ [34%N]
                        ++ JS.lit "a" ++ [34%N]))
        None false.

(** A world with a timer of some other caller. *)
Definition busyWorld : World :=
  mkWorld 100 [mkTimer 0 5000 (JS.lit "other")] 1 [].

(** ** The blocks of a parsed file *)

(** The line [n] is the new line number of one of the added records. *)
Definition changed (addedLines : list DiffLine) (n : Z) : Prop :=
  ∃ l, l ∈ addedLines ∧ newLineNumber l = Some n ∧ n ≠ 0.

(** The functions, classes and methods the traversal enters before it
    ends. *)
Definition reachedTargets (maxDepth : Z) (ast : Ast) : list NodeData :=
  filter (fun d => isTargetNode d = true)
         ((fun e => e.2) <$> withinDepth maxDepth (enteredBelow ast)).

(** The node spans the line [n]. *)
Definition spansLine (d : NodeData) (n : Z) : Prop :=
  ∃ startLine endLine, loc d = Some (startLine, endLine)
                       ∧ startLine ≤ n ∧ n ≤ endLine.

(** The block spans the line [n]. *)
Definition covers (b : CodeBlock) (n : Z) : Prop :=
  startLine b ≤ n ∧ n ≤ endLine b.

(** The number of lines of a block less one, the key of the sort. *)
Definition span (b : CodeBlock) : Z := endLine b - startLine b.

(** [selectStep] without its containment test. *)
Definition selectByNewLines (sel : Selection) (section : Sect) : Selection :=
  if existsb (fun line => negb (bool_decide (line ∈ coveredLines sel)))
             (addedLines section)
  then mkSelection (selected sel ++ [section])
                   (fold_left (fun covered line => {[line]} ∪ covered)
                              (addedLines section) (coveredLines sel))
  else sel.

(** A section as [collectImpactedSections] builds it from the changed
    lines [addedLineNumbers]: its lines are the changed lines of its
    range, and there is one. *)
Definition collectedFrom (addedLineNumbers : list Z) (s : Sect) : Prop :=
  addedLines s = containsAddedLines addedLineNumbers (start s) (end_ s)
  ∧ addedLines s ≠ [].

(** The covered lines are the lines of the selected sections, which are
    collected sections. *)
Definition coveredBySelected (addedLineNumbers : list Z) (sel : Selection)
  : Prop :=
  Forall (collectedFrom addedLineNumbers) (selected sel)
  ∧ ∀ n, n ∈ coveredLines sel ↔ ∃ t, t ∈ selected sel ∧ n ∈ addedLines t.

(** Every section of the list has a line that no section before it
    has. *)
Definition ownLine (l : list Sect) : Prop :=
  ∀ j b, l !! j = Some b →
         ∃ n, n ∈ addedLines b
              ∧ ∀ i a, (i < j)%nat → l !! i = Some a → n ∉ addedLines a.

(** A block built from a section keeps its range, type and name. *)
Definition blockOfSection (s : Sect) (b : CodeBlock) : Prop :=
  startLine b = start s ∧ endLine b = end_ s
  ∧ blockType b = stype s ∧ name b = sname s.

(** A block of a function, a class or a method that spans a changed
    line; the block of the fallback has the type [unknown] and no
    name. *)
Definition sectionBlock (addedLines : list DiffLine) (b : CodeBlock) : Prop :=
  blockType b ≠ unknown ∧ is_Some (name b)
  ∧ ∃ n, changed addedLines n ∧ covers b n.

(** The section comes from one of the entered nodes [es]: a function, a
    class or a method with the range and the type of the section. *)
Definition sectionOfNode (es : list (Z * option NodeData * NodeData))
                         (s : Sect) : Prop :=
  ∃ e, e ∈ es ∧ isTargetNode e.2 = true
       ∧ loc e.2 = Some (start s, end_ s)
       ∧ stype s = getNodeType (nodeType e.2).

(** The distance between the first and the last changed line of a
    section. *)
Definition spread (lines : list Z) : Z :=
  match lines with
  | [] => 0
  | a :: rest => maxOf a rest - minOf a rest
  end.

(** The ceilings as the extraction of a Vue file applies them: to the
    characters of the code and to the lines of the range. *)
Definition withinVueCeilings (config : AppConfig) (b : CodeBlock) : Prop :=
  JS.len (code b) ≤ ast_maxChars config
  ∧ endLine b - startLine b + 1 ≤ ast_maxLines config.

(** ** The file filter *)

(** A path of ASCII characters, for which [JS.toLowerCase] is
    [toLowerCase]. *)
Definition asciiOnly (s : JS.str) : Prop := Forall (fun c => (c < 128)%N) s.

(** The default of [supportedExtensions] in the configuration. *)
Definition defaultExtensions : list JS.str :=
  map JS.lit ["ts"; "tsx"; "js"; "jsx"; "vue"; "py"]%string.

(** ** The line counts of a diff *)

(** The only line terminator of the text is the newline. *)
Definition newlineOnly (s : JS.str) : Prop :=
  Forall (fun c => GitService.isLineTerminator c = true → c = JS.LF) s.

(** The line starts with the character [c]. *)
Definition startsWithChar (c : N) (line : JS.str) : bool :=
  match line with
  | x :: _ => (x =? c)%N
  | [] => false
  end.

(** ** The duplicate check *)

(** The merge request [mrId] of the project [projectId]. *)
Definition mergeRequest (projectId mrId : string) : WebhookService.MergeRequestInfo :=
  WebhookService.mkMergeRequestInfo
    (JS.lit "dev") (JS.lit "shop") (JS.lit "feature") (JS.lit "main")
    (JS.lit mrId) (JS.lit projectId) (JS.lit "https://git.example/mr") None.

(** ** The retries *)

(** The attempts at which the events call the API, and the delays they
    sleep. *)
Definition calls (events : list AiAgentService.Event) : list Z :=
  omap (fun e => match e with
                 | AiAgentService.Call attempt => Some attempt
                 | _ => None
                 end) events.

Definition sleeps (events : list AiAgentService.Event) : list Z :=
  omap (fun e => match e with
                 | AiAgentService.Sleep ms => Some ms
                 | _ => None
                 end) events.

(** The delay after a failed attempt: one second, doubled with every
    attempt. *)
Definition backoff (attempt : Z) : Z := 2 ^ (attempt - 1) * 1000.

Definition total (delays : list Z) : Z := foldr Z.add 0 delays.

(** The message of the error of an outcome. *)
Definition errorOf {R} (o : Outcome R) : option JS.str :=
  match o with
  | Throw message => Some message
  | Ok _ => None
  end.

(** The message [reviewCode] throws after [maxRetries] attempts. *)
Definition retriesMessage (maxRetries : Z) (lastError : option JS.str) : JS.str :=
  JS.lit "AI API call failed after " ++ JS.ofZ maxRetries
  ++ JS.lit " attempts: " ++ default (JS.lit "undefined") lastError.

(** An API that is down, and one that answers at the third attempt. *)
Definition apiDown (attempt : Z) : Outcome JS.str :=
  Throw (JS.lit "connect ECONNREFUSED").

Definition apiUpAtThird (attempt : Z) : Outcome JS.str :=
  if attempt =? 3 then Ok (JS.lit "issues: []")
  else Throw (JS.lit "timeout of 60000ms exceeded").

(** * Proofs *)

(** ** Diff parsing *)

(** What [parseDiff] gives for the diff of the test. *)
Lemma test_parsed_records :
  map (fun d => (content d, type d, oldLineNumber d, newLineNumber d)) test_parsed
  = [(JS.lit "@@ -1,3 +1,4 @@", context, Some 1, Some 1);
     (JS.lit " line1", context, Some 1, Some 1);
     (JS.lit "+new line", added, None, Some 2);
     (JS.lit " line2", context, Some 2, Some 3);
     (JS.lit "-line3", removed, Some 3, None);
     (JS.lit "+line3 updated", added, None, Some 4)].
Proof. vm_compute. reflexivity. Qed.

(** C3, as the specification states it: five records.  The parser gives
    six, so the statement does not hold. *)
Lemma C3_not_five_records :
  ¬ (length test_parsed = 5%nat
     ∧ ∃ r, r ∈ test_parsed ∧ content r = JS.lit "+new line"
            ∧ newLineNumber r = Some 2 ∧ type r = added).
Proof. intros [H _]. vm_compute in H. discriminate. Qed.

(** C3, amended: parsing the diff of the test against [test.ts] yields
    exactly six records, the hunk header being the first of them as a
    context record; the record of [+new line] is the third, it is the only
    one with that content, its new-file line number is 2 and its type is
    [added]. *)
Theorem C3_six_records :
  filePath (DiffService.parseDiff test_diff (JS.lit "test.ts") None) = JS.lit "test.ts"
  ∧ length test_parsed = 6%nat
  ∧ (∃ h, test_parsed !! 0%nat = Some h
          ∧ content h = JS.lit "@@ -1,3 +1,4 @@" ∧ type h = context)
  ∧ ∃ r, test_parsed !! 2%nat = Some r
         ∧ content r = JS.lit "+new line"
         ∧ newLineNumber r = Some 2
         ∧ oldLineNumber r = None
         ∧ type r = added
         ∧ filter (fun d => content d = JS.lit "+new line") test_parsed = [r].
Proof.
  split; [reflexivity|].
  split; [vm_compute; reflexivity|].
  split.
  - eexists. split; [vm_compute; reflexivity|]. split; vm_compute; reflexivity.
  - eexists. split; [vm_compute; reflexivity|].
    repeat split; vm_compute; reflexivity.
Qed.

(** ** The shape of the records of [parseDiff] *)

(** C4, as the specification states it, fails on a file header: its
    record is a context record without line numbers. *)
Lemma C4_context_without_numbers :
  ¬ Forall claimedShape
      (diffLines (DiffService.parseDiff (JS.lit "--- a/test.ts") (JS.lit "test.ts") None)).
Proof.
  intros H. apply Forall_cons_1 in H as [[H _] _].
  vm_compute in H. destruct H as [x H]. discriminate.
Qed.

Section DiffShape.

Import DiffService.

Lemma push_shape (st : State) (d : DiffLine) :
  Forall shape (out st) → shape d → Forall shape (out st ++ [d]).
Proof.
  intros Hst Hd. apply Forall_app. split; [exact Hst|].
  constructor; [exact Hd|constructor].
Qed.

Lemma plainLine_shape (st : State) (line : JS.str) :
  isHunkHeader line = false →
  Forall shape (out st) → Forall shape (out (plainLine st line)).
Proof.
  intros Hh Hst. unfold plainLine.
  destruct (JS.startsWith (JS.lit "+") line
            && negb (JS.startsWith (JS.lit "+++") line)) eqn:E1.
  { apply (push_shape st); [exact Hst|].
    split; [eexists; reflexivity|reflexivity]. }
  destruct (JS.startsWith (JS.lit "-") line
            && negb (JS.startsWith (JS.lit "---") line)) eqn:E2.
  { apply (push_shape st); [exact Hst|].
    split; [eexists; reflexivity|reflexivity]. }
  destruct (JS.startsWith (JS.lit " ") line || JS.eqb line []) eqn:E3.
  { apply (push_shape st); [exact Hst|].
    unfold shape, isOtherLine.
    cbn [type content oldLineNumber newLineNumber].
    rewrite E3. rewrite andb_false_r. cbn [negb andb].
    split; eexists; reflexivity. }
  apply (push_shape st); [exact Hst|].
  unfold shape, isOtherLine.
  cbn [type content oldLineNumber newLineNumber].
  rewrite E1, E2, E3, Hh. cbn [negb andb]. split; reflexivity.
Qed.

Lemma step_shape (st : State) (line : JS.str) :
  Forall shape (out st) → Forall shape (out (step st line)).
Proof.
  intros Hst. unfold step.
  destruct (JS.startsWith (JS.lit "@@") line) eqn:E.
  - destruct (hunkMatch line) as [m|] eqn:Em.
    + apply (push_shape st); [exact Hst|].
      unfold shape, isHunkHeader.
      cbn [type content oldLineNumber newLineNumber].
      rewrite E, Em. rewrite bool_decide_eq_true_2 by (eexists; reflexivity).
      cbn [negb andb]. rewrite andb_false_r. split; eexists; reflexivity.
    + apply plainLine_shape; [|exact Hst].
      unfold isHunkHeader. rewrite Em.
      rewrite bool_decide_eq_false_2; [apply andb_false_r|].
      intros [x Hx]; discriminate.
  - apply plainLine_shape; [|exact Hst].
    unfold isHunkHeader. rewrite E. reflexivity.
Qed.

Lemma fold_step_shape (lines : list JS.str) (st : State) :
  Forall shape (out st) → Forall shape (out (fold_left step lines st)).
Proof.
  revert st. induction lines as [|line lines IH]; intros st Hst; [exact Hst|].
  simpl. apply IH. apply step_shape. exact Hst.
Qed.

(** C4, amended: every record of [parseDiff] of type [added] carries a
    new-file line number and no old-file one; every record of type
    [removed] carries an old-file line number and no new-file one; a
    record of type [context] carries both line numbers when its line is
    a hunk header, starts with a space or is empty, and carries neither
    when its line is any other text (a [---] or [+++] file header, for
    one). *)
Theorem C4_record_shape (diff path : JS.str) (oldPath : option JS.str) :
  Forall shape (diffLines (parseDiff diff path oldPath)).
Proof. unfold parseDiff. simpl. apply fold_step_shape. constructor. Qed.

End DiffShape.

(** ** The reconstructed source *)

Section Trim.

Abbreviation ws := (fun c => JS.isWhiteSpace c = true).

Lemma trimStart_split (s : JS.str) :
  ∃ p, s = p ++ JS.trimStart s ∧ Forall ws p.
Proof.
  induction s as [|c s [p [Hs Hp]]]; [exists []; split; [reflexivity|constructor]|].
  simpl. destruct (JS.isWhiteSpace c) eqn:E.
  - exists (c :: p). split; [simpl; congruence|constructor; assumption].
  - exists []. split; [reflexivity|constructor].
Qed.

Lemma trimStart_nil (s : JS.str) : JS.trimStart s = [] ↔ Forall ws s.
Proof.
  induction s as [|c s IH]; [split; [constructor|reflexivity]|].
  simpl. destruct (JS.isWhiteSpace c) eqn:E.
  - rewrite IH. split; [intros H; constructor; assumption|].
    intros H. apply Forall_cons_1 in H. tauto.
  - split; [discriminate|]. intros H. apply Forall_cons_1 in H as [H _].
    congruence.
Qed.

Lemma trimEnd_nil (s : JS.str) : JS.trimEnd s = [] ↔ Forall ws s.
Proof.
  unfold JS.trimEnd. rewrite <- (Forall_reverse _ s), <- trimStart_nil.
  split; intros H.
  - apply (f_equal reverse) in H. rewrite reverse_involutive in H. exact H.
  - rewrite H. reflexivity.
Qed.

(** [trim] gives the empty string exactly for a string of white space. *)
Lemma trim_nil (s : JS.str) : JS.trim s = [] ↔ Forall ws s.
Proof.
  unfold JS.trim. rewrite trimEnd_nil.
  destruct (trimStart_split s) as [p [Hs Hp]].
  split; intros H.
  - rewrite Hs. apply Forall_app. split; assumption.
  - rewrite Hs in H. apply Forall_app in H. tauto.
Qed.

Lemma join_lines_head (l : JS.str) (ls : list JS.str) :
  ∃ r, JS.join_lines (l :: ls) = l ++ r.
Proof.
  destruct ls as [|l' ls]; simpl.
  - exists []. rewrite app_nil_r. reflexivity.
  - eexists. reflexivity.
Qed.

(** Lines that are not blank do not join to a blank text. *)
Lemma join_not_blank (ls : list JS.str) :
  Forall (fun c => isBlank c = false) ls →
  JS.trim (JS.join_lines ls) = [] → ls = [].
Proof.
  intros Hls H. destruct ls as [|l ls]; [reflexivity|exfalso].
  apply Forall_cons_1 in Hls as [Hl _].
  destruct (join_lines_head l ls) as [r Hr]. rewrite Hr in H.
  apply trim_nil, Forall_app in H as [H _].
  apply trim_nil in H. unfold isBlank, JS.eqb in Hl.
  rewrite H in Hl. discriminate.
Qed.

End Trim.

Lemma keptLines_cons (d : DiffLine) (dl : list DiffLine) :
  keptLines (d :: dl)
  = (if isHeaderContent (content d) then []
     else if isBlank (stripPrefix (content d)) then []
     else [stripPrefix (content d)]) ++ keptLines dl.
Proof.
  unfold keptLines. simpl map. rewrite filter_cons.
  destruct (decide (isHeaderContent (content d) = false)) as [H|H].
  - rewrite H. simpl map. rewrite filter_cons.
    destruct (decide (isBlank (stripPrefix (content d)) = false)) as [H'|H'].
    + rewrite H'. reflexivity.
    + apply not_false_is_true in H'. rewrite H'. reflexivity.
  - apply not_false_is_true in H. rewrite H. reflexivity.
Qed.

(** The loop of [buildFullCode] pushes the kept lines, in order. *)
Lemma fold_buildStep (dl : list DiffLine) (lines : list JS.str) :
  fold_left buildStep dl lines = lines ++ keptLines dl.
Proof.
  revert lines. induction dl as [|d dl IH]; intros lines.
  - simpl. unfold keptLines. simpl. rewrite app_nil_r. reflexivity.
  - simpl fold_left. rewrite IH, keptLines_cons. unfold buildStep.
    fold (isHeaderContent (content d)).
    destruct (isHeaderContent (content d)); [reflexivity|].
    fold (stripPrefix (content d)). fold (isBlank (stripPrefix (content d))).
    destruct (isBlank (stripPrefix (content d))); [reflexivity|].
    rewrite <- app_assoc. reflexivity.
Qed.

Lemma keptLines_not_blank (dl : list DiffLine) :
  Forall (fun c => isBlank c = false) (keptLines dl).
Proof.
  apply Forall_forall. intros c Hc. unfold keptLines in Hc.
  apply list_elem_of_filter in Hc. tauto.
Qed.

(** A line of any type, a removed one as well, is kept when it is not a
    header and not blank. *)
Lemma kept_whatever_the_type (dl : list DiffLine) (d : DiffLine) :
  d ∈ dl →
  isHeaderContent (content d) = false →
  isBlank (stripPrefix (content d)) = false →
  stripPrefix (content d) ∈ keptLines dl.
Proof.
  intros Hd Hh Hb. induction Hd as [d dl|d d' dl Hd IH];
    rewrite keptLines_cons.
  - rewrite Hh, Hb. left.
  - apply elem_of_app. right. apply IH; assumption.
Qed.

(** C5, as the specification states it, fails on the diff of the test:
    the text built from it holds the removed [line3] and so differs from
    the text without the removed lines. *)
Lemma C5_removed_line_is_kept :
  buildFullCode test_parsed
  = Some (JS.lit "line1
new line
line2
line3
line3 updated")
  ∧ claimedReconstruction test_parsed
    = Some (JS.lit "line1
new line
line2
line3 updated")
  ∧ buildFullCode test_parsed ≠ claimedReconstruction test_parsed.
Proof.
  split; [vm_compute; reflexivity|]. split; [vm_compute; reflexivity|].
  vm_compute. discriminate.
Qed.

(** C5, amended: [buildFullCode] concatenates, in original order and
    separated by newlines, the content of the diff lines without their
    leading [+], [-] or space, skipping the lines whose content starts with
    [@@], [---] or [+++] and the lines blank after stripping, and trims the
    result; the lines of removed records are kept like the others, so the
    text interleaves context, added and removed lines; [null] is returned
    exactly when no line is kept. *)
Theorem C5_reconstruction (dl : list DiffLine) :
  buildFullCode dl = reconstruction dl
  ∧ (buildFullCode dl = None ↔ keptLines dl = [])
  ∧ ∀ d, d ∈ dl → type d = removed →
         isHeaderContent (content d) = false →
         isBlank (stripPrefix (content d)) = false →
         stripPrefix (content d) ∈ keptLines dl.
Proof.
  assert (H : buildFullCode dl = reconstruction dl).
  { unfold buildFullCode, reconstruction. rewrite fold_buildStep. simpl app.
    pose proof (keptLines_not_blank dl) as Hk.
    destruct (keptLines dl) as [|l ls] eqn:E; [reflexivity|].
    unfold JS.eqb. case_bool_decide as Ht; [|reflexivity].
    apply join_not_blank in Ht; [discriminate|exact Hk]. }
  split; [exact H|]. split.
  - rewrite H. unfold reconstruction.
    destruct (keptLines dl); split; intros; congruence.
  - intros d Hd _. apply kept_whatever_the_type. exact Hd.
Qed.

(** ** Timeout and parse failure *)

Lemma no_timer_left (timer : nat) (now : Z) (ts : list Timer) :
  filter (fun t => timerId t = timer ∧ due t ≤ now)
         (filter (fun t => timerId t ≠ timer) ts) = [].
Proof.
  induction ts as [|t ts IH]; [reflexivity|].
  rewrite filter_cons. destruct (decide (timerId t ≠ timer)) as [H|H]; [|exact IH].
  rewrite filter_cons. destruct (decide (timerId t = timer ∧ due t ≤ now)) as [[H' _]|_];
    [contradiction|exact IH].
Qed.

(** Whatever [fn] does and however long it takes, the promise of
    [withTimeout] is settled with the outcome of [fn]: [fn] runs to its
    end inside the executor and the timer is cleared before the event
    loop could start its callback. *)
Lemma withTimeout_outcome {T} (fn : M T) (timeoutMs : Z) (errorMessage : JS.str)
                          (w : World) :
  withTimeout fn timeoutMs errorMessage w
  = let '(w1, r) := fn (withTimer timeoutMs errorMessage w) in
    (cleared (nextTimer w) w1, r).
Proof.
  unfold withTimeout, bind, tryCatch, withTimer. simpl.
  destruct (fn _) as [w1 r].
  destruct r as [a|e]; simpl; unfold await, bind, fireDue; simpl;
    rewrite no_timer_left; reflexivity.
Qed.

(** [parseCode] catches what the parser throws: it returns a tree or
    [null], and leaves the timers alone. *)
Lemma parseCode_returns (env : Env) (code extension : JS.str) (w : World) :
  ∃ w1 r, parseCode env code extension w = (w1, Ok r)
          ∧ timers w1 = timers w ∧ nextTimer w1 = nextTimer w.
Proof.
  unfold parseCode, tryCatch, bind, parse, elapse, ret, logger.
  destruct (JS.eqb code [] || JS.eqb (JS.trim code) []); [eauto|].
  destruct (babel_parse env _ code); [simpl; eauto|].
  destruct (babel_parse env _ code); [simpl; eauto|].
  destruct (development env); simpl; eauto.
Qed.

(** [parseCodeWithTimeout] never rejects: not with an error of the
    parser, which [parseCode] catches, and not with the timeout error. *)
Lemma parseCodeWithTimeout_never_rejects
      (env : Env) (code extension : JS.str) (config : AppConfig) (w : World) :
  ∃ w' r, parseCodeWithTimeout env code extension config w = (w', Ok r).
Proof.
  unfold parseCodeWithTimeout. rewrite withTimeout_outcome.
  destruct (parseCode_returns env code extension
              (withTimer (ast_timeoutMs config)
                 (JS.lit "AST解析超时 (>" ++ JS.ofZ (ast_timeoutMs config)
                  ++ JS.lit "ms)") w)) as [w1 [r [-> _]]].
  eauto.
Qed.

(** When the parser rejects the text with every set of options,
    [parseCode] returns [null]. *)
Lemma parseCode_null (env : Env) (code extension : JS.str) (w : World) :
  (∀ options, ∃ e, babel_parse env options code = Throw e) →
  ∃ w1, parseCode env code extension w = (w1, Ok None).
Proof.
  intros Hfail.
  unfold parseCode, tryCatch, bind, parse, elapse, ret, logger.
  destruct (JS.eqb code [] || JS.eqb (JS.trim code) []); [eauto|].
  match goal with |- context [babel_parse env ?o code] =>
    destruct (Hfail o) as [e1 ->] end.
  match goal with |- context [babel_parse env ?o code] =>
    destruct (Hfail o) as [e2 ->] end.
  destruct (development env); simpl; eauto.
Qed.

(** C2 fails on the code: when the parser rejects the reconstructed text
    in the first parse and in the retry, [parseCode] returns [null] and
    the extraction of a [js], [jsx], [ts] or [tsx] file returns normally
    with no block at all; the fallback extractor is not called. *)
Theorem C2_parse_failure_returns_no_block
        (env : Env) (dl : list DiffLine) (path : JS.str)
        (config : AppConfig) (w : World) :
  getFileExtension path ≠ JS.lit "vue" →
  (∀ fullCode options, buildFullCode dl = Some fullCode →
                       ∃ e, babel_parse env options fullCode = Throw e) →
  ∃ w', extractCodeBlocks env dl path config w = (w', Ok []).
Proof.
  intros Hvue Hfail. unfold extractCodeBlocks.
  case_bool_decide; [eexists; reflexivity|].
  destruct (isSupportedLanguage (getFileExtension path)); [|eexists; reflexivity].
  cbn [negb]. unfold JS.eqb at 1.
  rewrite bool_decide_eq_false_2 by exact Hvue.
  unfold tryCatch.
  destruct (buildFullCode dl) as [fullCode|] eqn:Hb; [|eexists; reflexivity].
  unfold bind at 1. unfold parseCodeWithTimeout. rewrite withTimeout_outcome.
  edestruct (parseCode_null env fullCode (getFileExtension path)) as [w1 ->].
  { intros options. apply Hfail. reflexivity. }
  eexists. reflexivity.
Qed.

(** The theorem at [unparsable_diff]: no block is returned, where the
    fallback extractor has one block for the added line. *)
Lemma C2_parse_failure_witness :
  (∃ w', extractCodeBlocks parserFailing unparsable_parsed (JS.lit "a.ts")
                           defaults emptyWorld = (w', Ok []))
  ∧ fallbackExtractBlocks (DiffService.extractAddedLines unparsable_parsed) defaults
    = [mkCodeBlock (JS.lit "}") 1 1 unknown None].
Proof.
  split.
  - apply C2_parse_failure_returns_no_block.
    + vm_compute. discriminate.
    + intros fullCode options _. eexists. reflexivity.
  - vm_compute. reflexivity.
Defined.

(** C9 fails on the code: for a parse that takes [millis] milliseconds,
    however many more than the 8000 of [timeoutMs], extraction waits for
    the parse, is not routed to the fallback extractor and returns the
    blocks of the parsed tree. *)
Theorem C9_slow_parse_is_not_aborted (millis : Z) :
  ∃ w inner outer,
    extractCodeBlocks (parserGiving nested_ast millis) nested_parsed
                      (JS.lit "outer.ts") defaults emptyWorld
    = (w, Ok [inner; outer])
    ∧ clock w = millis
    ∧ timers w = []
    ∧ (blockType inner, blockType outer) = (function, function)
    ∧ ∃ b, fallbackExtractBlocks (DiffService.extractAddedLines nested_parsed) defaults
           = [b] ∧ blockType b = unknown.
Proof.
  do 3 eexists. split; [vm_compute; reflexivity|].
  repeat split. eexists. split; vm_compute; reflexivity.
Qed.

(** ** The depth ceiling *)

Section AstInduction.

Variable P : Ast → Prop.
Hypothesis step : ∀ d children, Forall P children → P (Node d children).

(** Induction on a tree, with the hypothesis on every child. *)
Fixpoint Ast_induction (n : Ast) : P n :=
  match n with
  | Node d children =>
    step d children
      ((fix all (cs : list Ast) : Forall P cs :=
          match cs with
          | [] => List.Forall_nil P
          | c :: cs' => List.Forall_cons P c cs' (Ast_induction c) (all cs')
          end) children)
  end.

End AstInduction.

Section Traversal.

Variable maxDepth : Z.
Variable addedLineNumbers : list Z.

Lemma enter_pushSection (parent : option NodeData) (node : NodeData) (st : Trav) :
  enter maxDepth addedLineNumbers parent node st
  = let d := currentDepth st + 1 in
    if maxDepth <? d
    then (mkTrav d (sections st), Some (depthMessage d maxDepth))
    else (mkTrav d (pushSection addedLineNumbers (sections st) (d, parent, node)),
          None).
Proof.
  unfold enter, limiterEnter, pushSection. cbn [currentDepth sections].
  destruct (maxDepth <? currentDepth st + 1); [reflexivity|].
  cbn zeta. destruct (isTargetNode node); [|reflexivity]. cbn [negb].
  destruct (loc node) as [[startLine endLine]|]; [|reflexivity].
  destruct (containsAddedLines addedLineNumbers startLine endLine) eqn:E;
    reflexivity.
Qed.

(** [visit] on a node, with the loop over its children as [visitAll]. *)
Lemma visit_node (parent : option NodeData) (d : NodeData)
                 (children : list Ast) (st : Trav) :
  visit maxDepth addedLineNumbers parent (Node d children) st
  = match enter maxDepth addedLineNumbers parent d st with
    | (st, Some e) => (st, Some e)
    | (st, None) =>
      match visitAll maxDepth addedLineNumbers (Some d) children st with
      | (st, Some e) => (st, Some e)
      | (st, None) => (limiterExit st, None)
      end
    end.
Proof.
  cbn [visit]. destruct (enter _ _ _ _ _) as [st' [e|]]; [reflexivity|].
  match goal with |- match ?a with _ => _ end = match ?b with _ => _ end =>
    assert (H : a = b); [|rewrite H; reflexivity] end.
  clear st. revert st'. induction children as [|c cs IH]; intros st'.
  - reflexivity.
  - cbn [visitAll].
    destruct (visit maxDepth addedLineNumbers (Some d) c st') as [st'' [e|]];
      [reflexivity|apply IH].
Qed.

Lemma replay_app (es es' : list (Z * option NodeData * NodeData))
                 (secs : list Sect) :
  replay maxDepth addedLineNumbers (es ++ es') secs
  = match replay maxDepth addedLineNumbers es secs with
    | (secs', None) => replay maxDepth addedLineNumbers es' secs'
    | r => r
    end.
Proof.
  revert secs. induction es as [|e es IH]; intros secs; [reflexivity|].
  cbn [app replay]. destruct (maxDepth <? e.1.1); [reflexivity|apply IH].
Qed.

(** The loop over the children of a node replays their nodes, given
    that each child does. *)
Lemma visitAll_replay (parent : option NodeData) (children : list Ast) :
  Forall (fun c => ∀ p st,
            visit maxDepth addedLineNumbers p c st
            = afterReplay (currentDepth st) maxDepth
                (replay maxDepth addedLineNumbers
                        (entered (currentDepth st + 1) p c) (sections st)))
         children →
  ∀ st,
    visitAll maxDepth addedLineNumbers parent children st
    = afterReplay (currentDepth st) maxDepth
        (replay maxDepth addedLineNumbers
                (flat_map (entered (currentDepth st + 1) parent) children)
                (sections st)).
Proof.
  induction 1 as [|c cs Hc _ IH]; intros st.
  - destruct st; reflexivity.
  - cbn [visitAll flat_map]. rewrite Hc, replay_app.
    destruct (replay maxDepth addedLineNumbers
                     (entered (currentDepth st + 1) parent c) (sections st))
      as [secs [d|]]; [reflexivity|].
    cbn [afterReplay]. rewrite IH. reflexivity.
Qed.

(** [visit] enters the nodes of the tree in order until one is deeper
    than the ceiling, and leaves the depth counter as it found it when
    none is. *)
Lemma visit_replay (n : Ast) :
  ∀ parent st,
    visit maxDepth addedLineNumbers parent n st
    = afterReplay (currentDepth st) maxDepth
        (replay maxDepth addedLineNumbers
                (entered (currentDepth st + 1) parent n) (sections st)).
Proof.
  induction n as [d children IH] using Ast_induction. intros parent st.
  rewrite visit_node, enter_pushSection. cbn zeta. cbn [entered replay fst snd].
  destruct (maxDepth <? currentDepth st + 1); [reflexivity|].
  rewrite (visitAll_replay (Some d) children IH). cbn [currentDepth sections].
  destruct (replay _ _ _ _) as [secs [d'|]]; [reflexivity|].
  cbn [afterReplay]. unfold limiterExit. cbn [currentDepth sections].
  f_equal. f_equal. lia.
Qed.

Lemma visitBelow_replay (ast : Ast) :
  visitBelow maxDepth addedLineNumbers ast
  = afterReplay 0 maxDepth
      (replay maxDepth addedLineNumbers (enteredBelow ast) []).
Proof.
  destruct ast as [d children]. unfold visitBelow, enteredBelow.
  rewrite visitAll_replay; [reflexivity|].
  apply Forall_forall. intros c _ p st. apply visit_replay.
Qed.

(** The traversal of a tree whose scopes build. *)
Lemma traverse_replay (env : Env) (ast : Ast) :
  babel_scopes env ast = None →
  traverse env maxDepth addedLineNumbers ast
  = afterReplay 0 maxDepth
      (replay maxDepth addedLineNumbers (enteredBelow ast) []).
Proof. intros H. unfold traverse. rewrite H. apply visitBelow_replay. Qed.

(** The sections [replay] ends with are those of the nodes within the
    depth ceiling. *)
Lemma replay_sections (es : list (Z * option NodeData * NodeData))
                      (secs : list Sect) :
  (replay maxDepth addedLineNumbers es secs).1
  = fold_left (pushSection addedLineNumbers) (withinDepth maxDepth es) secs.
Proof.
  revert secs. induction es as [|e es IH]; intros secs; [reflexivity|].
  cbn [replay withinDepth]. destruct (maxDepth <? e.1.1); [reflexivity|].
  apply IH.
Qed.

Lemma replay_aborts (es : list (Z * option NodeData * NodeData))
                    (secs : list Sect) :
  Exists (fun e => maxDepth < e.1.1) es →
  ∃ d, (replay maxDepth addedLineNumbers es secs).2 = Some d.
Proof.
  intros H. revert secs. induction H as [e es He|e es _ IH]; intros secs;
    cbn [replay].
  - destruct (Z.ltb_spec maxDepth e.1.1); [eexists; reflexivity|lia].
  - destruct (maxDepth <? e.1.1); [eexists; reflexivity|apply IH].
Qed.

Lemma pushSection_prefix (es : list (Z * option NodeData * NodeData))
                         (secs : list Sect) :
  secs `prefix_of` fold_left (pushSection addedLineNumbers) es secs.
Proof.
  revert secs. induction es as [|e es IH]; intros secs; [reflexivity|].
  cbn [fold_left]. etransitivity; [|apply IH].
  destruct e as [[depth parent] node]. unfold pushSection.
  destruct (isTargetNode node); [|reflexivity].
  destruct (loc node) as [[s e]|]; [|reflexivity].
  destruct (containsAddedLines addedLineNumbers s e); [reflexivity|].
  apply prefix_app_r. reflexivity.
Qed.

Lemma withinDepth_prefix (es : list (Z * option NodeData * NodeData)) :
  ∃ rest, es = withinDepth maxDepth es ++ rest.
Proof.
  induction es as [|e es [rest IH]]; [exists []; reflexivity|].
  cbn [withinDepth]. destruct (maxDepth <? e.1.1).
  - eexists. reflexivity.
  - exists rest. cbn [app]. congruence.
Qed.

(** The sections kept at the abort are the first of the sections a
    traversal without ceiling collects. *)
Lemma kept_prefix (es : list (Z * option NodeData * NodeData)) :
  collected addedLineNumbers (withinDepth maxDepth es)
  `prefix_of` collected addedLineNumbers es.
Proof.
  destruct (withinDepth_prefix es) as [rest H]. unfold collected.
  rewrite H at 2. rewrite fold_left_app. apply pushSection_prefix.
Qed.

End Traversal.

Lemma startsWith_app (p s : JS.str) : JS.startsWith p (p ++ s) = true.
Proof.
  induction p as [|c p IH]; [reflexivity|].
  cbn [app JS.startsWith]. rewrite N.eqb_refl. exact IH.
Qed.

Lemma includes_middle (p a b : JS.str) : JS.includes p (a ++ p ++ b) = true.
Proof.
  induction a as [|c a IH].
  - cbn [app]. destruct (p ++ b) eqn:E; cbn [JS.includes];
      rewrite <- E, startsWith_app; reflexivity.
  - cbn [app JS.includes]. rewrite IH. apply orb_true_r.
Qed.

(** The message of the depth limiter is the one
    [collectImpactedSections] looks for. *)
Lemma depthMessage_recognised (depth maxDepth : Z) :
  negb (JS.eqb (depthMessage depth maxDepth) [])
  && JS.includes (JS.lit "深度超限") (depthMessage depth maxDepth) = true.
Proof.
  unfold depthMessage.
  replace (JS.lit "AST 遍历深度超限 (")
    with (JS.lit "AST 遍历" ++ JS.lit "深度超限" ++ JS.lit " (")
    by (vm_compute; reflexivity).
  rewrite <- !app_assoc. rewrite includes_middle.
  replace (JS.lit "AST 遍历") with (65%N :: JS.lit "ST 遍历")
    by (vm_compute; reflexivity).
  reflexivity.
Qed.

(** C8: when the traversal runs, that is when the scopes of the tree
    build, and the tree has a node deeper than [maxDepth], the traversal
    stops at the first such node; [collectImpactedSections] does not
    throw, it logs a warning and returns the sections collected from the
    nodes entered before the abort, which are the first of the sections
    of the whole tree; extraction returns the blocks built from these
    sections. *)
Theorem C8_depth_exceeded_keeps_sections
        (env : Env) (ast : Ast) (fullCode : JS.str)
        (addedLines : list DiffLine) (config : AppConfig) (w : World) :
  babel_scopes env ast = None →
  depthExceeded (ast_maxDepth config) ast →
  let numbers := newSet (truthyLineNumbers addedLines) in
  let kept := collected numbers
                (withinDepth (ast_maxDepth config) (enteredBelow ast)) in
  ∃ w' depth,
    (traverse env (ast_maxDepth config) numbers ast).2
    = Some (depthMessage depth (ast_maxDepth config))
    ∧ collectImpactedSections env ast fullCode numbers config w = (w', Ok kept)
    ∧ logged w'
      = logged w ++ [depthWarning (depthMessage depth (ast_maxDepth config))
                                  (length kept)]
    ∧ kept `prefix_of` collected numbers (enteredBelow ast)
    ∧ extractMinimalBlocks env ast addedLines fullCode config w
      = (w', Ok (omap (fun s => limitSectionSize s fullCode config)
                      (selectSmallestSections kept numbers))).
Proof.
  intros Hscopes Hdeep numbers kept.
  destruct (replay_aborts (ast_maxDepth config) numbers _ [] Hdeep) as [depth Hd].
  pose proof (replay_sections (ast_maxDepth config) numbers (enteredBelow ast) [])
    as Hk. fold (collected numbers (withinDepth (ast_maxDepth config) (enteredBelow ast)))
    in Hk. fold kept in Hk.
  assert (Ht : traverse env (ast_maxDepth config) numbers ast
               = (mkTrav depth kept,
                  Some (depthMessage depth (ast_maxDepth config)))).
  { rewrite traverse_replay by exact Hscopes.
    destruct (replay _ _ _ _) as [secs r]. cbn [fst snd] in *. subst. reflexivity. }
  assert (Hc : collectImpactedSections env ast fullCode numbers config w
               = (mkWorld (clock w) (timers w) (nextTimer w)
                          (logged w ++ [depthWarning
                             (depthMessage depth (ast_maxDepth config))
                             (length kept)]),
                  Ok kept)).
  { unfold collectImpactedSections. rewrite Ht.
    rewrite depthMessage_recognised. reflexivity. }
  eexists. exists depth.
  split; [rewrite Ht; reflexivity|]. split; [exact Hc|].
  split; [reflexivity|]. split; [apply kept_prefix|].
  unfold extractMinimalBlocks. fold numbers. unfold bind. rewrite Hc. reflexivity.
Qed.

(** The theorem at [nested_ast] under a ceiling of 5: the function is
    entered at depth 2 and kept, the closure in it is not reached. *)
Lemma C8_depth_exceeded_witness :
  ∃ w' outer,
    extractMinimalBlocks (parserGiving nested_ast 0) nested_ast
                         (DiffService.extractAddedLines nested_parsed)
                         (JS.lit "function outer() {
  const a = 1;
  const f = () => {
    return a;
  };
  return f;
}") shallow emptyWorld
    = (w', Ok [outer])
    ∧ (startLine outer, endLine outer) = (1, 7)
    ∧ ∃ message, logged w' = [LogWarn message].
Proof.
  destruct (C8_depth_exceeded_keeps_sections (parserGiving nested_ast 0)
              nested_ast (JS.lit "function outer() {
  const a = 1;
  const f = () => {
    return a;
  };
  return f;
}") (DiffService.extractAddedLines nested_parsed) shallow emptyWorld)
    as [w' [depth [_ [_ [Hlog [_ Hblocks]]]]]].
  { reflexivity. }
  { vm_compute. do 6 apply Exists_cons_tl. apply Exists_cons_hd. reflexivity. }
  exists w'. eexists. split; [rewrite Hblocks; vm_compute; reflexivity|].
  split; [reflexivity|]. eexists. rewrite Hlog. reflexivity.
Defined.

(** ** Minimality *)

(** The two sections the traversal of [nested_ast] collects for the
    changed lines 2 and 4, and what the selection makes of them: the
    closure first, then the function around it, which covers line 2. *)
Lemma nested_selection :
  ∃ outer inner,
    (traverse (parserGiving nested_ast 0) 60 [2; 4] nested_ast).1.(sections)
    = [outer; inner]
    ∧ (start outer, end_ outer, addedLines outer) = (1, 7, [2; 4])
    ∧ (start inner, end_ inner, addedLines inner) = (3, 5, [4])
    ∧ selectSmallestSections [outer; inner] [2; 4] = [inner; outer].
Proof.
  do 2 eexists. split; [vm_compute; reflexivity|].
  repeat split; vm_compute; reflexivity.
Qed.

(** C1 fails on the code: for [nested_ast] and the changed lines 2 and 4,
    extraction returns the closure of lines 3 to 5 and the function of
    lines 1 to 7 that encloses it. *)
Theorem C1_nested_blocks_returned :
  ∃ w inner outer,
    extractCodeBlocks (parserGiving nested_ast 0)
      (diffLines (DiffService.parseDiff nested_diff (JS.lit "outer.ts") None))
      (JS.lit "outer.ts") defaults emptyWorld
    = (w, Ok [inner; outer])
    ∧ (startLine inner, endLine inner) = (3, 5)
    ∧ (startLine outer, endLine outer) = (1, 7)
    ∧ contains outer inner
    ∧ ¬ Minimal [inner; outer].
Proof.
  do 3 eexists. split; [vm_compute; reflexivity|].
  split; [reflexivity|]. split; [reflexivity|].
  assert (Hc : contains
    {| code := JS.lit "function outer() {
  const a = 1;
  const f = () => {
    return a;
  };
  return f;
}"; startLine := 1; endLine := 7; blockType := function;
       name := Some (JS.lit "outer") |}
    {| code := JS.lit "  const f = () => {
    return a;
  };"; startLine := 3; endLine := 5; blockType := function;
       name := Some (JS.lit "f") |}).
  { unfold contains; simpl; lia. }
  split; [exact Hc|].
  intros Hmin. eapply (Hmin 1%nat 0%nat); [lia|reflexivity|reflexivity|exact Hc].
Qed.

Lemma insertBySize_perm (s : Sect) (l : list Sect) : insertBySize s l ≡ₚ s :: l.
Proof.
  induction l as [|x l IH]; [reflexivity|].
  cbn [insertBySize]. destruct (size s - size x <=? 0); [reflexivity|].
  rewrite IH. apply Permutation_swap.
Qed.

Lemma sortBySize_perm (l : list Sect) : sortBySize l ≡ₚ l.
Proof.
  induction l as [|x l IH]; [reflexivity|].
  unfold sortBySize in *. cbn [foldr]. rewrite insertBySize_perm, IH.
  reflexivity.
Qed.

Lemma NeverInsideEarlier_snoc (l : list Sect) (s : Sect) :
  NeverInsideEarlier l → (∀ a, a ∈ l → ¬ inside s a) →
  NeverInsideEarlier (l ++ [s]).
Proof.
  intros Hl Hs i j a b Hij Ha Hb.
  apply lookup_snoc_Some in Hb as [[Hj Hb]|[Hj <-]].
  - apply lookup_snoc_Some in Ha as [[_ Ha]|[Hi _]]; [|lia].
    exact (Hl i j a b Hij Ha Hb).
  - apply lookup_snoc_Some in Ha as [[_ Ha]|[Hi _]]; [|lia].
    apply Hs. eapply list_elem_of_lookup_2. exact Ha.
Qed.

(** A section passes the [isContained] test only when it lies within
    none of the sections selected so far. *)
Lemma not_contained (sel : list Sect) (s : Sect) :
  (∀ a, a ∈ sel → oid a ≠ oid s) →
  existsb (fun selectedSection =>
             (start selectedSection <=? start s)
             && (end_ s <=? end_ selectedSection)
             && negb (Nat.eqb (oid selectedSection) (oid s))) sel = false →
  ∀ a, a ∈ sel → ¬ inside s a.
Proof.
  intros Hoid Hex a Ha [H1 H2].
  assert (Hin : In a sel) by (apply list_elem_of_In; exact Ha).
  assert (Htrue : existsb (fun selectedSection =>
             (start selectedSection <=? start s)
             && (end_ s <=? end_ selectedSection)
             && negb (Nat.eqb (oid selectedSection) (oid s))) sel = true).
  { apply existsb_exists. exists a. split; [exact Hin|].
    apply andb_true_intro. split; [apply andb_true_intro; split; lia|].
    apply negb_true_iff, Nat.eqb_neq, Hoid, Ha. }
  congruence.
Qed.

Lemma fold_selectStep (rest : list Sect) (sel : Selection) :
  NoDup (oid <$> (selected sel ++ rest)) →
  NeverInsideEarlier (selected sel) →
  NeverInsideEarlier (selected (fold_left selectStep rest sel)).
Proof.
  revert sel. induction rest as [|s rest IH]; intros sel Hnd Hsel; [exact Hsel|].
  cbn [fold_left].
  assert (Hoid : ∀ a, a ∈ selected sel → oid a ≠ oid s).
  { intros a Ha E. rewrite fmap_app, fmap_cons in Hnd.
    apply NoDup_app in Hnd as [_ [Hd _]].
    apply (Hd (oid a)); [apply list_elem_of_fmap_2, Ha|].
    rewrite E. left. }
  assert (Hnd' : NoDup (oid <$> (selected sel ++ rest))).
  { rewrite fmap_app, fmap_cons in Hnd. rewrite fmap_app.
    apply NoDup_app in Hnd as [H1 [H2 H3]]. apply NoDup_cons in H3 as [_ H3].
    apply NoDup_app. split; [exact H1|]. split; [|exact H3].
    intros x Hx Hx'. apply (H2 x Hx). right. exact Hx'. }
  apply IH; unfold selectStep.
  - destruct (existsb _ (addedLines s)); [|exact Hnd'].
    destruct (existsb _ (selected sel)); [exact Hnd'|].
    cbn [negb selected]. rewrite <- app_assoc. exact Hnd.
  - destruct (existsb _ (addedLines s)); [|exact Hsel].
    destruct (existsb _ (selected sel)) eqn:E; [exact Hsel|].
    cbn [negb selected]. apply NeverInsideEarlier_snoc; [exact Hsel|].
    apply not_contained; assumption.
Qed.

(** The identity of a collected section is its place in the array. *)
Lemma pushSection_oids (added : list Z)
      (es : list (Z * option NodeData * NodeData)) (secs : list Sect) :
  oid <$> secs = seq 0 (length secs) →
  let secs' := fold_left (pushSection added) es secs in
  oid <$> secs' = seq 0 (length secs').
Proof.
  revert secs. induction es as [|e es IH]; intros secs H; [exact H|].
  cbn [fold_left]. apply IH.
  destruct e as [[depth parent] node]. unfold pushSection.
  destruct (isTargetNode node); [|exact H].
  destruct (loc node) as [[s e]|]; [|exact H].
  destruct (containsAddedLines added s e); [exact H|].
  rewrite fmap_app, length_app, seq_app, H. reflexivity.
Qed.

(** Of the sections collected by a traversal, the selected ones never
    lie within a section selected before them, which is of smaller or
    equal size; a section selected later can still contain them. *)
Lemma selection_never_inside_earlier
      (added : list Z) (es : list (Z * option NodeData * NodeData)) :
  NeverInsideEarlier (selectSmallestSections (collected added es) added).
Proof.
  unfold selectSmallestSections.
  case_bool_decide; [intros i j a b _ Ha; discriminate|].
  apply fold_selectStep; [|intros i j a b _ Ha; discriminate].
  cbn [selected app]. rewrite sortBySize_perm.
  unfold collected. rewrite pushSection_oids by reflexivity.
  apply NoDup_seq.
Qed.

(** ** The size of a block *)

Section Lines.

Abbreviation oneLine := (fun l : JS.str => JS.LF ∉ l).

Lemma split_lines_not_nil (s : JS.str) : JS.split_lines s ≠ [].
Proof.
  destruct s as [|c s]; simpl; [discriminate|].
  destruct (c =? JS.LF)%N; [discriminate|].
  destruct (JS.split_lines s); discriminate.
Qed.

(** The lines of [split] hold no newline. *)
Lemma split_lines_oneLine (s : JS.str) : Forall oneLine (JS.split_lines s).
Proof.
  induction s as [|c s IH]; simpl.
  - constructor; [apply not_elem_of_nil|constructor].
  - destruct (N.eqb_spec c JS.LF) as [E|E].
    + constructor; [apply not_elem_of_nil|exact IH].
    + destruct (JS.split_lines s) as [|l ls].
      * constructor; [|constructor].
        intros H. apply list_elem_of_singleton in H. congruence.
      * apply Forall_cons_1 in IH as [Hl Hls].
        constructor; [|exact Hls].
        intros H. apply elem_of_cons in H as [H|H]; [congruence|tauto].
Qed.

Lemma split_lines_app (l r : JS.str) :
  oneLine l →
  JS.split_lines (l ++ JS.LF :: r) = l :: JS.split_lines r.
Proof.
  induction l as [|c l IH]; intros Hl; simpl.
  - reflexivity.
  - destruct (N.eqb_spec c JS.LF) as [E|E].
    + exfalso. apply Hl. rewrite E. left.
    + rewrite IH; [reflexivity|].
      intros H. apply Hl. right. exact H.
Qed.

Lemma split_lines_one (l : JS.str) : oneLine l → JS.split_lines l = [l].
Proof.
  induction l as [|c l IH]; intros Hl; simpl; [reflexivity|].
  destruct (N.eqb_spec c JS.LF) as [E|E].
  - exfalso. apply Hl. rewrite E. left.
  - rewrite IH; [reflexivity|].
    intros H. apply Hl. right. exact H.
Qed.

(** [split] undoes [join] on lines without newline. *)
Lemma split_join (l : JS.str) (ls : list JS.str) :
  Forall oneLine (l :: ls) →
  JS.split_lines (JS.join_lines (l :: ls)) = l :: ls.
Proof.
  revert l. induction ls as [|l' ls IH]; intros l H.
  - apply Forall_cons_1 in H as [Hl _]. simpl. apply split_lines_one, Hl.
  - apply Forall_cons_1 in H as [Hl Hls].
    change (JS.join_lines (l :: l' :: ls))
      with (l ++ JS.LF :: JS.join_lines (l' :: ls)).
    rewrite split_lines_app by exact Hl. rewrite IH by exact Hls.
    reflexivity.
Qed.

Lemma lineCount_join (ls : list JS.str) :
  Forall oneLine ls →
  lineCount (JS.join_lines ls) = Z.max 1 (Z.of_nat (length ls)).
Proof.
  intros H. unfold lineCount. destruct ls as [|l ls]; [reflexivity|].
  rewrite split_join by exact H. simpl length. lia.
Qed.

Lemma slice_Forall {A} (P : A → Prop) (b e : Z) (a : list A) :
  Forall P a → Forall P (JS.slice b e a).
Proof. intros H. unfold JS.slice. apply Forall_take, Forall_drop, H. Qed.

Lemma slice_length {A} (b e : Z) (a : list A) :
  0 ≤ b → b ≤ e → Z.of_nat (length (JS.slice b e a)) ≤ e - b.
Proof.
  intros Hb He. unfold JS.slice.
  destruct (Z.ltb_spec b 0); [lia|]. destruct (Z.ltb_spec e 0); [lia|].
  rewrite length_take, length_drop. lia.
Qed.

End Lines.

(** C6, as the specification states it, fails: the block cut at a
    ceiling of three characters has more than three characters, and the
    windowed block of a five-line section has more than the 40 characters
    and more than the two lines of its ceilings although it is not cut at
    the character ceiling. *)
Lemma C6_ceilings_exceeded :
  (∃ b, limitSectionSize long_line (JS.lit "abcdef") three_chars = Some b
        ∧ JS.len (code b) = 30
        ∧ ¬ JS.len (code b) ≤ ast_maxChars three_chars)
  ∧ (∃ b, limitSectionSize five_lines five_lines_code two_lines = Some b
          ∧ JS.len (snippetOf five_lines five_lines_code) ≤ ast_maxChars two_lines
          ∧ JS.len (code b) = 71
          ∧ lineCount (code b) = 7
          ∧ ¬ JS.len (code b) ≤ ast_maxChars two_lines
          ∧ ¬ lineCount (code b) ≤ ast_maxLines two_lines).
Proof.
  split.
  - eexists. split; [vm_compute; reflexivity|].
    split; [vm_compute; reflexivity|]. vm_compute. intros H; apply H; reflexivity.
  - eexists. split; [vm_compute; reflexivity|].
    split; [vm_compute; discriminate|].
    split; [vm_compute; reflexivity|]. split; [vm_compute; reflexivity|].
    split; vm_compute; intros H; apply H; reflexivity.
Qed.

(** C6, amended: a section of lines [start] to [end], [1 ≤ start ≤ end],
    always yields one block, in exactly one of three ways.  When its
    source text has more than [maxChars] characters, the code is the first
    [maxChars] characters of the text followed by the truncation marker:
    its character count is [maxChars] (0 when that is negative) plus the
    length of the marker, which is above the ceiling.  Otherwise, when the
    section has more than [maxLines] lines, the code is the window around
    the changed lines followed by the window marker; it is bounded
    neither by [maxLines] nor by [maxChars].  Otherwise the code is the source text itself, of at most
    [maxChars] characters and at most [maxLines] lines.  Character
    truncation and line windowing are never both applied. *)
Theorem C6_block_sizes (section : Sect) (fullCode : JS.str) (config : AppConfig) :
  1 ≤ start section → start section ≤ end_ section →
  let snippet := snippetOf section fullCode in
  let size := end_ section - start section + 1 in
  ∃ b, limitSectionSize section fullCode config = Some b
       ∧ startLine b = start section ∧ endLine b = end_ section
       ∧ ((ast_maxChars config < JS.len snippet
           ∧ code b = JS.substring0 (ast_maxChars config) snippet
                      ++ truncationMarker (JS.len snippet)
           ∧ JS.len (code b)
             = Z.max 0 (ast_maxChars config)
               + JS.len (truncationMarker (JS.len snippet))
           ∧ ast_maxChars config < JS.len (code b))
          ∨ (JS.len snippet ≤ ast_maxChars config
             ∧ ast_maxLines config < size
             ∧ code b = extractContextAroundLines
                          (JS.split_lines fullCode) (addedLines section)
                          (start section) (end_ section) CONTEXT_RADIUS
                        ++ windowMarker size)
          ∨ (JS.len snippet ≤ ast_maxChars config
             ∧ size ≤ ast_maxLines config
             ∧ code b = snippet
             ∧ withinCeilings config b)).
Proof.
  intros Hs He snippet size. unfold limitSectionSize.
  fold (snippetOf section fullCode). fold snippet. fold size.
  destruct (Z.ltb_spec (ast_maxChars config) (JS.len snippet)) as [Hc|Hc].
  - eexists. split; [reflexivity|]. split; [reflexivity|]. split; [reflexivity|].
    left. split; [exact Hc|]. split; [reflexivity|].
    assert (Hlen : JS.len (JS.substring0 (ast_maxChars config) snippet
                           ++ truncationMarker (JS.len snippet))
                   = Z.max 0 (ast_maxChars config)
                     + JS.len (truncationMarker (JS.len snippet))).
    { unfold JS.len, JS.substring0 in *. rewrite length_app, length_take. lia. }
    split; [exact Hlen|]. cbn [code]. rewrite Hlen.
    assert (0 < JS.len (truncationMarker (JS.len snippet))).
    { unfold truncationMarker, JS.len. simpl length. lia. }
    lia.
  - destruct (Z.ltb_spec (ast_maxLines config) size) as [Hl|Hl].
    + eexists. split; [reflexivity|]. split; [reflexivity|]. split; [reflexivity|].
      right. left. split; [exact Hc|]. split; [exact Hl|]. reflexivity.
    + eexists. split; [reflexivity|]. split; [reflexivity|]. split; [reflexivity|].
      right. right. split; [exact Hc|]. split; [exact Hl|]. split; [reflexivity|].
      split; [exact Hc|]. cbn [code]. unfold snippet, snippetOf.
      rewrite lineCount_join by (apply slice_Forall, split_lines_oneLine).
      pose proof (slice_length (start section - 1) (end_ section)
                               (JS.split_lines fullCode)).
      lia.
Qed.

(** The theorem at a section of three lines under the default ceilings:
    the block is the source text. *)
Lemma C6_block_sizes_witness :
  ∃ b, limitSectionSize (mkSect 0 1 3 function None [2])
                        (JS.lit "function f() {
  return 1;
}") defaults = Some b
       ∧ withinCeilings defaults b.
Proof.
  destruct (C6_block_sizes (mkSect 0 1 3 function None [2])
                           (JS.lit "function f() {
  return 1;
}") defaults) as [b [Hb [_ [_ H]]]]; [simpl; lia|simpl; lia|].
  exists b. split; [exact Hb|].
  destruct H as [[H _]|[[_ [H _]]|[_ [_ [_ H]]]]].
  - vm_compute in H. discriminate.
  - vm_compute in H. discriminate.
  - exact H.
Defined.

(** ** The fallback *)

(** C7, as the specification states it, fails where the first added line
    carries the number 0, as the added line of a diff without hunk header
    does: the block starts at line 1. *)
Lemma C7_start_is_not_the_line_number :
  ∃ l b, headerless = [l]
         ∧ newLineNumber l = Some 0
         ∧ fallbackExtractBlocks headerless defaults = [b]
         ∧ Some (startLine b) ≠ newLineNumber l
         ∧ Some (endLine b) ≠ newLineNumber l.
Proof.
  do 2 eexists. split; [vm_compute; reflexivity|].
  split; [reflexivity|]. split; [vm_compute; reflexivity|].
  split; simpl; discriminate.
Qed.

Lemma last_default {A} (l : list A) (d : A) :
  default d (last l) = List.last l d.
Proof.
  induction l as [|x l IH]; [reflexivity|].
  destruct l as [|y l]; [reflexivity|exact IH].
Qed.

Lemma lineOr1_number (d : DiffLine) (n : Z) :
  newLineNumber d = Some n → n ≠ 0 → lineOr1 d = n.
Proof.
  intros H Hn. unfold lineOr1, JS.optOrElse, JS.orElse. rewrite H.
  destruct (Z.eqb_spec n 0); [contradiction|reflexivity].
Qed.

Lemma lineOr1_default (d : DiffLine) :
  newLineNumber d = None ∨ newLineNumber d = Some 0 → lineOr1 d = 1.
Proof. intros [H|H]; unfold lineOr1; rewrite H; reflexivity. Qed.

(** C7, amended: for a list of added lines that is not empty, the
    fallback returns at most one block.  With [s] the new-file line
    number of the first added line and [e] that of the last one, each
    replaced by 1 when it is missing or 0, and [text] the content of the
    added lines without their leading [+], joined by newlines: when [text]
    has more than [maxChars] characters or [e - s + 1] is more than
    [maxLines], no block is returned; otherwise exactly one block is, of
    type [unknown], from [s] to [e], whose code is the whole [text]. *)
Theorem C7_fallback_block (first : DiffLine) (rest : list DiffLine)
                          (config : AppConfig) :
  let addedLines := first :: rest in
  let s := lineOr1 first in
  let e := lineOr1 (List.last rest first) in
  let text := addedText addedLines in
  (∀ n, newLineNumber first = Some n → n ≠ 0 → s = n)
  ∧ (∀ n, newLineNumber (List.last rest first) = Some n → n ≠ 0 → e = n)
  ∧ (ast_maxChars config < JS.len text ∨ ast_maxLines config < e - s + 1 →
     fallbackExtractBlocks addedLines config = [])
  ∧ (JS.len text ≤ ast_maxChars config ∧ e - s + 1 ≤ ast_maxLines config →
     fallbackExtractBlocks addedLines config
     = [mkCodeBlock text s e unknown None]).
Proof.
  intros addedLines s e text.
  split; [intros n; apply lineOr1_number|].
  split; [intros n; apply lineOr1_number|].
  assert (Hdef : fallbackExtractBlocks addedLines config
                 = if ast_maxChars config <? JS.len text then []
                   else if ast_maxLines config <? e - s + 1 then []
                   else [mkCodeBlock text s e unknown None]).
  { unfold fallbackExtractBlocks, addedLines.
    rewrite last_default.
    replace (List.last (first :: rest) first) with (List.last rest first)
      by (destruct rest; reflexivity).
    reflexivity. }
  rewrite Hdef.
  split.
  - intros [H|H].
    + destruct (Z.ltb_spec (ast_maxChars config) (JS.len text)); [reflexivity|lia].
    + destruct (Z.ltb_spec (ast_maxChars config) (JS.len text)); [reflexivity|].
      destruct (Z.ltb_spec (ast_maxLines config) (e - s + 1)); [reflexivity|lia].
  - intros [H1 H2].
    destruct (Z.ltb_spec (ast_maxChars config) (JS.len text)); [lia|].
    destruct (Z.ltb_spec (ast_maxLines config) (e - s + 1)); [lia|reflexivity].
Qed.

(** ** The token budget *)

Section TokenBudget.

Import TokenService.

Variable tk : Tiktoken.

Lemma available_nonnegative (config : AppConfig) (inputTokens : Z) :
  0 ≤ calculateAvailableTokens config inputTokens.
Proof. unfold calculateAvailableTokens. lia. Qed.

(** When the tokenizer knows [gpt-4], [countTokens] returns for every
    model: an unknown model gets the encoder of [gpt-4]. *)
Lemma countTokens_returns (text model : JS.str) (encoders : gmap JS.str (encoder tk)) :
  is_Some (encoding_for_model tk (JS.lit "gpt-4")) →
  is_Some (countTokens tk text model encoders).
Proof.
  intros [e He]. unfold countTokens, getEncoder.
  destruct (encoders !! model); [eexists; reflexivity|].
  destruct (encoding_for_model tk model); [eexists; reflexivity|].
  rewrite He. eexists; reflexivity.
Qed.

(** C10: for every text, configuration and model, [exceedsTokenLimit]
    returns [false]: the available tokens are floored at zero, so the
    test [available < 0] never succeeds, whatever the number of tokens.
    The call returns exactly when [countTokens] does, with the same cache
    of encoders. *)
Theorem C10_exceedsTokenLimit_false
        (text : JS.str) (config : AppConfig) (model : JS.str)
        (encoders : gmap JS.str (encoder tk)) :
  (∀ inputTokens, (calculateAvailableTokens config inputTokens <? 0) = false)
  ∧ exceedsTokenLimit tk text config model encoders
    = (fun r => (false, r.2)) <$> countTokens tk text model encoders.
Proof.
  assert (H : ∀ n, (calculateAvailableTokens config n <? 0) = false).
  { intros n. pose proof (available_nonnegative config n).
    apply Z.ltb_ge. assumption. }
  split; [exact H|].
  unfold exceedsTokenLimit.
  destruct (countTokens tk text model encoders) as [[n enc]|]; simpl; [|reflexivity].
  rewrite H. reflexivity.
Qed.

End TokenBudget.

(** ** The records of a diff, line by line *)

Section DiffRecords.

Import DiffService.

Lemma join_lines_cons_char (c : N) (l : JS.str) (ls : list JS.str) :
  JS.join_lines ((c :: l) :: ls) = c :: JS.join_lines (l :: ls).
Proof. destruct ls; reflexivity. Qed.

(** [join] undoes [split]. *)
Lemma join_split (s : JS.str) : JS.join_lines (JS.split_lines s) = s.
Proof.
  induction s as [|c s IH]; [reflexivity|].
  cbn [JS.split_lines]. pose proof (split_lines_not_nil s) as Hne.
  destruct (c =? JS.LF)%N eqn:E.
  - apply N.eqb_eq in E. subst c.
    destruct (JS.split_lines s) as [|l ls]; [contradiction|].
    change (JS.join_lines ([] :: l :: ls)) with (JS.LF :: JS.join_lines (l :: ls)).
    rewrite IH. reflexivity.
  - destruct (JS.split_lines s) as [|l ls]; [contradiction|].
    rewrite join_lines_cons_char, IH. reflexivity.
Qed.

Lemma header_is_context (line : JS.str) :
  JS.startsWith (JS.lit "@@") line = true → kindOf line = context.
Proof.
  destruct line as [|c line]; [discriminate|].
  intros H. change (((64 =? c)%N && JS.startsWith [64%N] line) = true) in H.
  apply andb_true_iff in H as [H _]. apply N.eqb_eq in H. subst c.
  reflexivity.
Qed.

(** Every iteration of the loop pushes one record, which holds the line
    and has the type of the line. *)
Lemma step_pushes (st : State) (line : JS.str) :
  ∃ r, out (step st line) = out st ++ [r]
       ∧ content r = line ∧ type r = kindOf line.
Proof.
  assert (Hplain : ∃ r, out (plainLine st line) = out st ++ [r]
                        ∧ content r = line ∧ type r = kindOf line).
  { unfold plainLine, kindOf, isAddedLine, isRemovedLine.
    destruct (JS.startsWith (JS.lit "+") line
              && negb (JS.startsWith (JS.lit "+++") line));
      [eexists; split; [reflexivity|split; reflexivity]|].
    destruct (JS.startsWith (JS.lit "-") line
              && negb (JS.startsWith (JS.lit "---") line));
      [eexists; split; [reflexivity|split; reflexivity]|].
    destruct (JS.startsWith (JS.lit " ") line || JS.eqb line []);
      eexists; split; try reflexivity; split; reflexivity. }
  unfold step. destruct (JS.startsWith (JS.lit "@@") line) eqn:E; [|exact Hplain].
  destruct (hunkMatch line); [|exact Hplain].
  eexists. split; [reflexivity|]. split; [reflexivity|].
  symmetry. apply header_is_context, E.
Qed.

Lemma fold_step_pushes (lines : list JS.str) (st : State) :
  map content (out (fold_left step lines st)) = map content (out st) ++ lines
  ∧ map type (out (fold_left step lines st))
    = map type (out st) ++ map kindOf lines.
Proof.
  revert st. induction lines as [|line lines IH]; intros st.
  - cbn [fold_left map]. rewrite !app_nil_r. split; reflexivity.
  - cbn [fold_left map]. destruct (IH (step st line)) as [IH1 IH2].
    destruct (step_pushes st line) as [r [Hr [Hc Ht]]].
    rewrite IH1, IH2, Hr, !map_app. cbn [map]. rewrite Hc, Ht, <- !app_assoc.
    split; reflexivity.
Qed.

(** The contents of the records are the lines of the diff. *)
Lemma parseDiff_contents (diff path : JS.str) (oldPath : option JS.str) :
  map content (diffLines (parseDiff diff path oldPath)) = JS.split_lines diff.
Proof.
  unfold parseDiff. cbn [diffLines].
  destruct (fold_step_pushes (JS.split_lines diff) init) as [H _]. exact H.
Qed.

(** X1: [parseDiff] drops nothing and adds nothing: the contents of its
    records are the lines of the diff, in order, and joined by newlines
    they give the diff back. *)
Theorem X1_parseDiff_keeps_every_line (diff path : JS.str) (oldPath : option JS.str) :
  map content (diffLines (parseDiff diff path oldPath)) = JS.split_lines diff
  ∧ JS.join_lines (map content (diffLines (parseDiff diff path oldPath))) = diff.
Proof.
  split; [apply parseDiff_contents|].
  rewrite parseDiff_contents. apply join_split.
Qed.

Lemma kindOf_added (line : JS.str) : kindOf line = added ↔ isAddedLine line = true.
Proof.
  unfold kindOf. destruct (isAddedLine line); [tauto|].
  destruct (isRemovedLine line); split; discriminate.
Qed.

Lemma count_added (recs : list DiffLine) (lines : list JS.str) :
  map type recs = map kindOf lines →
  length (filter (fun l => type l = added) recs)
  = length (filter (fun line => isAddedLine line = true) lines).
Proof.
  revert lines. induction recs as [|r recs IH]; intros [|line lines] H;
    try discriminate; [reflexivity|].
  cbn [map] in H. injection H as Hr H. rewrite !filter_cons.
  destruct (decide (type r = added)) as [E|E];
    destruct (decide (isAddedLine line = true)) as [E'|E'].
  - cbn [length]. rewrite (IH lines H). reflexivity.
  - exfalso. apply E', kindOf_added. congruence.
  - exfalso. apply E. rewrite Hr. apply kindOf_added, E'.
  - apply IH, H.
Qed.

(** X2: the type of a record depends on its line alone: [added] for a
    line that starts with [+] but not with [+++], [removed] for one that
    starts with [-] but not with [---], [context] for every other line.
    So [extractAddedLines] gives as many records as the diff has lines of
    the first kind. *)
Theorem X2_record_type_by_prefix (diff path : JS.str) (oldPath : option JS.str) :
  map type (diffLines (parseDiff diff path oldPath))
  = map kindOf (JS.split_lines diff)
  ∧ length (extractAddedLines (diffLines (parseDiff diff path oldPath)))
    = length (filter (fun line => isAddedLine line = true) (JS.split_lines diff)).
Proof.
  assert (H : map type (diffLines (parseDiff diff path oldPath))
              = map kindOf (JS.split_lines diff)).
  { unfold parseDiff. cbn [diffLines].
    destruct (fold_step_pushes (JS.split_lines diff) init) as [_ H]. exact H. }
  split; [exact H|]. apply count_added, H.
Qed.

End DiffRecords.

Section DiffNumbers.

Import DiffService.

Lemma omap_cons {A B} (f : A → option B) (x : A) (l : list A) :
  omap f (x :: l) = match f x with
                    | Some y => y :: omap f l
                    | None => omap f l
                    end.
Proof. reflexivity. Qed.

Lemma seqZ_snoc_head (m : Z) (k : nat) :
  m :: seqZ (m + 1) (Z.of_nat k) = seqZ m (Z.of_nat (S k)).
Proof.
  rewrite (seqZ_cons m (Z.of_nat (S k))) by lia.
  f_equal. f_equal; lia.
Qed.

(** A line that is not a hunk header takes the next new-file number when
    it is on the new side, the next old-file number when it is on the old
    side. *)
Lemma plainLine_numbers (st : State) (line : JS.str) :
  ∃ r, out (plainLine st line) = out st ++ [r]
       ∧ newLineNumber r
         = (if onNewSide line then Some (currentNewLine st) else None)
       ∧ oldLineNumber r
         = (if onOldSide line then Some (currentOldLine st) else None)
       ∧ currentNewLine (plainLine st line)
         = currentNewLine st + (if onNewSide line then 1 else 0)
       ∧ currentOldLine (plainLine st line)
         = currentOldLine st + (if onOldSide line then 1 else 0).
Proof.
  unfold plainLine, onNewSide, onOldSide, isAddedLine, isRemovedLine, isContextLine.
  destruct (JS.startsWith (JS.lit "+") line
            && negb (JS.startsWith (JS.lit "+++") line)).
  { eexists. split; [reflexivity|]. cbn. repeat split; lia. }
  destruct (JS.startsWith (JS.lit "-") line
            && negb (JS.startsWith (JS.lit "---") line)).
  { eexists. split; [reflexivity|]. cbn. repeat split; lia. }
  destruct (JS.startsWith (JS.lit " ") line || JS.eqb line []).
  { eexists. split; [reflexivity|]. cbn. repeat split; lia. }
  eexists. split; [reflexivity|]. cbn. repeat split; lia.
Qed.

Lemma body_numbers (body : list JS.str) (st : State) :
  Forall (fun line => JS.startsWith (JS.lit "@@") line = false) body →
  ∃ recs, out (fold_left step body st) = out st ++ recs
          ∧ omap newLineNumber recs
            = seqZ (currentNewLine st)
                   (Z.of_nat (length (filter (fun l => onNewSide l = true) body)))
          ∧ omap oldLineNumber recs
            = seqZ (currentOldLine st)
                   (Z.of_nat (length (filter (fun l => onOldSide l = true) body))).
Proof.
  intros Hbody. revert st. induction Hbody as [|line body Hline _ IH]; intros st.
  - exists []. rewrite app_nil_r. repeat split.
  - cbn [fold_left]. destruct (IH (step st line)) as [recs [Hout [Hnew Hold]]].
    assert (Hstep : step st line = plainLine st line)
      by (unfold step; rewrite Hline; reflexivity).
    rewrite Hstep in *.
    destruct (plainLine_numbers st line) as [r [Hr [Hn [Ho [Hcn Hco]]]]].
    exists (r :: recs). rewrite Hout, Hr, <- app_assoc.
    split; [reflexivity|]. rewrite !filter_cons, !omap_cons.
    rewrite Hn, Ho, Hnew, Hold, Hcn, Hco.
    split.
    + destruct (onNewSide line).
      * rewrite decide_True by reflexivity. apply seqZ_snoc_head.
      * rewrite decide_False by discriminate. rewrite Z.add_0_r. reflexivity.
    + destruct (onOldSide line).
      * rewrite decide_True by reflexivity. apply seqZ_snoc_head.
      * rewrite decide_False by discriminate. rewrite Z.add_0_r. reflexivity.
Qed.

(** X3: within a hunk the two line numbers are tracked side by side.
    For a diff that is one hunk (a matched header, then lines that do not
    start with [@@]) whose line numbers stay within
    [Number.MAX_SAFE_INTEGER], where the numbers of the code are exact
    integers, the new-file numbers of the records below the header are
    [newStart], [newStart + 1], ... over the added and context lines, and
    the old-file numbers are [oldStart], [oldStart + 1], ... over the
    removed and context lines; nothing is skipped or repeated. *)
Theorem X3_hunk_numbers_are_consecutive
        (diff path : JS.str) (oldPath : option JS.str)
        (header : JS.str) (body : list JS.str) (m : HunkMatch) :
  JS.split_lines diff = header :: body →
  JS.startsWith (JS.lit "@@") header = true →
  hunkMatch header = Some m →
  Forall (fun line => JS.startsWith (JS.lit "@@") line = false) body →
  JS.parseDigits (g3 m)
  + Z.of_nat (length (filter (fun l => onNewSide l = true) body))
  ≤ JS.MAX_SAFE_INTEGER →
  JS.parseDigits (g1 m)
  + Z.of_nat (length (filter (fun l => onOldSide l = true) body))
  ≤ JS.MAX_SAFE_INTEGER →
  let recs := drop 1 (diffLines (parseDiff diff path oldPath)) in
  omap newLineNumber recs
  = seqZ (JS.parseDigits (g3 m))
         (Z.of_nat (length (filter (fun l => onNewSide l = true) body)))
  ∧ omap oldLineNumber recs
    = seqZ (JS.parseDigits (g1 m))
           (Z.of_nat (length (filter (fun l => onOldSide l = true) body))).
Proof.
  intros Hsplit Hat Hm Hbody _ _ recs. subst recs.
  unfold parseDiff. cbn [diffLines]. rewrite Hsplit. cbn [fold_left].
  assert (Hstep : ∃ h st', step init header = st' ∧ out st' = [h]
                           ∧ currentNewLine st' = JS.parseDigits (g3 m)
                           ∧ currentOldLine st' = JS.parseDigits (g1 m)).
  { unfold step. rewrite Hat, Hm. eexists. eexists. repeat split. }
  destruct Hstep as [h [st' [-> [Hout [Hn Ho]]]]].
  destruct (body_numbers body st' Hbody) as [recs [Hrecs [Hnew Hold]]].
  rewrite Hrecs, Hout. change (drop 1 ([h] ++ recs)) with recs.
  rewrite Hnew, Hold, Hn, Ho.
  split; reflexivity.
Qed.

(** The theorem at the diff of the test: new-file numbers 1 to 4,
    old-file numbers 1 to 3. *)
Lemma X3_hunk_numbers_witness :
  omap newLineNumber (drop 1 test_parsed) = [1; 2; 3; 4]
  ∧ omap oldLineNumber (drop 1 test_parsed) = [1; 2; 3].
Proof.
  apply (X3_hunk_numbers_are_consecutive test_diff (JS.lit "test.ts") None
           (JS.lit "@@ -1,3 +1,4 @@")
           (map JS.lit [" line1"; "+new line"; " line2"; "-line3";
                        "+line3 updated"]%string)
           test_header).
  - vm_compute. reflexivity.
  - vm_compute. reflexivity.
  - vm_compute. reflexivity.
  - repeat constructor.
  - vm_compute. discriminate.
  - vm_compute. discriminate.
Defined.

End DiffNumbers.

Section DiffRendering.

Import DiffService.

Lemma bytes_of_uint_digits (d : Decimal.uint) :
  Forall (fun c => JS.isDigit c = true)
         (JS.bytes_of (NilEmpty.string_of_uint d)).
Proof.
  induction d; cbn; constructor; try reflexivity; assumption.
Qed.

(** A number is printed without newline. *)
Lemma ofZ_oneLine (n : Z) : JS.LF ∉ JS.ofZ n.
Proof.
  assert (Hd : ∀ d, JS.LF ∉ JS.bytes_of (NilEmpty.string_of_uint d)).
  { intros d H. pose proof (bytes_of_uint_digits d) as Hall.
    rewrite Forall_forall in Hall. specialize (Hall _ H). discriminate. }
  assert (Hz : ∀ d, JS.LF ∉ JS.bytes_of (NilZero.string_of_uint d)).
  { intros d. destruct d; try apply Hd.
    intros H. apply list_elem_of_singleton in H. discriminate. }
  unfold JS.ofZ. destruct (Z.to_int n) as [d|d]; cbn [NilZero.string_of_int].
  - apply Hz.
  - intros H. change (JS.LF ∈ 45%N :: JS.bytes_of (NilZero.string_of_uint d)) in H.
    apply elem_of_cons in H as [H|H]; [discriminate|]. exact (Hz d H).
Qed.

Lemma not_elem_of_lit_app (l r : JS.str) :
  JS.LF ∉ l → JS.LF ∉ r → JS.LF ∉ l ++ r.
Proof. intros Hl Hr H. apply elem_of_app in H as [H|H]; tauto. Qed.

Lemma getLineInfo_oneLine (d : DiffLine) : JS.LF ∉ getLineInfo d.
Proof.
  assert (Hlit : ∀ s, bool_decide (JS.LF ∈ JS.lit s) = false → JS.LF ∉ JS.lit s).
  { intros s H. apply bool_decide_eq_false in H. exact H. }
  unfold getLineInfo.
  destruct (type d), (truthyNumber (newLineNumber d)),
    (truthyNumber (oldLineNumber d));
    try apply not_elem_of_nil;
    repeat (apply not_elem_of_lit_app;
            [first [apply ofZ_oneLine | apply Hlit; reflexivity]|]);
    apply Hlit; reflexivity.
Qed.

Lemma rendered_oneLine (d : DiffLine) : JS.LF ∉ content d → JS.LF ∉ rendered d.
Proof.
  intros Hc. unfold rendered. apply not_elem_of_lit_app.
  - unfold getLinePrefix. destruct (type d); intros H;
      apply list_elem_of_singleton in H; discriminate.
  - apply not_elem_of_lit_app; [apply getLineInfo_oneLine|exact Hc].
Qed.

(** X4: the numbered diff has one line per line of the diff, and its
    i-th line is the i-th line of the diff behind the marker ([+], [-] or
    a space) and the line tag of its record. *)
Theorem X4_numbered_diff_line_by_line
        (diff path : JS.str) (oldPath : option JS.str) :
  let parsed := parseDiff diff path oldPath in
  lineCount (buildNumberedDiff parsed) = lineCount diff
  ∧ ∀ i line, JS.split_lines diff !! i = Some line →
      ∃ r, diffLines parsed !! i = Some r
           ∧ JS.split_lines (buildNumberedDiff parsed) !! i
             = Some (getLinePrefix r ++ getLineInfo r ++ line).
Proof.
  intros parsed.
  pose proof (parseDiff_contents diff path oldPath) as Hc.
  fold parsed in Hc.
  assert (Hsplit : JS.split_lines (buildNumberedDiff parsed)
                   = map rendered (diffLines parsed)).
  { unfold buildNumberedDiff. fold rendered.
    destruct (diffLines parsed) as [|r rs] eqn:E.
    - exfalso. cbn in Hc. symmetry in Hc. exact (split_lines_not_nil diff Hc).
    - change (map rendered (r :: rs)) with (rendered r :: map rendered rs).
      apply split_join.
      change (Forall (fun l : JS.str => JS.LF ∉ l) (map rendered (r :: rs))).
      pose proof (split_lines_oneLine diff) as Hone. rewrite <- Hc in Hone.
      clear -Hone. induction (r :: rs) as [|x xs IH]; [constructor|].
      cbn [map] in *. apply Forall_cons_1 in Hone as [Hx Hxs].
      constructor; [apply rendered_oneLine, Hx|apply IH, Hxs]. }
  split.
  - unfold lineCount. rewrite Hsplit, length_map, <- Hc, length_map. reflexivity.
  - intros i line Hi. rewrite <- Hc in Hi.
    change (map content (diffLines parsed)) with (content <$> diffLines parsed) in Hi.
    apply list_lookup_fmap_Some in Hi as [r [-> Hr]].
    exists r. split; [exact Hr|]. rewrite Hsplit.
    change (map rendered (diffLines parsed)) with (rendered <$> diffLines parsed).
    rewrite list_lookup_fmap, Hr. reflexivity.
Qed.

End DiffRendering.

Section DiffSnippet.

Import DiffService.



End DiffSnippet.

(** ** The token service *)

Section TokenCache.

Import TokenService.

Variable tk : Tiktoken.

Lemma getEncoder_caches (model : JS.str) (encoders : gmap JS.str (encoder tk))
      (e : encoder tk) (encoders' : gmap JS.str (encoder tk)) :
  getEncoder tk model encoders = Some (e, encoders') →
  encoders' !! model = Some e
  ∧ ∀ other, other ≠ model → encoders' !! other = encoders !! other.
Proof.
  unfold getEncoder. intros H.
  destruct (encoders !! model) as [e0|] eqn:E.
  - injection H as <- <-. split; [exact E|reflexivity].
  - destruct (encoding_for_model tk model) as [e1|].
    + injection H as <- <-. split; [apply lookup_insert_eq|].
      intros other Ho. apply lookup_insert_ne. congruence.
    + destruct (encoding_for_model tk (JS.lit "gpt-4")) as [e4|]; [|discriminate].
      injection H as <- <-. split; [apply lookup_insert_eq|].
      intros other Ho. apply lookup_insert_ne. congruence.
Qed.

(** X6: the encoder of a model is looked up once.  After a call of
    [countTokens] for a model, the encoder it used is cached under the
    name of the model, the entries of the other models are as before, and
    every later call for the model counts with the cached encoder and
    leaves the cache as it is. *)
Theorem X6_encoder_is_cached
        (text model : JS.str) (encoders encoders' : gmap JS.str (encoder tk))
        (count : Z) :
  countTokens tk text model encoders = Some (count, encoders') →
  ∃ e, encoders' !! model = Some e
       ∧ count = Z.of_nat (length (encode tk e text))
       ∧ (∀ other, other ≠ model → encoders' !! other = encoders !! other)
       ∧ ∀ text', countTokens tk text' model encoders'
                  = Some (Z.of_nat (length (encode tk e text')), encoders').
Proof.
  unfold countTokens. intros H.
  destruct (getEncoder tk model encoders) as [[e enc]|] eqn:E; [|discriminate].
  cbn in H. injection H as <- <-.
  destruct (getEncoder_caches _ _ _ _ E) as [Hm Ho].
  exists e. split; [exact Hm|]. split; [reflexivity|]. split; [exact Ho|].
  intros text'. unfold getEncoder. rewrite Hm. reflexivity.
Qed.

(** X7: a model the tokenizer does not know is counted like [gpt-4]:
    from an empty cache, both calls give the same count, or both throw. *)
Theorem X7_unknown_model_counts_as_gpt4 (text model : JS.str) :
  encoding_for_model tk model = None →
  fst <$> countTokens tk text model ∅
  = fst <$> countTokens tk text (JS.lit "gpt-4") ∅.
Proof.
  intros H. unfold countTokens, getEncoder. rewrite !lookup_empty, H.
  destruct (encoding_for_model tk (JS.lit "gpt-4")); reflexivity.
Qed.

End TokenCache.

(** The theorem with the tokenizer of the examples, for a model it does
    not know: ten tokens for ten code units, cached. *)
Lemma X6_encoder_is_cached_witness :
  ∃ e, (<[JS.lit "deepseek-chat" := tt]> ∅ : gmap JS.str unit)
       !! JS.lit "deepseek-chat" = Some e.
Proof.
  destruct (X6_encoder_is_cached toyTiktoken (JS.lit "const a = 1")
              (JS.lit "deepseek-chat") ∅ (<[JS.lit "deepseek-chat" := tt]> ∅) 11)
    as [e [He _]]; [reflexivity|].
  exists e. exact He.
Defined.

(** The theorem with the tokenizer of the examples. *)
Lemma X7_unknown_model_witness :
  fst <$> TokenService.countTokens toyTiktoken (JS.lit "const a = 1")
                                   (JS.lit "deepseek-chat") ∅
  = Some 11.
Proof.
  rewrite (X7_unknown_model_counts_as_gpt4 toyTiktoken); reflexivity.
Defined.

(** X8: the available tokens are the exact headroom of the budget: when
    they are positive, prompt, reserve and headroom add up to the ceiling;
    they are zero exactly when prompt and reserve reach the ceiling; a
    longer prompt never leaves more. *)
Theorem X8_available_tokens_are_the_headroom (config : AppConfig) (inputTokens : Z) :
  let available := TokenService.calculateAvailableTokens config inputTokens in
  (0 < available →
   inputTokens + token_reservedOutputTokens config + available
   = ai_maxTokens config)
  ∧ (available = 0 ↔
     ai_maxTokens config ≤ inputTokens + token_reservedOutputTokens config)
  ∧ ∀ more, inputTokens ≤ more →
            TokenService.calculateAvailableTokens config more ≤ available.
Proof.
  unfold TokenService.calculateAvailableTokens. cbn zeta.
  split; [lia|]. split; [lia|]. intros more H. lia.
Qed.

(** ** Extraction as a whole *)

(** X9: [extractCodeBlocks] never throws: whatever the parser, the Vue
    compiler or the traversal throw is caught, and the handler itself
    cannot throw. *)
Theorem X9_extraction_never_throws
        (env : Env) (dl : list DiffLine) (path : JS.str)
        (config : AppConfig) (w : World) :
  ∃ w' blocks, extractCodeBlocks env dl path config w = (w', Ok blocks).
Proof.
  unfold extractCodeBlocks.
  case_bool_decide; [do 2 eexists; reflexivity|].
  destruct (isSupportedLanguage (getFileExtension path));
    [|do 2 eexists; reflexivity].
  cbn [negb]. unfold tryCatch.
  match goal with |- context [match ?m w with _ => _ end] =>
    destruct (m w) as [w' [blocks|e]] end.
  - do 2 eexists. reflexivity.
  - unfold bind, logger, ret. destruct (development env); do 2 eexists; reflexivity.
Qed.

(** X10: for a diff without added line, and for a path whose extension
    is not [js], [jsx], [ts], [tsx] or [vue], extraction returns no block
    and does nothing else: no parser is called, no time passes, nothing is
    logged. *)
Theorem X10_nothing_to_extract
        (env : Env) (dl : list DiffLine) (path : JS.str)
        (config : AppConfig) (w : World) :
  DiffService.extractAddedLines dl = []
  ∨ isSupportedLanguage (getFileExtension path) = false →
  extractCodeBlocks env dl path config w = (w, Ok []).
Proof.
  intros [H|H]; unfold extractCodeBlocks.
  - unfold DiffService.extractAddedLines in H. rewrite H.
    rewrite bool_decide_eq_true_2 by reflexivity. reflexivity.
  - case_bool_decide; [reflexivity|]. rewrite H. reflexivity.
Qed.

(** The theorem at a Python file, which the configuration lets through
    by default, and at a diff that only removes a line. *)
Lemma X10_nothing_to_extract_witness :
  extractCodeBlocks parserFailingLoudly test_parsed (JS.lit "tool.py")
                    defaults emptyWorld = (emptyWorld, Ok [])
  ∧ extractCodeBlocks parserFailingLoudly
      (diffLines (DiffService.parseDiff (JS.lit "-gone") (JS.lit "a.ts") None))
      (JS.lit "a.ts") defaults emptyWorld = (emptyWorld, Ok []).
Proof.
  split; apply X10_nothing_to_extract; [right|left]; vm_compute; reflexivity.
Defined.

Lemma filter_id {A} (P : A → Prop) `{∀ x, Decision (P x)} (l : list A) :
  Forall P l → filter P l = l.
Proof.
  induction 1 as [|x l Hx _ IH]; [reflexivity|].
  rewrite filter_cons, decide_True by exact Hx. rewrite IH. reflexivity.
Qed.

(** X11: [parseCodeWithTimeout] leaves no timer behind: when the timers
    of the world are those of earlier calls, they are the same after the
    call, whether the parse returned a tree or failed. *)
Theorem X11_no_timer_is_left
        (env : Env) (code extension : JS.str) (config : AppConfig) (w : World) :
  Forall (fun t => (timerId t < nextTimer w)%nat) (timers w) →
  ∃ w' r, parseCodeWithTimeout env code extension config w = (w', Ok r)
          ∧ timers w' = timers w
          ∧ nextTimer w' = S (nextTimer w).
Proof.
  intros Hw. unfold parseCodeWithTimeout. rewrite withTimeout_outcome.
  match goal with |- context [withTimer _ ?m w] => generalize m; intros msg end.
  destruct (parseCode_returns env code extension
              (withTimer (ast_timeoutMs config) msg w)) as [w1 [r [-> [Ht Hn]]]].
  exists (cleared (nextTimer w) w1), r. split; [reflexivity|].
  unfold cleared, clearTimeout. cbn [fst timers nextTimer].
  rewrite Ht, Hn. unfold withTimer, setTimeout. cbn [fst timers nextTimer].
  split; [|reflexivity].
  rewrite filter_app, filter_cons, filter_nil.
  rewrite decide_False by (cbn [timerId]; intros H; apply H; reflexivity).
  rewrite app_nil_r. apply filter_id.
  eapply Forall_impl; [exact Hw|]. cbn beta. intros t H. lia.
Qed.

(** The theorem in a world where another caller has a timer running. *)
Lemma X11_no_timer_is_left_witness :
  ∃ w', parseCodeWithTimeout parserFailing (JS.lit "}") (JS.lit "ts")
                             defaults busyWorld = (w', Ok None)
        ∧ timers w' = timers busyWorld.
Proof.
  destruct (X11_no_timer_is_left parserFailing (JS.lit "}") (JS.lit "ts")
                                 defaults busyWorld)
    as [w' [r [H [Ht _]]]]; [repeat constructor|].
  exists w'. split; [|exact Ht].
  rewrite H. f_equal. vm_compute in H. injection H as _ <-. reflexivity.
Defined.

(** ** The blocks of a parsed file *)

Section Selection.

Variable numbers : list Z.

Lemma covered_fold (ls : list Z) (c : gset Z) (n : Z) :
  n ∈ fold_left (fun covered line => {[line]} ∪ covered) ls c ↔ n ∈ ls ∨ n ∈ c.
Proof.
  revert c. induction ls as [|l ls IH]; intros c; cbn [fold_left].
  - rewrite elem_of_nil. tauto.
  - rewrite IH, elem_of_cons, elem_of_union, elem_of_singleton. tauto.
Qed.

Lemma no_new_line (c : gset Z) (ls : list Z) :
  existsb (fun line => negb (bool_decide (line ∈ c))) ls = false
  ↔ ∀ n, n ∈ ls → n ∈ c.
Proof.
  induction ls as [|l ls IH]; cbn [existsb].
  - split; [intros _ n H; inversion H|reflexivity].
  - rewrite orb_false_iff, IH, negb_false_iff, bool_decide_eq_true. split.
    + intros [H1 H2] n Hn. apply elem_of_cons in Hn as [->|Hn]; auto.
    + intros H. split; [apply H; left|intros n Hn; apply H; right; exact Hn].
Qed.

Lemma new_line (c : gset Z) (ls : list Z) :
  existsb (fun line => negb (bool_decide (line ∈ c))) ls = true →
  ∃ n, n ∈ ls ∧ n ∉ c.
Proof.
  intros H. apply existsb_exists in H as [n [Hin Hn]]. exists n.
  split; [apply list_elem_of_In; exact Hin|].
  apply negb_true_iff, bool_decide_eq_false in Hn. exact Hn.
Qed.

(** A section within a selected section has no line that is not
    covered. *)
Lemma contained_no_new_line (sel : Selection) (s : Sect) :
  collectedFrom numbers s → coveredBySelected numbers sel →
  existsb (fun selectedSection =>
             (start selectedSection <=? start s)
             && (end_ s <=? end_ selectedSection)
             && negb (Nat.eqb (oid selectedSection) (oid s)))
          (selected sel) = true →
  existsb (fun line => negb (bool_decide (line ∈ coveredLines sel)))
          (addedLines s) = false.
Proof.
  intros [Hs _] [Hwf Hcov] H. apply no_new_line. intros n Hn.
  apply existsb_exists in H as [t [Ht Hin]].
  apply list_elem_of_In in Ht.
  apply andb_true_iff in Hin as [Hin _]. apply andb_true_iff in Hin as [H1 H2].
  apply Hcov. exists t. split; [exact Ht|].
  rewrite Forall_forall in Hwf. destruct (Hwf t Ht) as [Et _].
  rewrite Et. rewrite Hs in Hn. unfold containsAddedLines in *.
  apply list_elem_of_filter in Hn as [Hr Hn].
  apply list_elem_of_filter. split; [lia|exact Hn].
Qed.

Lemma selectStep_by_new_lines (sel : Selection) (s : Sect) :
  collectedFrom numbers s → coveredBySelected numbers sel →
  selectStep sel s = selectByNewLines sel s.
Proof.
  intros Hs Hsel. unfold selectStep, selectByNewLines.
  destruct (existsb _ (addedLines s)) eqn:E; [|reflexivity].
  destruct (existsb _ (selected sel)) eqn:E'; [|reflexivity].
  rewrite (contained_no_new_line sel s Hs Hsel E') in E. discriminate.
Qed.

Lemma selectByNewLines_covered (sel : Selection) (s : Sect) :
  collectedFrom numbers s → coveredBySelected numbers sel →
  coveredBySelected numbers (selectByNewLines sel s)
  ∧ (∀ n, n ∈ coveredLines sel → n ∈ coveredLines (selectByNewLines sel s))
  ∧ (∀ n, n ∈ addedLines s → n ∈ coveredLines (selectByNewLines sel s)).
Proof.
  intros Hs [Hwf Hcov]. unfold selectByNewLines.
  destruct (existsb _ (addedLines s)) eqn:E.
  - unfold coveredBySelected. cbn [selected coveredLines].
    split; [split|split].
    + apply Forall_app. split; [exact Hwf|].
      constructor; [exact Hs|constructor].
    + intros n. rewrite covered_fold, Hcov. split.
      * intros [H|[t [Ht Hn]]].
        -- exists s. split; [apply elem_of_app; right; left|exact H].
        -- exists t. split; [apply elem_of_app; left; exact Ht|exact Hn].
      * intros [t [Ht Hn]]. apply elem_of_app in Ht as [Ht|Ht].
        -- right. exists t. split; assumption.
        -- apply list_elem_of_singleton in Ht. subst t. left. exact Hn.
    + intros n Hn. apply covered_fold. right. exact Hn.
    + intros n Hn. apply covered_fold. left. exact Hn.
  - split; [split; assumption|]. split; [tauto|].
    apply no_new_line. exact E.
Qed.

(** On collected sections the containment test of [selectStep] never
    rejects a section. *)
Lemma fold_selectStep_by_new_lines (rest : list Sect) (sel : Selection) :
  Forall (collectedFrom numbers) rest → coveredBySelected numbers sel →
  fold_left selectStep rest sel = fold_left selectByNewLines rest sel
  ∧ coveredBySelected numbers (fold_left selectByNewLines rest sel).
Proof.
  revert sel. induction rest as [|s rest IH]; intros sel Hrest Hsel.
  - split; [reflexivity|exact Hsel].
  - apply Forall_cons_1 in Hrest as [Hs Hrest]. cbn [fold_left].
    rewrite (selectStep_by_new_lines sel s Hs Hsel).
    apply IH; [exact Hrest|]. apply selectByNewLines_covered; assumption.
Qed.

Lemma fold_covers (rest : list Sect) (sel : Selection) :
  Forall (collectedFrom numbers) rest → coveredBySelected numbers sel →
  (∀ n, n ∈ coveredLines sel
        → n ∈ coveredLines (fold_left selectByNewLines rest sel))
  ∧ (∀ s n, s ∈ rest → n ∈ addedLines s
            → n ∈ coveredLines (fold_left selectByNewLines rest sel)).
Proof.
  revert sel. induction rest as [|s rest IH]; intros sel Hrest Hsel.
  - split; [tauto|]. intros s n H. inversion H.
  - apply Forall_cons_1 in Hrest as [Hs Hrest]. cbn [fold_left].
    destruct (selectByNewLines_covered sel s Hs Hsel) as [Hsel' [Hmono Hnew]].
    destruct (IH _ Hrest Hsel') as [IH1 IH2]. split.
    + intros n Hn. apply IH1, Hmono, Hn.
    + intros t n Ht Hn. apply elem_of_cons in Ht as [->|Ht].
      * apply IH1, Hnew, Hn.
      * exact (IH2 t n Ht Hn).
Qed.

Lemma fold_sublist (rest : list Sect) (sel : Selection) :
  ∃ more, selected (fold_left selectByNewLines rest sel) = selected sel ++ more
          ∧ more `sublist_of` rest.
Proof.
  revert sel. induction rest as [|s rest IH]; intros sel.
  - exists []. split; [rewrite app_nil_r; reflexivity|constructor].
  - cbn [fold_left]. destruct (IH (selectByNewLines sel s)) as [more [E Hsub]].
    rewrite E. unfold selectByNewLines.
    destruct (existsb _ (addedLines s)).
    + cbn [selected]. exists (s :: more).
      split; [rewrite <- app_assoc; reflexivity|].
      constructor. exact Hsub.
    + exists more. split; [reflexivity|]. constructor. exact Hsub.
Qed.

Lemma ownLine_snoc (sel : Selection) (s : Sect) :
  coveredBySelected numbers sel → ownLine (selected sel) →
  ownLine (selected (selectByNewLines sel s)).
Proof.
  intros [_ Hcov] Hown. unfold selectByNewLines.
  destruct (existsb _ (addedLines s)) eqn:E; [|exact Hown].
  cbn [selected]. apply new_line in E as [n [Hn Hfresh]].
  intros j b Hb. apply lookup_snoc_Some in Hb as [[Hj Hb]|[Hj <-]].
  - destruct (Hown j b Hb) as [m [Hm Hearlier]]. exists m. split; [exact Hm|].
    intros i a Hi Ha. apply lookup_snoc_Some in Ha as [[_ Ha]|[Hi' _]]; [|lia].
    exact (Hearlier i a Hi Ha).
  - exists n. split; [exact Hn|]. intros i a Hi Ha Hin.
    apply lookup_snoc_Some in Ha as [[_ Ha]|[Hi' _]]; [|lia].
    apply Hfresh, Hcov. exists a. split; [|exact Hin].
    eapply list_elem_of_lookup_2. exact Ha.
Qed.

Lemma fold_ownLine (rest : list Sect) (sel : Selection) :
  Forall (collectedFrom numbers) rest → coveredBySelected numbers sel →
  ownLine (selected sel) →
  ownLine (selected (fold_left selectByNewLines rest sel)).
Proof.
  revert sel. induction rest as [|s rest IH]; intros sel Hrest Hsel Hown;
    [exact Hown|].
  apply Forall_cons_1 in Hrest as [Hs Hrest]. cbn [fold_left].
  apply IH; [exact Hrest| |apply ownLine_snoc; assumption].
  apply selectByNewLines_covered; assumption.
Qed.

Lemma pushSection_collectedFrom (es : list (Z * option NodeData * NodeData))
                                (secs : list Sect) :
  Forall (collectedFrom numbers) secs →
  Forall (collectedFrom numbers) (fold_left (pushSection numbers) es secs).
Proof.
  revert secs. induction es as [|e es IH]; intros secs H; [exact H|].
  cbn [fold_left]. apply IH. destruct e as [[depth parent] node].
  unfold pushSection. destruct (isTargetNode node); [|exact H].
  destruct (loc node) as [[s e]|]; [|exact H].
  destruct (containsAddedLines numbers s e) as [|z l] eqn:E; [exact H|].
  apply Forall_app. split; [exact H|]. constructor; [|constructor].
  split; cbn [addedLines start end_]; [rewrite E; reflexivity|discriminate].
Qed.

Lemma pushSection_section (es : list (Z * option NodeData * NodeData))
      (secs : list Sect) (depth : Z) (parent : option NodeData)
      (node : NodeData) (s e n : Z) :
  (depth, parent, node) ∈ es → isTargetNode node = true →
  loc node = Some (s, e) → n ∈ numbers → s ≤ n → n ≤ e →
  ∃ sec, sec ∈ fold_left (pushSection numbers) es secs
         ∧ n ∈ addedLines sec ∧ start sec = s ∧ end_ sec = e.
Proof.
  intros Hin Ht Hloc Hn Hs He.
  apply list_elem_of_split in Hin as [l1 [l2 ->]].
  rewrite fold_left_app. cbn [fold_left].
  set (secs1 := fold_left (pushSection numbers) l1 secs).
  assert (Hc : n ∈ containsAddedLines numbers s e).
  { apply list_elem_of_filter. split; [lia|exact Hn]. }
  destruct (pushSection_prefix numbers l2
              (pushSection numbers secs1 (depth, parent, node))) as [k Hk].
  rewrite Hk. unfold pushSection. rewrite Ht, Hloc.
  destruct (containsAddedLines numbers s e) as [|z l] eqn:E;
    [inversion Hc|].
  eexists. split; [apply elem_of_app; left; apply elem_of_app; right; left|].
  cbn [addedLines start end_]. auto.
Qed.

End Selection.

Lemma insertBySize_sorted (s : Sect) (l : list Sect) :
  StronglySorted (fun a b => size a ≤ size b) l →
  StronglySorted (fun a b => size a ≤ size b) (insertBySize s l).
Proof.
  induction l as [|x l IH]; intros H; cbn [insertBySize].
  - constructor; [constructor|constructor].
  - apply StronglySorted_inv in H as [Hl Hx].
    destruct (Z.leb_spec (size s - size x) 0) as [Hle|Hgt].
    + constructor; [constructor; assumption|].
      constructor; [lia|]. eapply Forall_impl; [exact Hx|].
      cbn beta. intros a Ha. lia.
    + constructor; [apply IH, Hl|].
      rewrite insertBySize_perm. constructor; [lia|exact Hx].
Qed.

Lemma sortBySize_sorted (l : list Sect) :
  StronglySorted (fun a b => size a ≤ size b) (sortBySize l).
Proof.
  induction l as [|x l IH]; [constructor|].
  unfold sortBySize in *. cbn [foldr]. apply insertBySize_sorted, IH.
Qed.

Lemma StronglySorted_sublist {A} (R : A → A → Prop) (l k : list A) :
  l `sublist_of` k → StronglySorted R k → StronglySorted R l.
Proof.
  induction 1 as [|x l k Hsub IH|x l k Hsub IH]; intros H.
  - constructor.
  - apply StronglySorted_inv in H as [Hk Hx].
    constructor; [apply IH, Hk|].
    apply Forall_forall. intros y Hy. rewrite Forall_forall in Hx.
    apply Hx. eapply elem_of_sublist; eassumption.
  - apply StronglySorted_inv in H as [Hk _]. apply IH, Hk.
Qed.

Lemma elem_of_fold_setAdd (xs acc : list Z) (n : Z) :
  n ∈ fold_left setAdd xs acc ↔ n ∈ acc ∨ n ∈ xs.
Proof.
  revert acc. induction xs as [|x xs IH]; intros acc; cbn [fold_left].
  - rewrite elem_of_nil. tauto.
  - rewrite IH, elem_of_cons. unfold setAdd. case_bool_decide as Hx.
    + split; [tauto|]. intros [H|[->|H]]; tauto.
    + rewrite elem_of_app, list_elem_of_singleton. tauto.
Qed.

(** The numbers the extraction works with are the changed lines. *)
Lemma changed_numbers (addedLines : list DiffLine) (n : Z) :
  n ∈ newSet (truthyLineNumbers addedLines) ↔ changed addedLines n.
Proof.
  unfold newSet, truthyLineNumbers, changed.
  rewrite elem_of_fold_setAdd, elem_of_nil, list_elem_of_omap.
  split.
  - intros [[]|[l [Hl H]]]. exists l. split; [exact Hl|].
    destruct (newLineNumber l) as [m|]; [|discriminate].
    destruct (Z.eqb_spec m 0); [discriminate|]. split; congruence.
  - intros [l [Hl [H Hn]]]. right. exists l. split; [exact Hl|].
    rewrite H. destruct (Z.eqb_spec n 0); [contradiction|reflexivity].
Qed.

(** When the scopes of the tree build, [collectImpactedSections] does
    not throw: the only error of the visit is the one of the depth
    limiter, which it catches. *)
Lemma collect_returns (env : Env) (ast : Ast) (fullCode : JS.str)
                      (numbers : list Z) (config : AppConfig) (w : World) :
  babel_scopes env ast = None →
  ∃ w', collectImpactedSections env ast fullCode numbers config w
        = (w', Ok (collected numbers
                     (withinDepth (ast_maxDepth config) (enteredBelow ast)))).
Proof.
  intros Hscopes. unfold collectImpactedSections.
  rewrite traverse_replay by exact Hscopes.
  pose proof (replay_sections (ast_maxDepth config) numbers
                              (enteredBelow ast) []) as Hk.
  destruct (replay _ _ _ _) as [secs [d|]]; cbn [fst] in Hk; subst secs;
    unfold afterReplay.
  - rewrite depthMessage_recognised. eexists. reflexivity.
  - eexists. reflexivity.
Qed.

Lemma limitSectionSize_block (s : Sect) (fullCode : JS.str) (config : AppConfig) :
  ∃ b, limitSectionSize s fullCode config = Some b ∧ blockOfSection s b.
Proof.
  unfold limitSectionSize, blockOfSection. cbn zeta.
  destruct (_ <? _); [eexists; split; [reflexivity|]; cbn; auto|].
  destruct (_ <? _); eexists; (split; [reflexivity|]); cbn; auto.
Qed.

Lemma blocks_of_sections (fullCode : JS.str) (config : AppConfig)
                         (l : list Sect) :
  Forall2 blockOfSection l
          (omap (fun s => limitSectionSize s fullCode config) l).
Proof.
  induction l as [|s l IH]; [constructor|].
  cbn [omap list_omap].
  destruct (limitSectionSize_block s fullCode config) as [b [-> Hb]].
  constructor; assumption.
Qed.

(** When the scopes of the tree do not build, [collectImpactedSections]
    rethrows the error of [traverse], unless its message names the depth
    ceiling. *)
Lemma collect_throws (env : Env) (ast : Ast) (fullCode : JS.str)
                     (numbers : list Z) (config : AppConfig) (w : World)
                     (e : JS.str) :
  babel_scopes env ast = Some e →
  JS.includes (JS.lit "深度超限") e = false →
  collectImpactedSections env ast fullCode numbers config w = (w, Throw e).
Proof.
  intros Hscopes Hmessage. unfold collectImpactedSections, traverse.
  rewrite Hscopes, Hmessage, andb_false_r. reflexivity.
Qed.

(** What [extractMinimalBlocks] returns when the scopes of the tree
    build, and that it returns. *)
Lemma extractMinimalBlocks_returns
      (env : Env) (ast : Ast) (addedLines : list DiffLine) (fullCode : JS.str)
      (config : AppConfig) (w : World) :
  babel_scopes env ast = None →
  let numbers := newSet (truthyLineNumbers addedLines) in
  let kept := collected numbers
                (withinDepth (ast_maxDepth config) (enteredBelow ast)) in
  ∃ w', extractMinimalBlocks env ast addedLines fullCode config w
        = (w', Ok (omap (fun s => limitSectionSize s fullCode config)
                        (selectSmallestSections kept numbers))).
Proof.
  intros Hscopes numbers kept. unfold extractMinimalBlocks. fold numbers.
  unfold bind.
  destruct (collect_returns env ast fullCode numbers config w Hscopes)
    as [w' ->].
  exists w'. reflexivity.
Qed.

(** When the scopes of the tree do not build, [extractMinimalBlocks]
    throws the error of [traverse]; when the message of that error names
    the depth ceiling, it returns no block. *)
Lemma extractMinimalBlocks_scope_error
      (env : Env) (ast : Ast) (addedLines : list DiffLine) (fullCode : JS.str)
      (config : AppConfig) (w : World) (e : JS.str) :
  babel_scopes env ast = Some e →
  (JS.includes (JS.lit "深度超限") e = false
   ∧ extractMinimalBlocks env ast addedLines fullCode config w = (w, Throw e))
  ∨ ∃ w', extractMinimalBlocks env ast addedLines fullCode config w
          = (w', Ok []).
Proof.
  intros Hscopes. unfold extractMinimalBlocks, bind.
  destruct (JS.includes (JS.lit "深度超限") e) eqn:Hmessage.
  - right. unfold collectImpactedSections, traverse. rewrite Hscopes, Hmessage.
    unfold JS.eqb. case_bool_decide as He.
    + subst e. vm_compute in Hmessage. discriminate.
    + eexists. reflexivity.
  - left. split; [reflexivity|].
    rewrite (collect_throws env ast fullCode _ config w e Hscopes Hmessage).
    reflexivity.
Qed.

(** The selection among collected sections. *)
Lemma selection_of_collected
      (numbers : list Z) (es : list (Z * option NodeData * NodeData)) :
  let secs := collected numbers es in
  let sel := fold_left selectByNewLines (sortBySize secs) (mkSelection [] ∅) in
  selectSmallestSections secs numbers = selected sel
  ∧ coveredBySelected numbers sel
  ∧ (∀ s n, s ∈ secs → n ∈ addedLines s → n ∈ coveredLines sel)
  ∧ selected sel `sublist_of` sortBySize secs
  ∧ ownLine (selected sel).
Proof.
  intros secs sel.
  assert (Hwf : Forall (collectedFrom numbers) (sortBySize secs)).
  { rewrite sortBySize_perm. apply pushSection_collectedFrom. constructor. }
  assert (H0 : coveredBySelected numbers (mkSelection [] ∅)).
  { split; [constructor|]. intros n. cbn [coveredLines selected]. split.
    - intros H. apply elem_of_empty in H as [].
    - intros [t [Ht _]]. inversion Ht. }
  destruct (fold_selectStep_by_new_lines numbers _ _ Hwf H0) as [E Hcov].
  fold sel in E, Hcov. split; [|split; [exact Hcov|split; [|split]]].
  - unfold selectSmallestSections. case_bool_decide as Hlen; [|rewrite E; reflexivity].
    apply length_zero_iff_nil in Hlen. unfold sel. rewrite Hlen. reflexivity.
  - intros s n Hs Hn.
    apply (proj2 (fold_covers numbers _ _ Hwf H0) s n); [|exact Hn].
    rewrite sortBySize_perm. exact Hs.
  - destruct (fold_sublist (sortBySize secs) (mkSelection [] ∅)) as [more [Em Hsub]].
    fold sel in Em. rewrite Em. exact Hsub.
  - apply fold_ownLine with (numbers := numbers); [exact Hwf|exact H0|].
    intros j b Hb. inversion Hb.
Qed.

Lemma Forall2_StronglySorted {A B} (P : A → B → Prop)
      (R : A → A → Prop) (R' : B → B → Prop) (l : list A) (k : list B) :
  (∀ a b a' b', P a a' → P b b' → R a b → R' a' b') →
  Forall2 P l k → StronglySorted R l → StronglySorted R' k.
Proof.
  intros HR H. induction H as [|a a' l k Ha Hlk IH]; intros Hs; [constructor|].
  apply StronglySorted_inv in Hs as [Hl Hall].
  constructor; [apply IH, Hl|].
  apply Forall_forall. intros b' Hb'.
  apply list_elem_of_lookup in Hb' as [i Hi].
  destruct (Forall2_lookup_r _ _ _ _ _ Hlk Hi) as [b [Hb Hbb]].
  rewrite Forall_forall in Hall.
  apply (HR a b a' b' Ha Hbb), Hall. eapply list_elem_of_lookup_2. exact Hb.
Qed.

(** The lines of a collected section are the changed lines of its
    range. *)
Lemma collectedFrom_line (numbers : list Z) (s : Sect) (n : Z) :
  collectedFrom numbers s →
  n ∈ addedLines s ↔ (start s ≤ n ∧ n ≤ end_ s) ∧ n ∈ numbers.
Proof.
  intros [E _]. rewrite E. unfold containsAddedLines.
  rewrite list_elem_of_filter. reflexivity.
Qed.

(** X12: when the scopes of the tree build, so that [traverse] visits
    it, [extractMinimalBlocks] returns, and every changed line that lies
    in a function, a class or a method the traversal has entered lies in
    one of the blocks it returns. *)
Theorem X12_changed_lines_are_covered
        (env : Env) (ast : Ast) (addedLines : list DiffLine)
        (fullCode : JS.str) (config : AppConfig) (w : World) :
  babel_scopes env ast = None →
  ∃ w' blocks,
    extractMinimalBlocks env ast addedLines fullCode config w = (w', Ok blocks)
    ∧ ∀ d n, d ∈ reachedTargets (ast_maxDepth config) ast →
             spansLine d n → changed addedLines n →
             ∃ b, b ∈ blocks ∧ covers b n.
Proof.
  intros Hscopes.
  destruct (extractMinimalBlocks_returns env ast addedLines fullCode config w
              Hscopes) as [w' E]. cbv zeta in E.
  set (numbers := newSet (truthyLineNumbers addedLines)) in *.
  set (es := withinDepth (ast_maxDepth config) (enteredBelow ast)) in *.
  exists w'. eexists. split; [exact E|].
  intros d n Hd [s [e [Hloc [Hs He]]]] Hn.
  apply changed_numbers in Hn. fold numbers in Hn.
  unfold reachedTargets in Hd. fold es in Hd.
  apply list_elem_of_filter in Hd as [Ht Hd].
  apply list_elem_of_fmap in Hd as [[[depth parent] node] [-> Hin]].
  cbn [snd] in Ht, Hloc.
  destruct (pushSection_section numbers es [] depth parent node s e n
              Hin Ht Hloc Hn Hs He) as [sec [Hsec [Hnsec _]]].
  destruct (selection_of_collected numbers es) as [Esel [[Hwf Hcov] [Hall _]]].
  specialize (Hall sec n Hsec Hnsec). apply Hcov in Hall as [t [Ht' Hnt]].
  rewrite Esel.
  pose proof (blocks_of_sections fullCode config
    (selected (fold_left selectByNewLines (sortBySize (collected numbers es))
                         (mkSelection [] ∅)))) as HF.
  rewrite Forall_forall in Hwf. pose proof (Hwf t Ht') as Hwt.
  apply list_elem_of_lookup in Ht' as [i Hi].
  destruct (Forall2_lookup_l _ _ _ i t HF Hi) as [b [Hb [Hbs [Hbe _]]]].
  exists b. split; [eapply list_elem_of_lookup_2; exact Hb|].
  unfold covers. rewrite Hbs, Hbe.
  apply (collectedFrom_line numbers t n Hwt) in Hnt. tauto.
Qed.

(** The theorem at [nested_ast] and the changed lines 2 and 4 of
    [nested_diff]. *)
Lemma X12_changed_lines_witness :
  ∃ w' blocks,
    extractMinimalBlocks (parserGiving nested_ast 0) nested_ast
                         (DiffService.extractAddedLines nested_parsed)
                         (JS.lit "function outer() {
  const a = 1;
  const f = () => {
    return a;
  };
  return f;
}") defaults emptyWorld
    = (w', Ok blocks)
    ∧ ∀ d n, d ∈ reachedTargets (ast_maxDepth defaults) nested_ast →
             spansLine d n →
             changed (DiffService.extractAddedLines nested_parsed) n →
             ∃ b, b ∈ blocks ∧ covers b n.
Proof. apply X12_changed_lines_are_covered. reflexivity. Defined.

(** X13: when the scopes of the tree build, the blocks
    [extractMinimalBlocks] returns are in ascending order of their number
    of lines, and each of them spans a changed line that none of the
    blocks before it spans. *)
Theorem X13_each_block_has_its_own_line
        (env : Env) (ast : Ast) (addedLines : list DiffLine)
        (fullCode : JS.str) (config : AppConfig) (w : World) :
  babel_scopes env ast = None →
  ∃ w' blocks,
    extractMinimalBlocks env ast addedLines fullCode config w = (w', Ok blocks)
    ∧ StronglySorted (fun a b => span a ≤ span b) blocks
    ∧ ∀ j b, blocks !! j = Some b →
             ∃ n, changed addedLines n ∧ covers b n
                  ∧ ∀ i a, (i < j)%nat → blocks !! i = Some a → ¬ covers a n.
Proof.
  intros Hscopes.
  destruct (extractMinimalBlocks_returns env ast addedLines fullCode config w
              Hscopes) as [w' E]. cbv zeta in E.
  set (numbers := newSet (truthyLineNumbers addedLines)) in *.
  set (es := withinDepth (ast_maxDepth config) (enteredBelow ast)) in *.
  exists w'. eexists. split; [exact E|].
  destruct (selection_of_collected numbers es)
    as [Esel [[Hwf _] [_ [Hsub Hown]]]].
  rewrite Esel.
  set (sel := selected (fold_left selectByNewLines
                          (sortBySize (collected numbers es))
                          (mkSelection [] ∅))) in *.
  pose proof (blocks_of_sections fullCode config sel) as HF.
  rewrite Forall_forall in Hwf. split.
  - apply (Forall2_StronglySorted blockOfSection
             (fun a b => size a ≤ size b) _ sel); [|exact HF|].
    + intros a b a' b' [Ha1 [Ha2 _]] [Hb1 [Hb2 _]]. unfold span, size. lia.
    + eapply StronglySorted_sublist; [exact Hsub|apply sortBySize_sorted].
  - intros j b Hb.
    destruct (Forall2_lookup_r _ _ _ _ _ HF Hb) as [t [Ht [Hbs [Hbe _]]]].
    destruct (Hown j t Ht) as [n [Hn Hearlier]]. exists n.
    assert (Hwt : collectedFrom numbers t).
    { apply Hwf. eapply list_elem_of_lookup_2. exact Ht. }
    apply (collectedFrom_line numbers t n Hwt) in Hn as [Hr Hn].
    split; [apply changed_numbers; exact Hn|].
    split; [unfold covers; rewrite Hbs, Hbe; exact Hr|].
    intros i a Hi Ha [Hc1 Hc2].
    destruct (Forall2_lookup_r _ _ _ _ _ HF Ha) as [ta [Hta [Has [Hae _]]]].
    apply (Hearlier i ta Hi Hta).
    assert (Hwa : collectedFrom numbers ta).
    { apply Hwf. eapply list_elem_of_lookup_2. exact Hta. }
    apply (collectedFrom_line numbers ta n Hwa).
    split; [lia|exact Hn].
Qed.

(** The theorem at [nested_ast] and the changed lines 2 and 4 of
    [nested_diff]. *)
Lemma X13_each_block_witness :
  ∃ w' blocks,
    extractMinimalBlocks (parserGiving nested_ast 0) nested_ast
                         (DiffService.extractAddedLines nested_parsed)
                         (JS.lit "function outer() {
  const a = 1;
  const f = () => {
    return a;
  };
  return f;
}") defaults emptyWorld
    = (w', Ok blocks)
    ∧ StronglySorted (fun a b => span a ≤ span b) blocks
    ∧ ∀ j b, blocks !! j = Some b →
             ∃ n, changed (DiffService.extractAddedLines nested_parsed) n
                  ∧ covers b n
                  ∧ ∀ i a, (i < j)%nat → blocks !! i = Some a → ¬ covers a n.
Proof. apply X13_each_block_has_its_own_line. reflexivity. Defined.

(** X14: when the scopes of the tree build, [collectImpactedSections]
    returns the sections of the nodes entered within the depth ceiling,
    and on these sections the containment test of
    [selectSmallestSections] never rejects a section: a section that lies
    within a selected section has no line that is not yet covered, so the
    selection is the one the test for new lines alone gives. *)
Theorem X14_containment_test_never_rejects
        (env : Env) (ast : Ast) (fullCode : JS.str) (numbers : list Z)
        (config : AppConfig) (w : World) :
  babel_scopes env ast = None →
  let kept := collected numbers
                (withinDepth (ast_maxDepth config) (enteredBelow ast)) in
  ∃ w', collectImpactedSections env ast fullCode numbers config w
        = (w', Ok kept)
        ∧ selectSmallestSections kept numbers
          = selected (fold_left selectByNewLines (sortBySize kept)
                                (mkSelection [] ∅)).
Proof.
  intros Hscopes kept.
  destruct (collect_returns env ast fullCode numbers config w Hscopes)
    as [w' E].
  exists w'. split; [exact E|].
  apply selection_of_collected.
Qed.

(** The theorem at [nested_ast] and the changed lines 2 and 4. *)
Lemma X14_containment_test_witness :
  let kept := collected [2; 4]
                (withinDepth (ast_maxDepth defaults) (enteredBelow nested_ast)) in
  ∃ w', collectImpactedSections (parserGiving nested_ast 0) nested_ast
                                (JS.lit "function outer() {
  const a = 1;
  const f = () => {
    return a;
  };
  return f;
}") [2; 4] defaults emptyWorld
        = (w', Ok kept)
        ∧ selectSmallestSections kept [2; 4]
          = selected (fold_left selectByNewLines (sortBySize kept)
                                (mkSelection [] ∅)).
Proof. apply X14_containment_test_never_rejects. reflexivity. Defined.

Lemma getNodeType_known (nodeType : JS.str) : getNodeType nodeType ≠ unknown.
Proof.
  unfold getNodeType. destruct (JS.eqb _ _); [discriminate|].
  destruct (_ || _); discriminate.
Qed.

Lemma getNodeName_named (node : NodeData) (parent : option NodeData) :
  is_Some (getNodeName node parent).
Proof.
  unfold getNodeName. destruct (truthy (id_name node)); [eauto|].
  destruct parent as [p|].
  - destruct (JS.eqb (nodeType p) _).
    + destruct (truthy (id_name p)); [eauto|].
      destruct (key node) as [k|]; [|eauto].
      destruct (truthy (key_name k)); [eauto|].
      destruct (truthy (key_value k)); eauto.
    + destruct (key node) as [k|]; [|eauto].
      destruct (truthy (key_name k)); [eauto|].
      destruct (truthy (key_value k)); eauto.
  - destruct (key node) as [k|]; [|eauto].
    destruct (truthy (key_name k)); [eauto|].
    destruct (truthy (key_value k)); eauto.
Qed.

Lemma pushSection_named (numbers : list Z)
      (es : list (Z * option NodeData * NodeData)) (secs : list Sect) :
  Forall (fun s => stype s ≠ unknown ∧ is_Some (sname s)) secs →
  Forall (fun s => stype s ≠ unknown ∧ is_Some (sname s))
         (fold_left (pushSection numbers) es secs).
Proof.
  revert secs. induction es as [|e es IH]; intros secs H; [exact H|].
  cbn [fold_left]. apply IH. destruct e as [[depth parent] node].
  unfold pushSection. destruct (isTargetNode node); [|exact H].
  destruct (loc node) as [[s e]|]; [|exact H].
  destruct (containsAddedLines numbers s e) as [|z l]; [exact H|].
  apply Forall_app. split; [exact H|]. constructor; [|constructor].
  cbn [stype sname]. split; [apply getNodeType_known|apply getNodeName_named].
Qed.

(** The blocks of [extractMinimalBlocks] are blocks of sections. *)
Lemma minimal_blocks_are_sections
      (added : list DiffLine) (fullCode : JS.str) (config : AppConfig)
      (es : list (Z * option NodeData * NodeData)) :
  let numbers := newSet (truthyLineNumbers added) in
  Forall (sectionBlock added)
         (omap (fun s => limitSectionSize s fullCode config)
               (selectSmallestSections (collected numbers es) numbers)).
Proof.
  intros numbers.
  destruct (selection_of_collected numbers es)
    as [Esel [[Hwf _] [_ [Hsub _]]]].
  rewrite Esel.
  set (sel := selected (fold_left selectByNewLines
                          (sortBySize (collected numbers es))
                          (mkSelection [] ∅))) in *.
  pose proof (blocks_of_sections fullCode config sel) as HF.
  pose proof (pushSection_named numbers es [] (List.Forall_nil _)) as Hnamed.
  fold (collected numbers es) in Hnamed.
  rewrite Forall_forall in Hwf, Hnamed.
  apply Forall_forall. intros b Hb.
  apply list_elem_of_lookup in Hb as [i Hi].
  destruct (Forall2_lookup_r _ _ _ _ _ HF Hi) as [t [Ht [Hbs [Hbe [Hbt Hbn]]]]].
  assert (Hin : t ∈ sel) by (eapply list_elem_of_lookup_2; exact Ht).
  assert (Hin' : t ∈ collected numbers es).
  { rewrite <- (sortBySize_perm (collected numbers es)).
    eapply elem_of_sublist; eassumption. }
  destruct (Hnamed t Hin') as [Hty Hname].
  unfold sectionBlock. rewrite Hbt, Hbn. split; [exact Hty|].
  split; [exact Hname|].
  destruct (Hwf t Hin) as [Et Hne].
  destruct (addedLines t) as [|n ns] eqn:El; [contradiction|].
  assert (Hn : n ∈ addedLines t) by (rewrite El; left).
  apply (collectedFrom_line numbers t n (Hwf t Hin)) in Hn as [Hr Hn].
  exists n. split; [apply changed_numbers; exact Hn|].
  unfold covers. rewrite Hbs, Hbe. exact Hr.
Qed.

(** X15: for a file that is not a Vue file, the fallback extractor is
    reached only through an error of [traverse].  [parseCode] catches
    what the parser throws, the timeout never rejects, the visit throws
    the error of the depth limiter only, which [collectImpactedSections]
    catches, and the selection and the limiting of the blocks throw
    nothing.  So either every block [extractCodeBlocks] returns is the
    block of a named function, class or method that spans a changed line,
    or the parser has returned a tree whose scopes do not build, and the
    blocks are those of the fallback extractor. *)
Theorem X15_fallback_only_after_a_traverse_error
        (env : Env) (dl : list DiffLine) (path : JS.str)
        (config : AppConfig) (w : World) :
  getFileExtension path ≠ JS.lit "vue" →
  ∃ w' blocks,
    extractCodeBlocks env dl path config w = (w', Ok blocks)
    ∧ (Forall (sectionBlock (DiffService.extractAddedLines dl)) blocks
       ∨ ∃ fullCode w1 ast e,
           buildFullCode dl = Some fullCode
           ∧ parseCodeWithTimeout env fullCode (getFileExtension path) config w
             = (w1, Ok (Some ast))
           ∧ babel_scopes env ast = Some e
           ∧ blocks
             = fallbackExtractBlocks (DiffService.extractAddedLines dl) config).
Proof.
  intros Hvue. unfold extractCodeBlocks. cbv zeta.
  case_bool_decide;
    [do 2 eexists; split; [reflexivity|left; constructor]|].
  destruct (isSupportedLanguage (getFileExtension path));
    [|do 2 eexists; split; [reflexivity|left; constructor]].
  cbn [negb]. unfold tryCatch, JS.eqb.
  rewrite (bool_decide_eq_false_2 _ Hvue).
  destruct (buildFullCode dl) as [fullCode|];
    [|do 2 eexists; split; [reflexivity|left; constructor]].
  unfold bind.
  destruct (parseCodeWithTimeout_never_rejects env fullCode
              (getFileExtension path) config w) as [w1 [r Hparse]].
  rewrite Hparse.
  destruct r as [ast|];
    [|do 2 eexists; split; [reflexivity|left; constructor]].
  destruct (babel_scopes env ast) as [e|] eqn:Hscopes.
  - destruct (extractMinimalBlocks_scope_error env ast
                (filter (fun line => type line = added) dl) fullCode config
                w1 e Hscopes) as [[_ E]|[w2 E]]; rewrite E.
    + assert (Hlog : ∃ w2, (if development env
                            then logger (LogDebug
                                   (JS.lit "AST parsing failed for " ++ path
                                    ++ JS.lit ", using fallback: " ++ e))
                            else ret tt) w1 = (w2, Ok tt))
        by (destruct (development env); eexists; reflexivity).
      destruct Hlog as [w2 Hlog]. unfold bind. rewrite Hlog.
      do 2 eexists. split; [reflexivity|]. right.
      exists fullCode, w1, ast, e. auto.
    + do 2 eexists. split; [reflexivity|left; constructor].
  - destruct (extractMinimalBlocks_returns env ast
                (filter (fun line => type line = added) dl) fullCode config w1
                Hscopes) as [w2 E]. cbv zeta in E. rewrite E.
    do 2 eexists. split; [reflexivity|]. left.
    apply minimal_blocks_are_sections.
Qed.

(** The theorem at the TypeScript file of [nested_diff]. *)
Lemma X15_fallback_only_witness :
  ∃ w' blocks,
    extractCodeBlocks (parserGiving nested_ast 0) nested_parsed
                      (JS.lit "outer.ts") defaults emptyWorld = (w', Ok blocks)
    ∧ (Forall (sectionBlock (DiffService.extractAddedLines nested_parsed)) blocks
       ∨ ∃ fullCode w1 ast e,
           buildFullCode nested_parsed = Some fullCode
           ∧ parseCodeWithTimeout (parserGiving nested_ast 0) fullCode
               (getFileExtension (JS.lit "outer.ts")) defaults emptyWorld
             = (w1, Ok (Some ast))
           ∧ babel_scopes (parserGiving nested_ast 0) ast = Some e
           ∧ blocks
             = fallbackExtractBlocks
                 (DiffService.extractAddedLines nested_parsed) defaults).
Proof.
  apply X15_fallback_only_after_a_traverse_error. vm_compute. discriminate.
Defined.

(** X26: when the parser returns a tree whose scopes do not build, as
    it does when a line that declares a [let] or a [const] is edited and
    the removed and the added line both stand in the reconstructed text,
    [traverse] throws before it visits a node, and the extraction of a
    JavaScript or TypeScript file returns the blocks of the fallback
    extractor. *)
Theorem X26_traverse_error_gives_the_fallback
        (env : Env) (dl : list DiffLine) (path : JS.str)
        (config : AppConfig) (w w1 : World) (fullCode : JS.str) (ast : Ast)
        (e : JS.str) :
  DiffService.extractAddedLines dl ≠ [] →
  isSupportedLanguage (getFileExtension path) = true →
  getFileExtension path ≠ JS.lit "vue" →
  buildFullCode dl = Some fullCode →
  parseCodeWithTimeout env fullCode (getFileExtension path) config w
  = (w1, Ok (Some ast)) →
  babel_scopes env ast = Some e →
  JS.includes (JS.lit "深度超限") e = false →
  ∃ w', extractCodeBlocks env dl path config w
        = (w', Ok (fallbackExtractBlocks (DiffService.extractAddedLines dl)
                                         config)).
Proof.
  intros Hadded Hlang Hvue Hcode Hparse Hscopes Hmessage.
  unfold extractCodeBlocks. cbv zeta.
  unfold DiffService.extractAddedLines in *.
  case_bool_decide as Hlen;
    [apply length_zero_iff_nil in Hlen; contradiction|].
  rewrite Hlang. cbn [negb]. unfold tryCatch, JS.eqb.
  rewrite (bool_decide_eq_false_2 _ Hvue). rewrite Hcode.
  unfold bind. rewrite Hparse.
  destruct (extractMinimalBlocks_scope_error env ast
              (filter (fun line => type line = added) dl) fullCode config
              w1 e Hscopes) as [[_ E]|[w2 E]].
  - rewrite E.
    assert (Hlog : ∃ w2, (if development env
                          then logger (LogDebug
                                 (JS.lit "AST parsing failed for " ++ path
                                  ++ JS.lit ", using fallback: " ++ e))
                          else ret tt) w1 = (w2, Ok tt))
      by (destruct (development env); eexists; reflexivity).
    destruct Hlog as [w2 Hlog]. unfold bind. rewrite Hlog.
    eexists. reflexivity.
  - exfalso. revert E. unfold extractMinimalBlocks, bind.
    rewrite (collect_throws env ast fullCode _ config w1 e Hscopes Hmessage).
    discriminate.
Qed.

(** The theorem at [a.ts] when the value of a [const] is edited: the
    one block is the added line, line 2, of type [unknown]. *)
Lemma X26_traverse_error_witness :
  ∃ w' b, extractCodeBlocks redeclaring edited_parsed (JS.lit "a.ts")
                            defaults emptyWorld = (w', Ok [b])
          ∧ (startLine b, endLine b, blockType b) = (2, 2, unknown).
Proof.
  edestruct (X26_traverse_error_gives_the_fallback redeclaring edited_parsed
               (JS.lit "a.ts") defaults emptyWorld) as [w' E].
  - vm_compute. discriminate.
  - vm_compute. reflexivity.
  - vm_compute. discriminate.
  - vm_compute. reflexivity.
  - vm_compute. reflexivity.
  - vm_compute. reflexivity.
  - vm_compute. reflexivity.
  - exists w'. eexists. split; [rewrite E; vm_compute; reflexivity|].
    reflexivity.
Defined.

Lemma pushSection_sectionOfNode (numbers : list Z)
      (es0 es : list (Z * option NodeData * NodeData)) (secs : list Sect) :
  (∀ e, e ∈ es → e ∈ es0) →
  Forall (sectionOfNode es0) secs →
  Forall (sectionOfNode es0) (fold_left (pushSection numbers) es secs).
Proof.
  revert secs. induction es as [|e es IH]; intros secs Hsub H; [exact H|].
  cbn [fold_left]. apply IH; [intros x Hx; apply Hsub; right; exact Hx|].
  assert (He : e ∈ es0) by (apply Hsub; left).
  destruct e as [[depth parent] node].
  unfold pushSection. destruct (isTargetNode node) eqn:Et; [|exact H].
  destruct (loc node) as [[s e]|] eqn:El; [|exact H].
  destruct (containsAddedLines numbers s e) as [|z l]; [exact H|].
  apply Forall_app. split; [exact H|]. constructor; [|constructor].
  exists (depth, parent, node). cbn [snd start end_ stype]. auto.
Qed.

(** X16: when the scopes of the tree build, every block
    [extractMinimalBlocks] returns is the block of a function, a class or
    a method that the traversal has entered: it has the range and the
    type of that node, and the node spans a changed line.  No block is
    returned when no entered function, class or method spans a changed
    line. *)
Theorem X16_blocks_come_from_entered_nodes
        (env : Env) (ast : Ast) (addedLines : list DiffLine)
        (fullCode : JS.str) (config : AppConfig) (w : World) :
  babel_scopes env ast = None →
  ∃ w' blocks,
    extractMinimalBlocks env ast addedLines fullCode config w = (w', Ok blocks)
    ∧ (∀ b, b ∈ blocks →
            ∃ d n, d ∈ reachedTargets (ast_maxDepth config) ast
                   ∧ loc d = Some (startLine b, endLine b)
                   ∧ blockType b = getNodeType (nodeType d)
                   ∧ changed addedLines n ∧ covers b n)
    ∧ ((∀ d n, d ∈ reachedTargets (ast_maxDepth config) ast →
               spansLine d n → ¬ changed addedLines n) →
       blocks = []).
Proof.
  intros Hscopes.
  destruct (extractMinimalBlocks_returns env ast addedLines fullCode config w
              Hscopes) as [w' E]. cbv zeta in E.
  set (numbers := newSet (truthyLineNumbers addedLines)) in *.
  set (es := withinDepth (ast_maxDepth config) (enteredBelow ast)) in *.
  exists w'. eexists. split; [exact E|].
  assert (Hsound : ∀ b,
    b ∈ omap (fun s => limitSectionSize s fullCode config)
             (selectSmallestSections (collected numbers es) numbers) →
    ∃ d n, d ∈ reachedTargets (ast_maxDepth config) ast
           ∧ loc d = Some (startLine b, endLine b)
           ∧ blockType b = getNodeType (nodeType d)
           ∧ changed addedLines n ∧ covers b n).
  { intros b Hb.
    pose proof (minimal_blocks_are_sections addedLines fullCode config es) as Hsec.
    cbv zeta in Hsec. fold numbers in Hsec. rewrite Forall_forall in Hsec.
    destruct (Hsec b Hb) as [_ [_ [n [Hn Hcov]]]].
    destruct (selection_of_collected numbers es) as [Esel [_ [_ [Hsub _]]]].
    rewrite Esel in Hb.
    set (sel := selected (fold_left selectByNewLines
                            (sortBySize (collected numbers es))
                            (mkSelection [] ∅))) in *.
    pose proof (blocks_of_sections fullCode config sel) as HF.
    apply list_elem_of_lookup in Hb as [i Hi].
    destruct (Forall2_lookup_r _ _ _ _ _ HF Hi) as [t [Ht [Hbs [Hbe [Hbt _]]]]].
    assert (Hin : t ∈ collected numbers es).
    { rewrite <- (sortBySize_perm (collected numbers es)).
      eapply elem_of_sublist; [|exact Hsub].
      eapply list_elem_of_lookup_2. exact Ht. }
    pose proof (pushSection_sectionOfNode numbers es es []
                  (fun e H => H) (List.Forall_nil _)) as Hnodes.
    fold (collected numbers es) in Hnodes. rewrite Forall_forall in Hnodes.
    destruct (Hnodes t Hin) as [e [He [Het [Hel Hety]]]].
    exists e.2, n. split.
    - unfold reachedTargets. fold es. apply list_elem_of_filter.
      split; [exact Het|]. apply list_elem_of_fmap. exists e. auto.
    - rewrite Hbs, Hbe, Hbt. auto. }
  split; [exact Hsound|].
  intros Hnone.
  destruct (omap (fun s => limitSectionSize s fullCode config)
                 (selectSmallestSections (collected numbers es) numbers))
    as [|b blocks]; [reflexivity|].
  destruct (Hsound b) as [d [n [Hd [Hloc [_ [Hn [Hc1 Hc2]]]]]]]; [left|].
  exfalso. apply (Hnone d n Hd); [|exact Hn].
  exists (startLine b), (endLine b). auto.
Qed.

(** The theorem at [nested_ast] and the changed lines 2 and 4 of
    [nested_diff]. *)
Lemma X16_blocks_come_witness :
  ∃ w' blocks,
    extractMinimalBlocks (parserGiving nested_ast 0) nested_ast
                         (DiffService.extractAddedLines nested_parsed)
                         (JS.lit "function outer() {
  const a = 1;
  const f = () => {
    return a;
  };
  return f;
}") defaults emptyWorld
    = (w', Ok blocks)
    ∧ (∀ b, b ∈ blocks →
            ∃ d n, d ∈ reachedTargets (ast_maxDepth defaults) nested_ast
                   ∧ loc d = Some (startLine b, endLine b)
                   ∧ blockType b = getNodeType (nodeType d)
                   ∧ changed (DiffService.extractAddedLines nested_parsed) n
                   ∧ covers b n)
    ∧ ((∀ d n, d ∈ reachedTargets (ast_maxDepth defaults) nested_ast →
               spansLine d n →
               ¬ changed (DiffService.extractAddedLines nested_parsed) n) →
       blocks = []).
Proof. apply X16_blocks_come_from_entered_nodes. reflexivity. Defined.

(** ** The window around the changed lines *)

Lemma minOf_le (x : Z) (xs : list Z) : minOf x xs ≤ x.
Proof.
  unfold minOf. revert x. induction xs as [|y xs IH]; intros x; cbn [fold_left].
  - lia.
  - specialize (IH (Z.min x y)). lia.
Qed.

Lemma maxOf_ge (x : Z) (xs : list Z) : x ≤ maxOf x xs.
Proof.
  unfold maxOf. revert x. induction xs as [|y xs IH]; intros x; cbn [fold_left].
  - lia.
  - specialize (IH (Z.max x y)). lia.
Qed.

(** The lines of a text that is followed by an empty line and a last
    line. *)
Lemma split_lines_join_app (ls : list JS.str) (r : JS.str) :
  Forall (fun l : JS.str => JS.LF ∉ l) ls →
  JS.split_lines (JS.join_lines ls ++ JS.LF :: r)
  = match ls with [] => [[]] | _ => ls end ++ JS.split_lines r.
Proof.
  destruct ls as [|l ls]; [reflexivity|]. revert l.
  induction ls as [|l' ls IH]; intros l H.
  - apply Forall_cons_1 in H as [Hl _].
    change (JS.join_lines [l]) with l. apply split_lines_app, Hl.
  - apply Forall_cons_1 in H as [Hl Hls].
    change (JS.join_lines (l :: l' :: ls))
      with (l ++ JS.LF :: JS.join_lines (l' :: ls)).
    rewrite <- app_assoc. cbn [app].
    rewrite split_lines_app by exact Hl. rewrite IH by exact Hls. reflexivity.
Qed.

Lemma lit_oneLine (s : string) :
  bool_decide (JS.LF ∈ JS.lit s) = false → JS.LF ∉ JS.lit s.
Proof. intros H. apply bool_decide_eq_false in H. exact H. Qed.

Lemma lineCount_with_marker (ls : list JS.str) (size : Z) :
  Forall (fun l : JS.str => JS.LF ∉ l) ls →
  lineCount (JS.join_lines ls ++ windowMarker size)
  = Z.max 1 (Z.of_nat (length ls)) + 2.
Proof.
  intros H. unfold lineCount, windowMarker.
  change ([JS.LF; JS.LF] ++ ?m) with (JS.LF :: JS.LF :: m).
  rewrite split_lines_join_app by exact H.
  change (JS.LF :: ?m) with ([] ++ JS.LF :: m).
  rewrite split_lines_app by apply not_elem_of_nil.
  rewrite split_lines_one.
  - rewrite length_app. destruct ls; cbn [length]; lia.
  - repeat (apply not_elem_of_lit_app;
            [first [apply ofZ_oneLine | apply lit_oneLine; reflexivity]|]).
    apply lit_oneLine. reflexivity.
Qed.

(** X17: a section that is shown as a window, because it has more than
    [maxLines] lines while its text is within [maxChars], gives a block
    whose number of lines is bounded by the distance between its first
    and its last changed line: at most that distance plus the eight lines
    of context on either side and five lines for the changed line itself,
    the two ellipsis comments, the empty line and the closing comment. *)
Theorem X17_window_is_bounded_by_the_spread
        (numbers : list Z) (section : Sect) (fullCode : JS.str)
        (config : AppConfig) :
  collectedFrom numbers section →
  1 ≤ start section →
  JS.len (snippetOf section fullCode) ≤ ast_maxChars config →
  ast_maxLines config < end_ section - start section + 1 →
  ∃ b, limitSectionSize section fullCode config = Some b
       ∧ lineCount (code b)
         ≤ spread (addedLines section) + 2 * CONTEXT_RADIUS + 5.
Proof.
  intros Hwf Hstart Hchars Hlines. unfold limitSectionSize. cbv zeta.
  fold (snippetOf section fullCode).
  destruct (Z.ltb_spec (ast_maxChars config) (JS.len (snippetOf section fullCode)));
    [lia|].
  destruct (Z.ltb_spec (ast_maxLines config) (end_ section - start section + 1));
    [|lia].
  eexists. split; [reflexivity|]. cbn [code].
  destruct Hwf as [Hadded Hne].
  destruct (addedLines section) as [|a rest] eqn:El; [contradiction|].
  assert (Ha : start section ≤ a ∧ a ≤ end_ section).
  { assert (Hin : a ∈ containsAddedLines numbers (start section) (end_ section))
      by (rewrite <- Hadded; left).
    unfold containsAddedLines in Hin.
    apply list_elem_of_filter in Hin as [Hr _]. exact Hr. }
  pose proof (minOf_le a rest) as Hmin. pose proof (maxOf_ge a rest) as Hmax.
  unfold extractContextAroundLines, spread. cbv zeta.
  set (lo := Z.max (start section) (minOf a rest - CONTEXT_RADIUS)).
  set (hi := Z.min (end_ section) (maxOf a rest + CONTEXT_RADIUS)).
  set (window := JS.slice (lo - 1) hi (JS.split_lines fullCode)).
  assert (Hr : CONTEXT_RADIUS = 8) by reflexivity.
  assert (Hlen : Z.of_nat (length window) ≤ hi - (lo - 1)).
  { apply slice_length; unfold lo, hi; lia. }
  assert (Hone : Forall (fun l : JS.str => JS.LF ∉ l) window).
  { apply slice_Forall, split_lines_oneLine. }
  rewrite lineCount_with_marker.
  - destruct (start section <? lo), (hi <? end_ section);
      rewrite ?length_app; cbn [length]; unfold lo, hi in *; lia.
  - destruct (start section <? lo), (hi <? end_ section);
      repeat first [apply Forall_app; split | apply Forall_cons; split
                    | apply Forall_nil_2 | exact Hone
                    | apply lit_oneLine; reflexivity].
Qed.

(** The theorem at the five-line section of [five_lines_code], changed
    on its first and last line, under a ceiling of two lines. *)
Lemma X17_window_witness :
  ∃ b, limitSectionSize five_lines five_lines_code two_lines = Some b
       ∧ lineCount (code b) ≤ spread [1; 5] + 2 * CONTEXT_RADIUS + 5.
Proof.
  apply (X17_window_is_bounded_by_the_spread [1; 5]).
  - split; [reflexivity|discriminate].
  - vm_compute. discriminate.
  - vm_compute. discriminate.
  - vm_compute. reflexivity.
Defined.

(** ** The blocks of a Vue file *)

Lemma scriptBlock_within (codeLines : list JS.str) (scriptStartLine : Z)
                         (config : AppConfig) (range : BlockRange) (b : CodeBlock) :
  scriptBlock codeLines scriptStartLine config range = Some b →
  withinVueCeilings config b.
Proof.
  unfold scriptBlock. cbv zeta.
  destruct (Z.ltb_spec (ast_maxChars config)
              (JS.len (JS.join_lines
                 (JS.slice (r_start range - scriptStartLine + 1 - 1)
                           (r_end range - scriptStartLine + 1) codeLines))));
    [discriminate|].
  destruct (Z.ltb_spec (ast_maxLines config) (r_end range - r_start range + 1));
    [discriminate|].
  intros [= <-]. split; cbn [code startLine endLine]; lia.
Qed.

Lemma scriptBlocks_within (codeLines : list JS.str) (scriptStartLine : Z)
                          (config : AppConfig) (ranges : list BlockRange) :
  Forall (withinVueCeilings config)
         (omap (scriptBlock codeLines scriptStartLine config) ranges).
Proof.
  apply Forall_forall. intros b Hb.
  apply list_elem_of_omap in Hb as [range [_ Hb]].
  exact (scriptBlock_within _ _ _ _ _ Hb).
Qed.

Lemma fallback_within (addedLines : list DiffLine) (config : AppConfig) :
  Forall (withinVueCeilings config) (fallbackExtractBlocks addedLines config).
Proof.
  unfold fallbackExtractBlocks. destruct addedLines as [|first rest];
    [constructor|]. cbv zeta.
  match goal with |- context [ast_maxChars config <? ?x] =>
    destruct (Z.ltb_spec (ast_maxChars config) x) end; [constructor|].
  match goal with |- context [ast_maxLines config <? ?x] =>
    destruct (Z.ltb_spec (ast_maxLines config) x) end; [constructor|].
  constructor; [|constructor]. split; cbn [code startLine endLine]; lia.
Qed.

Lemma extractScriptBlocks_within
      (env : Env) (scriptContent : JS.str) (numbers : list Z)
      (scriptStartLine : Z) (config : AppConfig) (w : World) :
  ∃ w' blocks,
    extractScriptBlocks env scriptContent numbers scriptStartLine config w
    = (w', Ok blocks)
    ∧ Forall (withinVueCeilings config) blocks.
Proof.
  unfold extractScriptBlocks. cbv zeta.
  case_bool_decide; [do 2 eexists; split; [reflexivity|constructor]|].
  unfold tryCatch, parse, elapse, ret, logger, throw. unfold bind.
  cbv beta iota zeta.
  destruct (babel_parse env _ scriptContent) as [ast|e]; cbv beta iota zeta.
  - destruct (babel_scopes env ast) as [e|].
    + do 2 eexists. split; [reflexivity|constructor].
    + do 2 eexists. split; [reflexivity|]. apply scriptBlocks_within.
  - do 2 eexists. split; [reflexivity|constructor].
Qed.

Lemma sfcBlocks_within (env : Env) (block : option SfcBlock) (numbers : list Z)
                       (config : AppConfig) (w : World) :
  ∃ w' blocks, sfcBlocks env block numbers config w = (w', Ok blocks)
               ∧ Forall (withinVueCeilings config) blocks.
Proof.
  unfold sfcBlocks. destruct block as [b|];
    [|do 2 eexists; split; [reflexivity|constructor]].
  destruct (JS.eqb (sfc_content b) []);
    [do 2 eexists; split; [reflexivity|constructor]|].
  apply extractScriptBlocks_within.
Qed.

(** X18: the extraction of a Vue file never throws, and every block it
    returns is within the ceilings: a script block or a fallback block
    over [maxChars] characters or over [maxLines] lines of range is
    dropped, it is never cut or reduced to a window as the block of a
    JavaScript or TypeScript file is. *)
Theorem X18_vue_blocks_are_within_the_ceilings
        (env : Env) (dl : list DiffLine) (path : JS.str)
        (addedLines : list DiffLine) (config : AppConfig) (w : World) :
  ∃ w' blocks,
    extractVueCodeBlocks env dl path addedLines config w = (w', Ok blocks)
    ∧ Forall (withinVueCeilings config) blocks.
Proof.
  pose proof (fallback_within addedLines config) as Hfb.
  unfold extractVueCodeBlocks.
  destruct (vue_parseSFC env) as [parseSFC|];
    [|do 2 eexists; split; [reflexivity|exact Hfb]].
  unfold tryCatch.
  destruct (buildFullCode dl) as [fullCode|];
    [|do 2 eexists; split; [reflexivity|exact Hfb]].
  unfold bind at 1.
  destruct (parseSFC fullCode path) as [sfc|e];
    [|do 2 eexists; split; [reflexivity|exact Hfb]].
  unfold bind at 1.
  match goal with |- context [(if ?c then logger ?m else ret tt) w] =>
    assert (Hlog : ∃ w1, (if c then logger m else ret tt) w = (w1, Ok tt))
      by (destruct c; eexists; reflexivity);
    destruct Hlog as [w1 ->] end.
  unfold bind at 1.
  destruct (sfcBlocks_within env (sfc_script sfc)
              (newSet (truthyLineNumbers addedLines)) config w1)
    as [w2 [scriptBlocks [-> Hs]]].
  unfold bind at 1.
  destruct (sfcBlocks_within env (sfc_scriptSetup sfc)
              (newSet (truthyLineNumbers addedLines)) config w2)
    as [w3 [setupBlocks [-> Hsetup]]].
  do 2 eexists. split; [reflexivity|].
  case_bool_decide; [|exact Hfb]. apply Forall_app. split; assumption.
Qed.

(** ** The file filter *)

Lemma split_dot_not_nil (s : JS.str) : JS.split_dot s ≠ [].
Proof.
  destruct s as [|c s]; cbn [JS.split_dot]; [discriminate|].
  destruct (c =? 46)%N; [discriminate|].
  destruct (JS.split_dot s); discriminate.
Qed.

Lemma split_dot_without_dot (s : JS.str) : 46%N ∉ s → JS.split_dot s = [s].
Proof.
  induction s as [|c s IH]; intros H; [reflexivity|].
  cbn [JS.split_dot]. destruct (N.eqb_spec c 46) as [E|E].
  - exfalso. apply H. rewrite E. left.
  - rewrite IH; [reflexivity|]. intros Hs. apply H. right. exact Hs.
Qed.

Lemma split_dot_with_dot (s : JS.str) :
  46%N ∈ s → (1 < length (JS.split_dot s))%nat.
Proof.
  induction s as [|c s IH]; intros H; [inversion H|].
  cbn [JS.split_dot]. pose proof (split_dot_not_nil s) as Hne.
  destruct (N.eqb_spec c 46) as [E|E].
  - destruct (JS.split_dot s); [contradiction|]. cbn [length]. lia.
  - apply elem_of_cons in H as [H|H]; [congruence|].
    specialize (IH H). destruct (JS.split_dot s); [contradiction|].
    cbn [length] in *. lia.
Qed.

Lemma toLowerCase_nil (s : JS.str) : JS.toLowerCase s = [] ↔ s = [].
Proof.
  unfold JS.toLowerCase. destruct s; [tauto|]. split; discriminate.
Qed.

Lemma isSupportedFile_true (filePath : JS.str) (exts : list JS.str) :
  FileUtil.isSupportedFile filePath exts = true
  ↔ let extension :=
        JS.toLowerCase (default [] (last (JS.split_dot filePath))) in
    extension ≠ [] ∧ extension ∈ exts.
Proof.
  unfold FileUtil.isSupportedFile, JS.eqb. cbv zeta.
  case_bool_decide as E.
  - split; [discriminate|]. intros [H _]. contradiction.
  - rewrite bool_decide_eq_true. tauto.
Qed.

(** X19: for a path with a dot, [isSupportedFile] holds exactly when
    the extension [getFileExtension] gives is not empty and is one of the
    supported extensions.  For a path without a dot, [getFileExtension]
    gives no extension, while [isSupportedFile] takes the whole path for
    the extension: a file named as an extension is let through. *)
Theorem X19_supported_file_by_extension
        (filePath : JS.str) (supportedExtensions : list JS.str) :
  asciiOnly filePath →
  (46%N ∈ filePath →
   (FileUtil.isSupportedFile filePath supportedExtensions = true
    ↔ FileUtil.getFileExtension filePath ≠ []
      ∧ FileUtil.getFileExtension filePath ∈ supportedExtensions))
  ∧ (46%N ∉ filePath →
     FileUtil.getFileExtension filePath = []
     ∧ (FileUtil.isSupportedFile filePath supportedExtensions = true
        ↔ filePath ≠ [] ∧ JS.toLowerCase filePath ∈ supportedExtensions)).
Proof.
  intros _. split; intros Hdot.
  - rewrite isSupportedFile_true. cbv zeta. unfold FileUtil.getFileExtension.
    cbv zeta. pose proof (split_dot_with_dot filePath Hdot) as Hlen.
    destruct (Z.ltb_spec 1 (Z.of_nat (length (JS.split_dot filePath))));
      [reflexivity|lia].
  - rewrite isSupportedFile_true. cbv zeta. unfold FileUtil.getFileExtension.
    cbv zeta. rewrite (split_dot_without_dot filePath Hdot).
    cbn [length last default]. split; [reflexivity|].
    rewrite toLowerCase_nil. reflexivity.
Qed.

(** The theorem at [src/App.TSX] and at a file named [py]. *)
Lemma X19_supported_file_witness :
  (FileUtil.isSupportedFile (JS.lit "src/App.TSX") defaultExtensions = true
   ↔ FileUtil.getFileExtension (JS.lit "src/App.TSX") ≠ []
     ∧ FileUtil.getFileExtension (JS.lit "src/App.TSX") ∈ defaultExtensions)
  ∧ FileUtil.getFileExtension (JS.lit "py") = []
  ∧ (FileUtil.isSupportedFile (JS.lit "py") defaultExtensions = true
     ↔ JS.lit "py" ≠ [] ∧ JS.toLowerCase (JS.lit "py") ∈ defaultExtensions).
Proof.
  assert (Ha : ∀ s, bool_decide (asciiOnly (JS.lit s)) = true
                    → asciiOnly (JS.lit s))
    by (intros s; apply bool_decide_eq_true_1).
  split.
  - apply (X19_supported_file_by_extension (JS.lit "src/App.TSX"));
      [apply Ha; reflexivity|].
    apply (bool_decide_eq_true_1 (46%N ∈ JS.lit "src/App.TSX")).
    reflexivity.
  - apply (X19_supported_file_by_extension (JS.lit "py"));
      [apply Ha; reflexivity|].
    apply (bool_decide_eq_false_1 (46%N ∈ JS.lit "py")). reflexivity.
Defined.

(** X20: a file whose language the AST service supports passes the
    file filter of the Git service whenever the five extensions of the
    AST service are among the supported extensions, as they are by
    default. *)
Theorem X20_parsable_files_pass_the_filter
        (filePath : JS.str) (supportedExtensions : list JS.str) :
  asciiOnly filePath →
  map JS.lit ["js"; "jsx"; "ts"; "tsx"; "vue"]%string ⊆ supportedExtensions →
  isSupportedLanguage (getFileExtension filePath) = true →
  FileUtil.isCodeFile filePath supportedExtensions = true.
Proof.
  intros _ Hsub Hlang. unfold FileUtil.isCodeFile.
  assert (Hno : ([] : JS.str) ∉ map JS.lit ["js"; "jsx"; "ts"; "tsx"; "vue"]%string)
    by (apply (bool_decide_eq_false_1 _); reflexivity).
  apply isSupportedFile_true. cbv zeta.
  unfold isSupportedLanguage in Hlang. apply bool_decide_eq_true in Hlang.
  unfold getFileExtension in Hlang. cbv zeta in Hlang.
  destruct (1 <? Z.of_nat (length (JS.split_dot filePath)));
    [|contradiction].
  split; [|apply Hsub, Hlang].
  intros E. rewrite E in Hlang. contradiction.
Qed.

(** The theorem at [web/Main.Vue] under the default extensions. *)
Lemma X20_parsable_files_witness :
  FileUtil.isCodeFile (JS.lit "web/Main.Vue") defaultExtensions = true.
Proof.
  apply X20_parsable_files_pass_the_filter.
  - apply (bool_decide_eq_true_1 (asciiOnly (JS.lit "web/Main.Vue"))).
    reflexivity.
  - apply (bool_decide_eq_true_1 (map JS.lit ["js"; "jsx"; "ts"; "tsx"; "vue"]%string
                 ⊆ defaultExtensions)).
    reflexivity.
  - reflexivity.
Defined.

(** ** The line counts of a diff *)

Section DiffCounts.

Import DiffService.

Lemma countAtLineStart_lines (c : N) (s : JS.str) :
  c ≠ JS.LF → newlineOnly s →
  GitService.countAtLineStart c true s
  = length (filter (fun line => startsWithChar c line = true)
                   (JS.split_lines s))
  ∧ GitService.countAtLineStart c false s
    = length (filter (fun line => startsWithChar c line = true)
                     (tail (JS.split_lines s))).
Proof.
  intros Hc. induction s as [|x s IH]; intros Hs.
  - split; reflexivity.
  - apply Forall_cons_1 in Hs as [Hx Hs]. destruct (IH Hs) as [IHt IHf].
    cbn [GitService.countAtLineStart JS.split_lines].
    pose proof (split_lines_not_nil s) as Hne.
    destruct (N.eqb_spec x JS.LF) as [E|E].
    + subst x. change (GitService.isLineTerminator JS.LF) with true.
      destruct (N.eqb_spec JS.LF c) as [E'|_]; [congruence|].
      rewrite andb_false_r, IHt, filter_cons. cbn [tail startsWithChar].
      rewrite decide_False by discriminate. split; reflexivity.
    + destruct (GitService.isLineTerminator x) eqn:Et;
        [exfalso; apply E, Hx; reflexivity|].
      rewrite IHf. destruct (JS.split_lines s) as [|l ls]; [contradiction|].
      cbn [tail andb]. rewrite filter_cons. cbn [startsWithChar].
      destruct (N.eqb_spec x c) as [Exc|Exc].
      * rewrite decide_True by reflexivity. split; reflexivity.
      * rewrite decide_False by discriminate. split; reflexivity.
Qed.

Lemma count_by_kind (k : LineType) (recs : list DiffLine) (lines : list JS.str) :
  map type recs = map kindOf lines →
  length (filter (fun l => type l = k) recs)
  = length (filter (fun line => kindOf line = k) lines).
Proof.
  revert lines. induction recs as [|r recs IH]; intros [|line lines] H;
    try discriminate; [reflexivity|].
  cbn [map] in H. injection H as Hr H. rewrite !filter_cons.
  destruct (decide (type r = k)) as [E|E];
    destruct (decide (kindOf line = k)) as [E'|E']; try congruence.
  - cbn [length]. rewrite (IH lines H). reflexivity.
  - apply IH, H.
Qed.

(** The lines that start with [c] are those of one kind and those that
    start with three [c]. *)
Lemma count_split (P Q R : JS.str → bool) (lines : list JS.str) :
  (∀ l, P l = xorb (Q l) (R l) ∧ (Q l && R l = false)) →
  length (filter (fun l => P l = true) lines)
  = (length (filter (fun l => Q l = true) lines)
     + length (filter (fun l => R l = true) lines))%nat.
Proof.
  intros H. induction lines as [|l lines IH]; [reflexivity|].
  rewrite !filter_cons. destruct (H l) as [HP HQR].
  destruct (Q l), (R l); try discriminate; cbn [xorb] in HP; rewrite HP;
    repeat first [rewrite (decide_True (P := true = true)) by reflexivity
                 |rewrite (decide_False (P := false = true)) by discriminate];
    cbn [length]; lia.
Qed.

Lemma startsWith_one (c : N) (l : JS.str) :
  JS.startsWith [c] l = startsWithChar c l.
Proof.
  destruct l as [|x l]; [reflexivity|].
  cbn [JS.startsWith startsWithChar]. rewrite andb_true_r. apply N.eqb_sym.
Qed.

Lemma startsWith_three (c : N) (l : JS.str) :
  JS.startsWith [c; c; c] l = true → startsWithChar c l = true.
Proof.
  destruct l as [|x l]; [discriminate|].
  cbn [JS.startsWith startsWithChar]. intros H.
  apply andb_true_iff in H as [H _]. rewrite N.eqb_sym. exact H.
Qed.

Lemma plus_lines (l : JS.str) :
  startsWithChar 43 l
  = xorb (bool_decide (kindOf l = added)) (JS.startsWith (JS.lit "+++") l)
  ∧ bool_decide (kindOf l = added) && JS.startsWith (JS.lit "+++") l = false.
Proof.
  assert (E : bool_decide (kindOf l = added) = isAddedLine l).
  { destruct (isAddedLine l) eqn:E.
    - apply bool_decide_eq_true_2, kindOf_added, E.
    - apply bool_decide_eq_false_2. rewrite kindOf_added. congruence. }
  rewrite E. unfold isAddedLine.
  change (JS.lit "+") with [43%N]. change (JS.lit "+++") with [43%N; 43%N; 43%N].
  rewrite startsWith_one. pose proof (startsWith_three 43 l) as H3.
  destruct (JS.startsWith [43%N; 43%N; 43%N] l).
  - rewrite H3 by reflexivity. split; reflexivity.
  - destruct (startsWithChar 43 l); split; reflexivity.
Qed.

Lemma minus_lines (l : JS.str) :
  startsWithChar 45 l
  = xorb (bool_decide (kindOf l = removed)) (JS.startsWith (JS.lit "---") l)
  ∧ bool_decide (kindOf l = removed) && JS.startsWith (JS.lit "---") l = false.
Proof.
  assert (E : bool_decide (kindOf l = removed)
              = negb (isAddedLine l) && isRemovedLine l).
  { unfold kindOf. destruct (isAddedLine l); [reflexivity|].
    destruct (isRemovedLine l); reflexivity. }
  rewrite E. unfold isAddedLine, isRemovedLine.
  change (JS.lit "+") with [43%N]. change (JS.lit "-") with [45%N].
  change (JS.lit "---") with [45%N; 45%N; 45%N].
  rewrite !startsWith_one. pose proof (startsWith_three 45 l) as H3.
  assert (Hpm : startsWithChar 45 l = true → startsWithChar 43 l = false).
  { destruct l as [|x l]; [reflexivity|]. cbn [startsWithChar].
    intros H. apply N.eqb_eq in H. subst x. reflexivity. }
  destruct (JS.startsWith [45%N; 45%N; 45%N] l).
  - rewrite H3 by reflexivity. rewrite Hpm by (apply H3; reflexivity).
    split; reflexivity.
  - destruct (startsWithChar 45 l).
    + rewrite Hpm by reflexivity. split; reflexivity.
    + rewrite andb_false_r. split; reflexivity.
Qed.

Lemma filter_bool_decide {A} (P : A → Prop) `{∀ x, Decision (P x)} (l : list A) :
  filter (fun x => bool_decide (P x) = true) l = filter P l.
Proof.
  induction l as [|x l IH]; [reflexivity|]. rewrite !filter_cons, IH.
  destruct (decide (P x)) as [E|E].
  - rewrite decide_True by (apply bool_decide_eq_true; exact E). reflexivity.
  - rewrite decide_False; [reflexivity|].
    intros E'. apply bool_decide_eq_true in E'. contradiction.
Qed.

(** X21: in a diff whose only line terminator is the newline,
    [countAdditions] counts the added records of [parseDiff] and the
    lines that start with [+++], [countDeletions] the removed records and
    the lines that start with [---]: the file headers of a diff are
    counted as changes. *)
Theorem X21_counts_include_the_file_headers
        (diff path : JS.str) (oldPath : option JS.str) :
  newlineOnly diff →
  let records := diffLines (parseDiff diff path oldPath) in
  let lines := JS.split_lines diff in
  GitService.countAdditions diff
  = Z.of_nat (length (extractAddedLines records))
    + Z.of_nat (length (filter (fun l => JS.startsWith (JS.lit "+++") l = true)
                               lines))
  ∧ GitService.countDeletions diff
    = Z.of_nat (length (filter (fun r => type r = removed) records))
      + Z.of_nat (length (filter (fun l => JS.startsWith (JS.lit "---") l = true)
                                 lines)).
Proof.
  intros Hnl records lines.
  assert (H : map type records = map kindOf lines).
  { unfold records, parseDiff. cbn [diffLines].
    destruct (fold_step_pushes (JS.split_lines diff) init) as [_ H]. exact H. }
  unfold GitService.countAdditions, GitService.countDeletions, extractAddedLines.
  rewrite (proj1 (countAtLineStart_lines 43 diff ltac:(discriminate) Hnl)).
  rewrite (proj1 (countAtLineStart_lines 45 diff ltac:(discriminate) Hnl)).
  fold lines. rewrite !(count_by_kind _ records lines H).
  rewrite (count_split _ _ _ lines plus_lines).
  rewrite (count_split _ _ _ lines minus_lines).
  rewrite !filter_bool_decide. split; lia.
Qed.

(** The theorem at a diff with its two file headers, one added and one
    removed line: two additions and two deletions are counted. *)
Lemma X21_counts_witness :
  let diff := JS.lit "--- a/f.ts
+++ b/f.ts
@@ -1 +1 @@
-old
+new" in
  GitService.countAdditions diff = 1 + 1
  ∧ GitService.countDeletions diff = 1 + 1.
Proof.
  intros diff.
  apply (X21_counts_include_the_file_headers diff (JS.lit "f.ts") None).
  apply (bool_decide_eq_true_1 (newlineOnly diff)). reflexivity.
Defined.

End DiffCounts.

(** ** The duplicate check *)

Section Duplicates.

Import WebhookService.

(** X22: once a merge request is recorded, a request for the same
    project and merge request is a duplicate exactly as long as less than
    the rate limit has passed since the recording. *)
Theorem X22_recorded_request_is_a_duplicate
        (processedMRs : gmap JS.str Z) (mrInfo : MergeRequestInfo)
        (setAt pruneAt now rateLimitMs : Z) :
  setAt ≠ 0 → pruneAt - 3600000 ≤ setAt →
  isDuplicate now (Some rateLimitMs)
              (recordProcessed setAt pruneAt processedMRs mrInfo) mrInfo
  = bool_decide (now - setAt < rateLimitMs).
Proof.
  intros H0 Hclock. unfold isDuplicate, recordProcessed. cbv zeta.
  rewrite (map_lookup_filter_Some_2 _ _ (mrKey mrInfo) setAt).
  - destruct (Z.eqb_spec setAt 0); [contradiction|]. cbn [negb andb].
    destruct (Z.ltb_spec (now - setAt) rateLimitMs).
    + rewrite bool_decide_eq_true_2 by assumption. reflexivity.
    + rewrite bool_decide_eq_false_2 by lia. reflexivity.
  - apply lookup_insert_eq.
  - cbn [snd]. lia.
Qed.

(** The theorem one second after the recording, under the default rate
    limit of a minute. *)
Lemma X22_recorded_request_witness :
  isDuplicate 1700000001000 (Some 60000)
              (recordProcessed 1700000000000 1700000000000 ∅
                               (mergeRequest "42" "7"))
              (mergeRequest "42" "7")
  = bool_decide (1700000001000 - 1700000000000 < 60000).
Proof.
  apply X22_recorded_request_is_a_duplicate; [discriminate|].
  vm_compute. discriminate.
Defined.

(** X23: with a rate limit of at most one hour, the pruning of
    [recordProcessed] is invisible to the duplicate check: for every other
    merge request, [isDuplicate] answers after the recording what it
    answered before. *)
Theorem X23_pruning_keeps_the_duplicates
        (processedMRs : gmap JS.str Z) (mrInfo other : MergeRequestInfo)
        (setAt pruneAt now rateLimitMs : Z) :
  mrKey other ≠ mrKey mrInfo → rateLimitMs ≤ 3600000 → pruneAt ≤ now →
  isDuplicate now (Some rateLimitMs)
              (recordProcessed setAt pruneAt processedMRs mrInfo) other
  = isDuplicate now (Some rateLimitMs) processedMRs other.
Proof.
  intros Hkey Hrate Hnow. unfold isDuplicate, recordProcessed. cbv zeta.
  destruct (processedMRs !! mrKey other) as [ts|] eqn:E.
  - destruct (decide (ts < pruneAt - 3600000)) as [Hold|Hrecent].
    + assert (Hnone : filter (fun entry : JS.str * Z =>
                                ¬ (entry.2 < pruneAt - 3600000))
                             (<[mrKey mrInfo := setAt]> processedMRs)
                      !! mrKey other = None).
      { apply eq_None_not_Some. intros [x Hx].
        pose proof (map_lookup_filter_Some_1_1 _ _ _ _ Hx) as Hx1.
        pose proof (map_lookup_filter_Some_1_2 _ _ _ _ Hx) as Hx2.
        rewrite lookup_insert_ne in Hx1 by congruence.
        cbn [snd] in Hx2. congruence. }
      rewrite Hnone.
      destruct (Z.ltb_spec (now - ts) rateLimitMs); [lia|].
      rewrite andb_false_r. reflexivity.
    + rewrite (map_lookup_filter_Some_2 _ _ (mrKey other) ts);
        [reflexivity| |exact Hrecent].
      rewrite lookup_insert_ne by congruence. exact E.
  - assert (Hnone : filter (fun entry : JS.str * Z =>
                              ¬ (entry.2 < pruneAt - 3600000))
                           (<[mrKey mrInfo := setAt]> processedMRs)
                    !! mrKey other = None).
    { apply eq_None_not_Some. intros [x Hx].
      pose proof (map_lookup_filter_Some_1_1 _ _ _ _ Hx) as Hx1.
      rewrite lookup_insert_ne in Hx1 by congruence. congruence. }
    rewrite Hnone. reflexivity.
Qed.

(** The theorem for a merge request recorded two hours before another
    one is: its record is pruned, and it was no duplicate before. *)
Lemma X23_pruning_witness :
  let processedMRs : gmap JS.str Z :=
    {[ mrKey (mergeRequest "42" "6") := 1700000000000 ]} in
  isDuplicate 1700007200000 (Some 60000)
              (recordProcessed 1700007200000 1700007200000 processedMRs
                               (mergeRequest "42" "7"))
              (mergeRequest "42" "6")
  = isDuplicate 1700007200000 (Some 60000) processedMRs (mergeRequest "42" "6").
Proof.
  intros processedMRs. apply X23_pruning_keeps_the_duplicates.
  - vm_compute. discriminate.
  - vm_compute. discriminate.
  - vm_compute. discriminate.
Defined.

End Duplicates.

(** ** The retries *)

Section Retries.

Import AiAgentService.

Context {R : Type}.
Variable call : Z → Outcome R.
Variable maxRetries : Z.

Lemma backoff_total (a : Z) (k : nat) :
  1 ≤ a →
  total (backoff <$> seqZ a (Z.of_nat k))
  = (2 ^ (a + Z.of_nat k - 1) - 2 ^ (a - 1)) * 1000.
Proof.
  revert a. induction k as [|k IH]; intros a Ha.
  - cbn [seqZ]. rewrite seqZ_nil by lia. cbn [fmap list_fmap total foldr].
    replace (a + Z.of_nat 0 - 1) with (a - 1) by lia. lia.
  - rewrite seqZ_cons by lia. cbn [fmap list_fmap total foldr].
    replace (Z.pred (Z.of_nat (S k))) with (Z.of_nat k) by lia.
    fold (total (backoff <$> seqZ (Z.succ a) (Z.of_nat k))).
    rewrite IH by lia. unfold backoff.
    replace (Z.succ a + Z.of_nat k - 1) with (a + Z.of_nat (S k) - 1) by lia.
    replace (Z.succ a - 1) with (Z.succ (a - 1)) by lia.
    rewrite Z.pow_succ_r by lia. lia.
Qed.

(** The loop when every attempt that is left fails. *)
Lemma attempts_all_fail (fuel : nat) (attempt : Z) (lastError : option JS.str) :
  attempt + Z.of_nat fuel = maxRetries + 1 →
  (∀ k, attempt ≤ k → k ≤ maxRetries → ∃ e, call k = Throw e) →
  let r := attempts call maxRetries fuel attempt lastError in
  calls r.1 = seqZ attempt (Z.of_nat fuel)
  ∧ sleeps r.1 = backoff <$> seqZ attempt (Z.of_nat fuel - 1)
  ∧ r.2 = Throw (retriesMessage maxRetries
                   (match fuel with
                    | O => lastError
                    | S _ => errorOf (call maxRetries)
                    end)).
Proof.
  revert attempt lastError.
  induction fuel as [|fuel IH]; intros attempt lastError Hn Hfail.
  - cbn [attempts fst snd calls sleeps omap list_omap].
    rewrite !seqZ_nil by lia. unfold retriesMessage.
    split; [reflexivity|split; reflexivity].
  - cbn [attempts]. destruct (Hfail attempt) as [e He]; [lia|lia|].
    rewrite He. cbn [fst snd].
    destruct (IH (attempt + 1) (Some e)) as [Hc [Hs Hr]]; [lia| |].
    { intros k Hk1 Hk2. apply Hfail; lia. }
    cbv zeta in Hc, Hs, Hr. rewrite Hr.
    split; [|split].
    + unfold calls in *. cbn [omap list_omap].
      destruct (attempt <? maxRetries); cbn [app omap list_omap];
        rewrite Hc; rewrite (seqZ_cons attempt) by lia;
        repeat f_equal; lia.
    + unfold sleeps in *. cbn [omap list_omap].
      destruct (Z.ltb_spec attempt maxRetries) as [Hlt|Hge];
        cbn [app omap list_omap]; rewrite Hs.
      * rewrite (seqZ_cons attempt) by lia. cbn [fmap list_fmap].
        unfold backoff at 2. repeat f_equal; lia.
      * rewrite !seqZ_nil by lia. reflexivity.
    + destruct fuel as [|fuel]; [|reflexivity].
      assert (attempt = maxRetries) by lia. subst attempt. rewrite He.
      reflexivity.
Qed.

(** The loop when the attempt [k] is the first to succeed. *)
Lemma attempts_succeed (fuel : nat) (attempt : Z) (lastError : option JS.str)
      (k : Z) (result : R) :
  attempt ≤ k → k < attempt + Z.of_nat fuel → k ≤ maxRetries →
  call k = Ok result →
  (∀ j, attempt ≤ j → j < k → ∃ e, call j = Throw e) →
  let r := attempts call maxRetries fuel attempt lastError in
  r.2 = Ok result
  ∧ calls r.1 = seqZ attempt (k - attempt + 1)
  ∧ sleeps r.1 = backoff <$> seqZ attempt (k - attempt).
Proof.
  revert attempt lastError.
  induction fuel as [|fuel IH]; intros attempt lastError Hk1 Hk2 Hk3 Hok Hfail;
    [lia|].
  cbn [attempts]. destruct (Z.eq_dec attempt k) as [->|Hne].
  - rewrite Hok. cbn [fst snd calls sleeps omap list_omap].
    replace (k - k + 1) with 1 by lia. replace (k - k) with 0 by lia.
    repeat split; reflexivity.
  - destruct (Hfail attempt) as [e He]; [lia|lia|]. rewrite He. cbn [fst snd].
    destruct (IH (attempt + 1) (Some e)) as [Hr [Hc Hs]]; [lia|lia|lia|exact Hok| |].
    { intros j Hj1 Hj2. apply Hfail; lia. }
    cbv zeta in Hr, Hc, Hs.
    destruct (Z.ltb_spec attempt maxRetries) as [_|Hge]; [|lia].
    split; [exact Hr|]. split.
    + unfold calls in *. cbn [app omap list_omap]. rewrite Hc.
      rewrite (seqZ_cons attempt) by lia. repeat f_equal; lia.
    + unfold sleeps in *. cbn [app omap list_omap]. rewrite Hs.
      rewrite (seqZ_cons attempt) by lia. cbn [fmap list_fmap].
      unfold backoff at 2. repeat f_equal; lia.
Qed.

End Retries.

(** X24: when every attempt fails, [reviewCode] calls the API
    [maxRetries] times, sleeps one second after the first failure and
    twice as long after each further one, not after the last, which is
    [2^(maxRetries-1) - 1] seconds in all, and throws an error that names
    the number of attempts and the message of the last failure. *)
Theorem X24_retries_back_off_then_throw
        {R} (call : Z → Outcome R) (maxRetries : option Z) :
  let n := default 3 maxRetries in
  1 ≤ n →
  (∀ k, 1 ≤ k → k ≤ n → ∃ e, call k = Throw e) →
  ∃ events,
    AiAgentService.reviewCode call maxRetries
    = (events, Throw (retriesMessage n (errorOf (call n))))
    ∧ calls events = seqZ 1 n
    ∧ sleeps events = backoff <$> seqZ 1 (n - 1)
    ∧ total (sleeps events) = (2 ^ (n - 1) - 1) * 1000.
Proof.
  intros n Hn Hfail. unfold AiAgentService.reviewCode. fold n.
  destruct (attempts_all_fail call n (Z.to_nat n) 1 None) as [Hc [Hs Hr]];
    [lia|exact Hfail|]. cbv zeta in Hc, Hs, Hr.
  destruct (AiAgentService.attempts call n (Z.to_nat n) 1 None) as [events r].
  cbn [fst snd] in *. exists events. subst r.
  rewrite Z2Nat.id in Hc, Hs by lia.
  split; [|split; [exact Hc|split; [exact Hs|]]].
  - destruct (Z.to_nat n) eqn:E; [lia|reflexivity].
  - rewrite Hs. replace (n - 1) with (Z.of_nat (Z.to_nat (n - 1))) at 1 by lia.
    rewrite backoff_total by lia. rewrite Z2Nat.id by lia.
    replace (1 + (n - 1) - 1) with (n - 1) by lia. change (2 ^ (1 - 1)) with 1.
    reflexivity.
Qed.

(** The theorem at an API that is down, with the default of three
    attempts: three calls and three seconds of sleep. *)
Lemma X24_retries_witness :
  ∃ events,
    AiAgentService.reviewCode apiDown None
    = (events, Throw (retriesMessage 3 (errorOf (apiDown 3))))
    ∧ calls events = seqZ 1 3
    ∧ sleeps events = backoff <$> seqZ 1 (3 - 1)
    ∧ total (sleeps events) = (2 ^ (3 - 1) - 1) * 1000.
Proof.
  apply (X24_retries_back_off_then_throw apiDown None).
  - vm_compute. discriminate.
  - intros k _ _. eexists. reflexivity.
Defined.

(** X25: when the attempt [k] is the first that succeeds, [reviewCode]
    returns its result after [k] calls and [2^(k-1) - 1] seconds of
    sleep; no further call is made. *)
Theorem X25_first_success_is_returned
        {R} (call : Z → Outcome R) (maxRetries : option Z) (k : Z) (result : R) :
  1 ≤ k → k ≤ default 3 maxRetries →
  call k = Ok result →
  (∀ j, 1 ≤ j → j < k → ∃ e, call j = Throw e) →
  ∃ events,
    AiAgentService.reviewCode call maxRetries = (events, Ok result)
    ∧ calls events = seqZ 1 k
    ∧ sleeps events = backoff <$> seqZ 1 (k - 1)
    ∧ total (sleeps events) = (2 ^ (k - 1) - 1) * 1000.
Proof.
  intros Hk1 Hk2 Hok Hfail. unfold AiAgentService.reviewCode.
  set (n := default 3 maxRetries) in *.
  destruct (attempts_succeed call n (Z.to_nat n) 1 None k result)
    as [Hr [Hc Hs]]; [lia|lia|lia|exact Hok|exact Hfail|].
  cbv zeta in Hr, Hc, Hs.
  destruct (AiAgentService.attempts call n (Z.to_nat n) 1 None) as [events r].
  cbn [fst snd] in *. exists events. subst r.
  replace (k - 1 + 1) with k in Hc by lia.
  split; [reflexivity|split; [exact Hc|split; [exact Hs|]]].
  rewrite Hs. replace (k - 1) with (Z.of_nat (Z.to_nat (k - 1))) at 1 by lia.
  rewrite backoff_total by lia. rewrite Z2Nat.id by lia.
  replace (1 + (k - 1) - 1) with (k - 1) by lia. change (2 ^ (1 - 1)) with 1.
  reflexivity.
Qed.

(** The theorem at an API that answers at the third attempt. *)
Lemma X25_first_success_witness :
  ∃ events,
    AiAgentService.reviewCode apiUpAtThird None
    = (events, Ok (JS.lit "issues: []"))
    ∧ calls events = seqZ 1 3
    ∧ sleeps events = backoff <$> seqZ 1 (3 - 1)
    ∧ total (sleeps events) = (2 ^ (3 - 1) - 1) * 1000.
Proof.
  apply (X25_first_success_is_returned apiUpAtThird None 3).
  - vm_compute. discriminate.
  - vm_compute. discriminate.
  - reflexivity.
  - intros j Hj1 Hj2. unfold apiUpAtThird.
    destruct (Z.eqb_spec j 3); [lia|]. eexists. reflexivity.
Defined.
